(** * tvDatafeed: the protocol session engine of [tvDatafeed/main.py]

    A shallow embedding of the client in [main.py]: the frame codec
    ([__prepend_header], [__construct_message]), symbol formatting
    ([__format_symbol]), the bar parser ([__create_df]), the token cache
    ([_load_token], [__init__]) and the historical fetch ([get_hist]) with its
    handshake and receive loop.

    Python strings are sequences of Unicode code points, so a string is a list
    of code points ([N]); the standard-library calls the client makes
    ([json.dumps], [re.search], [str.split], [re.split]) are modelled as they
    are documented for the arguments the client passes; [float],
    [datetime.fromtimestamp], [json.loads] and the outside world (socket,
    cache file, sign-in endpoint) are parameters. *)

From Stdlib Require Import Ascii String DecimalString DecimalNat DecimalZ.
From Stdlib Require Import List NArith ZArith QArith Bool Arith Lia.
Import ListNotations.
Close Scope Q_scope.
Local Open Scope nat_scope.
Local Open Scope list_scope.

Set Implicit Arguments.

(** ** Python strings *)

Module PyStr.

Definition char := N.
Definition pystr := list char.

(** An ASCII literal as a Python string. *)
Definition py (s : string) : pystr :=
  map N_of_ascii (list_ascii_of_string s).
Arguments py s%_string.

Definition dquote : char := 34%N.
Definition squote : char := 39%N.
Definition newline : char := 10%N.

(** A literal in which each apostrophe stands for a double quote: the way
    literals of the source that hold double quotes are written here. *)
Definition pyq (s : string) : pystr :=
  map (fun c => if N.eqb c squote then dquote else c) (py s).
Arguments pyq s%_string.

Definition unpy (s : pystr) : string :=
  string_of_list_ascii (map ascii_of_N s).

Fixpoint eqb (a b : pystr) : bool :=
  match a, b with
  | [], [] => true
  | x :: a', y :: b' => N.eqb x y && eqb a' b'
  | _, _ => false
  end.

(** [s.startswith(p)] *)
Fixpoint startswith (p s : pystr) : bool :=
  match p, s with
  | [], _ => true
  | x :: p', y :: s' => N.eqb x y && startswith p' s'
  | _ :: _, [] => false
  end.

(** [p in s] for strings: [p] occurs in [s] as a substring. *)
Fixpoint contains (p s : pystr) : bool :=
  startswith p s ||
  match s with
  | [] => false
  | _ :: s' => contains p s'
  end.

(** [c in s] for a single character [c]. *)
Definition has_char (c : char) (s : pystr) : bool :=
  existsb (N.eqb c) s.

(** [sep.join(parts)] *)
Fixpoint join (sep : pystr) (parts : list pystr) : pystr :=
  match parts with
  | [] => []
  | [p] => p
  | p :: rest => p ++ sep ++ join sep rest
  end.

(** [str(n)] for a length and [str(z)] for an [int]. *)
Definition str_of_nat (n : nat) : pystr :=
  py (NilEmpty.string_of_uint (Nat.to_uint n)).

Definition str_of_Z (z : Z) : pystr :=
  py (NilEmpty.string_of_int (Z.to_int z)).

Definition is_digit (c : char) : bool := ((48 <=? c) && (c <=? 57))%N.

(** [int(s)] on a string of decimal digits; [None] where [int] raises. *)
Definition nat_of_str (s : pystr) : option nat :=
  match s with
  | [] => None
  | _ => option_map Nat.of_uint (NilEmpty.uint_of_string (unpy s))
  end.

(** [int(s)] on a decimal literal with a sign or none. *)
Definition Z_of_str (s : pystr) : option Z :=
  option_map Z.of_int (NilEmpty.int_of_string (unpy s)).

(** The number of bytes of a code point and of a string in UTF-8, the
    encoding of the text frames on the wire. *)
Definition utf8_width (c : char) : nat :=
  if (c <? 128)%N then 1
  else if (c <? 2048)%N then 2
  else if (c <? 65536)%N then 3
  else 4.

Definition utf8_length (s : pystr) : nat :=
  list_sum (map utf8_width s).

Definition is_ascii (s : pystr) : Prop :=
  Forall (fun c => (c < 128)%N) s.

End PyStr.
Import PyStr.

(** ** [json.dumps]

    The values the client serialises: strings, integers, booleans, [None],
    lists and dictionaries with string keys. *)

#[warnings="-register-all"]
Inductive json : Type :=
| JNull
| JBool (b : bool)
| JInt (z : Z)
| JStr (s : pystr)
| JList (l : list json)
| JDict (d : list (pystr * json)).

Module Json.

Definition hexdigit (d : N) : char :=
  if (d <? 10)%N then (48 + d)%N else (87 + d)%N.

(** ['\\u{0:04x}'.format(n)] *)
Definition u_escape (n : N) : pystr :=
  py "\u" ++ [ hexdigit ((n / 4096) mod 16); hexdigit ((n / 256) mod 16);
               hexdigit ((n / 16) mod 16); hexdigit (n mod 16) ].

(** The replacement of one character by [py_encode_basestring_ascii]:
    the characters from space to tilde other than the backslash and the
    double quote stand for themselves, the others are escaped. *)
Definition escape_char (c : char) : pystr :=
  if (c =? 92)%N then py "\\"
  else if (c =? 34)%N then [92; 34]%N
  else if (c =? 8)%N then py "\b"
  else if (c =? 12)%N then py "\f"
  else if (c =? 10)%N then py "\n"
  else if (c =? 13)%N then py "\r"
  else if (c =? 9)%N then py "\t"
  else if ((32 <=? c) && (c <=? 126))%N then [c]
  else if (c <? 65536)%N then u_escape c
  else
    let n := (c - 65536)%N in
    u_escape (N.lor 55296 (N.land (N.shiftr n 10) 1023))
    ++ u_escape (N.lor 56320 (N.land n 1023)).

Definition encode_basestring_ascii (s : pystr) : pystr :=
  [dquote] ++ flat_map escape_char s ++ [dquote].

(** [json.dumps(v, separators=(isep, ksep))], [ensure_ascii] left at its
    default. *)
Fixpoint dumps (isep ksep : pystr) (v : json) : pystr :=
  match v with
  | JNull => py "null"
  | JBool true => py "true"
  | JBool false => py "false"
  | JInt z => str_of_Z z
  | JStr s => encode_basestring_ascii s
  | JList l => py "[" ++ join isep (map (dumps isep ksep) l) ++ py "]"
  | JDict d =>
      py "{"
      ++ join isep
           (map (fun kv => encode_basestring_ascii (fst kv) ++ ksep
                           ++ dumps isep ksep (snd kv)) d)
      ++ py "}"
  end.

(** [d.get(key)] on a value: [None] of the outer option is the
    [AttributeError] of a value that is no dictionary. *)
Fixpoint assoc (key : pystr) (d : list (pystr * json)) : option json :=
  match d with
  | [] => None
  | (k, v) :: d' => if PyStr.eqb k key then Some v else assoc key d'
  end.

(** The truth value of a Python object. *)
Definition truthy (v : json) : bool :=
  match v with
  | JNull => false
  | JBool b => b
  | JInt z => negb (Z.eqb z 0)
  | JStr s => negb (PyStr.eqb s [])
  | JList l => match l with [] => false | _ => true end
  | JDict d => match d with [] => false | _ => true end
  end.

End Json.

(** The strings a value holds, keys included. *)
Fixpoint json_strings (v : json) : list pystr :=
  match v with
  | JStr s => [s]
  | JList l => flat_map json_strings l
  | JDict d => flat_map (fun kv => fst kv :: json_strings (snd kv)) d
  | _ => []
  end.

(** A character of the output is clean when it is a printable ASCII
    character, and a space only where [origin] holds. *)
Definition clean (origin : Prop) (c : char) : Prop :=
  (32 <= c <= 126)%N /\ (c = 32%N -> origin).

(** ** The frame codec *)

(** [__prepend_header]: ["~m~" + str(len(st)) + "~m~" + st] *)
Definition prepend_header (st : pystr) : pystr :=
  py "~m~" ++ str_of_nat (length st) ++ py "~m~" ++ st.

(** [__construct_message]:
    [json.dumps({"m": func, "p": param_list}, separators=(",", ":"))] *)
Definition construct_message (func : pystr) (param_list : list json) : pystr :=
  Json.dumps (py ",") (py ":")
    (JDict [(py "m", JStr func); (py "p", JList param_list)]).

(** [__create_message] *)
Definition create_message (func : pystr) (paramList : list json) : pystr :=
  prepend_header (construct_message func paramList).

(** The reading of a frame that the header is written for: the digits
    between the two [~m~] as a number, and what follows them. *)
Fixpoint take_digits (s : pystr) : pystr * pystr :=
  match s with
  | c :: s' =>
      if is_digit c
      then let (d, r) := take_digits s' in (c :: d, r)
      else ([], s)
  | [] => ([], [])
  end.

Definition read_header (frame : pystr) : option (nat * pystr) :=
  if startswith (py "~m~") frame then
    let (d, r) := take_digits (skipn 3 frame) in
    if startswith (py "~m~") r
    then option_map (fun n => (n, skipn 3 r)) (nat_of_str d)
    else None
  else None.

(** ** Exceptions, events and the monad of the client *)

(** An exception is identified by its class; [ValueError] carries the message
    where the client raises it itself. *)
Inductive exn : Type :=
| ValueError (msg : pystr)
| IndexError
| AttributeError
| KeyError
| TypeError
| LibraryError (name : pystr).

Definition is_ValueError (e : exn) : bool :=
  match e with ValueError _ => true | _ => false end.

Definition is_AttributeError (e : exn) : bool :=
  match e with AttributeError => true | _ => false end.

(** The [ValueError] that [float] raises, its message without the text of
    the string refused. *)
Definition float_error : exn :=
  ValueError (py "could not convert string to float").

Inductive outcome (A : Type) : Type :=
| Returned (a : A)
| Raised (e : exn)
| OutOfFuel.
Arguments Raised {A} e.
Arguments OutOfFuel {A}.

Inductive level : Type := DEBUG | ERROR.

Inductive logmsg : Type :=
| Text (t : pystr)
| Fmt (t : pystr) (e : exn)
| Exc (e : exn).

(** What a run does to the outside world, in order. *)
Inductive event : Type :=
| Connect
| Send (frame : pystr)
| Recv
| Log (lvl : level) (msg : logmsg)
| Print (text : logmsg)
| HttpPost (username password : pystr)
| FileRead (path : pystr)
| FileWrite (path content : pystr).

(** The socket [self.ws] holds: how many frames were sent and received on
    it. *)
Record socket : Type := mkSocket { sent : nat; rcvd : nat }.

Record state : Type := mkState {
  trace : list event;
  ws : option socket;
  rng : nat
}.

Definition M (A : Type) : Type := state -> state * outcome A.

Definition ret {A} (a : A) : M A := fun s => (s, Returned a).

Definition raise {A} (e : exn) : M A := fun s => (s, Raised e).

Definition out_of_fuel {A} : M A := fun s => (s, OutOfFuel).

Definition bind {A B} (c : M A) (k : A -> M B) : M B :=
  fun s =>
    match c s with
    | (s', Returned a) => k a s'
    | (s', Raised e) => (s', Raised e)
    | (s', OutOfFuel) => (s', OutOfFuel)
    end.

(** [try: c except <classes>: h] *)
Definition try_except {A} (c : M A) (caught : exn -> bool) (h : exn -> M A)
  : M A :=
  fun s =>
    match c s with
    | (s', Raised e) => if caught e then h e s' else (s', Raised e)
    | r => r
    end.

Definition emit (ev : event) : M unit :=
  fun s => (mkState (trace s ++ [ev]) (ws s) (rng s), Returned tt).

Definition lift {A} (r : outcome A) : M A := fun s => (s, r).

Declare Scope py_scope.
Delimit Scope py_scope with py_m.
Notation "x <- c ;; k" := (bind c (fun x => k))
  (at level 100, c at next level, right associativity) : py_scope.
Notation "c ;; k" := (bind c (fun _ => k))
  (at level 100, right associativity) : py_scope.
Local Open Scope py_scope.

(** The state with more events in its trace, and the two messages of the
    parser. *)
Definition log_event (s : state) (evs : list event) : state :=
  mkState (trace s ++ evs) (ws s) (rng s).

Definition no_volume_data : event := Log DEBUG (Text (py "no volume data")).

Definition no_data : event :=
  Log ERROR (Text (py "no data, please check the exchange and symbol")).

(** ** Symbol formatting *)

(** The values a caller passes as [contract]: [None], an [int] (a [bool] is
    one), or an object of another class. *)
Inductive contract_arg : Type :=
| CNone
| CInt (n : Z)
| CBool (b : bool)
| COther.

(** [__format_symbol] *)
Definition format_symbol (symbol exchange : pystr) (contract : contract_arg)
  : outcome pystr :=
  if has_char 58%N symbol then Returned symbol
  else
    match contract with
    | CNone => Returned (exchange ++ py ":" ++ symbol)
    | CInt n => Returned (exchange ++ py ":" ++ symbol ++ str_of_Z n ++ py "!")
    | CBool b =>
        Returned (exchange ++ py ":" ++ symbol
                  ++ (if b then py "True" else py "False") ++ py "!")
    | COther => Raised (ValueError (py "not a valid contract"))
    end.

(** ** The bar parser *)

Module Re.

(** The rest of the lazy group [(.+?)] after its first character, followed
    by the closing [}]]: the shortest run of characters other than the
    newline that the closing follows. *)
Fixpoint lazy_until_close (s : pystr) : option pystr :=
  if startswith (py "}]") s then Some []
  else
    match s with
    | [] => None
    | c :: s' =>
        if (c =? newline)%N then None
        else option_map (cons c) (lazy_until_close s')
    end.

(** The pattern ['"s":\[(.+?)\}\]'] matched at the start of [s]: group 1. *)
Definition match_series_at (s : pystr) : option pystr :=
  if startswith (pyq "'s':[") s then
    match skipn 5 s with
    | [] => None
    | c :: s' =>
        if (c =? newline)%N then None
        else option_map (cons c) (lazy_until_close s')
    end
  else None.

(** [re.search('"s":\[(.+?)\}\]', raw_data)]: group 1 of the leftmost
    match, [None] when the pattern matches nowhere. *)
Fixpoint search_series (raw_data : pystr) : option pystr :=
  match match_series_at raw_data with
  | Some g => Some g
  | None =>
      match raw_data with
      | [] => None
      | _ :: rest => search_series rest
      end
  end.

(** Puts a character in front of the first piece of a split. *)
Definition push (c : char) (pieces : list pystr) : list pystr :=
  match pieces with
  | p :: ps => (c :: p) :: ps
  | [] => [[c]]
  end.

(** [s.split(sep)] for a separator that is not empty; [skip] counts the
    characters of a separator just found that are still to be passed. *)
Fixpoint split_from (sep : pystr) (skip : nat) (s : pystr) : list pystr :=
  match s with
  | [] => [[]]
  | c :: s' =>
      match skip with
      | S k => split_from sep k s'
      | O =>
          if startswith sep s
          then [] :: split_from sep (length sep - 1) s'
          else push c (split_from sep 0 s')
      end
  end.

Definition split (sep s : pystr) : list pystr := split_from sep 0 s.

(** The separators of [re.split("\[|:|,|\]", xi)]. *)
Definition is_delim (c : char) : bool :=
  ((c =? 91) || (c =? 58) || (c =? 44) || (c =? 93))%N.

(** [re.split("\[|:|,|\]", xi)] *)
Fixpoint split_fields (xi : pystr) : list pystr :=
  match xi with
  | [] => [[]]
  | c :: xi' =>
      if is_delim c then [] :: split_fields xi'
      else push c (split_fields xi')
  end.

End Re.

Section BarParser.

(** Python's floats with [0.0], [float(s)] ([None]: it raises
    [ValueError]) and [datetime.datetime.fromtimestamp] with the exception
    it raises on a value out of its range. *)
Variables (F DT : Type).
Variable zero : F.
Variable py_float : pystr -> option F.
Variable fromtimestamp : F -> exn + DT.

(** A row of the data frame: the index [datetime], the inserted column
    [symbol] and the five columns of the bar. *)
Record bar : Type := mkBar {
  bar_datetime : DT;
  bar_symbol : pystr;
  bar_open : F;
  bar_high : F;
  bar_low : F;
  bar_close : F;
  bar_volume : F
}.

(** [float(xi[i])] *)
Definition float_at (xi : list pystr) (i : nat) : M F :=
  match nth_error xi i with
  | None => raise IndexError
  | Some tok =>
      match py_float tok with
      | Some v => ret v
      | None => raise float_error
      end
  end.

(** The body of [for i in range(5, 10)], over the flag [volume_data] and
    the floats appended to [row] so far. *)
Definition field_step (xi : list pystr) (i : nat) (st : bool * list F)
  : M (bool * list F) :=
  let '(volume_data, row) := st in
  if negb volume_data && (i =? 9) then ret (volume_data, row ++ [zero])
  else
    try_except
      (v <- float_at xi i ;; ret (volume_data, row ++ [v]))
      is_ValueError
      (fun _ => emit (Log DEBUG (Text (py "no volume data"))) ;;
                ret (false, row ++ [zero])).

Fixpoint fields_loop (xi : list pystr) (idxs : list nat)
         (st : bool * list F) : M (bool * list F) :=
  match idxs with
  | [] => ret st
  | i :: idxs' => st' <- field_step xi i st ;; fields_loop xi idxs' st'
  end.

(** The body of [for xi in x]: one record to one row, [ts] and the floats
    after it. *)
Definition record_step (xi : pystr) (volume_data : bool)
  : M (bool * (DT * list F)) :=
  let xi := Re.split_fields xi in
  t <- float_at xi 4 ;;
  match fromtimestamp t with
  | inl e => raise e
  | inr ts =>
      st <- fields_loop xi (seq 5 5) (volume_data, []) ;;
      ret (fst st, (ts, snd st))
  end.

Fixpoint records_loop (x : list pystr) (volume_data : bool)
         (data : list (DT * list F)) : M (list (DT * list F)) :=
  match x with
  | [] => ret data
  | xi :: x' =>
      r <- record_step xi volume_data ;;
      records_loop x' (fst r) (data ++ [snd r])
  end.

(** [pd.DataFrame(data, columns=[...]).set_index("datetime")] then
    [data.insert(0, "symbol", value=symbol)]: six columns are named, and a
    row of another width is refused with a [ValueError]. *)
Definition to_bar (symbol : pystr) (row : DT * list F) : option bar :=
  match row with
  | (ts, [o; h; l; c; v]) => Some (mkBar ts symbol o h l c v)
  | _ => None
  end.

Fixpoint to_bars (symbol : pystr) (data : list (DT * list F))
  : option (list bar) :=
  match data with
  | [] => Some []
  | row :: data' =>
      match to_bar symbol row, to_bars symbol data' with
      | Some b, Some bs => Some (b :: bs)
      | _, _ => None
      end
  end.

Definition DataFrame (symbol : pystr) (data : list (DT * list F))
  : M (list bar) :=
  match to_bars symbol data with
  | Some df => ret df
  | None => raise (ValueError (py "columns passed do not match the data"))
  end.

(** [__create_df]: the data frame, or [None] after the logged error when
    the search finds no series block. *)
Definition create_df (raw_data symbol : pystr) : M (option (list bar)) :=
  try_except
    (match Re.search_series raw_data with
     | None => raise AttributeError
     | Some out =>
         let x := Re.split (pyq ",{'") out in
         data <- records_loop x true [] ;;
         df <- DataFrame symbol data ;;
         ret (Some df)
     end)
    is_AttributeError
    (fun _ =>
       emit (Log ERROR
               (Text (py "no data, please check the exchange and symbol"))) ;;
       ret None).

(** What the properties of the parser speak of: the series block of a
    stream, the token and the number at a position of a record, and the
    records that parse to a given bar. *)

(** [raw_data] holds the block [g] between the marker and a closing. *)
Definition series_block (raw_data g : pystr) : Prop :=
  exists pre post,
    raw_data = pre ++ pyq "'s':[" ++ g ++ py "}]" ++ post
    /\ g <> [] /\ ~ In newline g.

Definition token_at (r : pystr) (i : nat) : option pystr :=
  nth_error (Re.split_fields r) i.

(** The number at position [i] of the record, when a token is there and
    [float] accepts it. *)
Definition number (r : pystr) (i : nat) : option F :=
  match token_at r i with
  | Some tok => py_float tok
  | None => None
  end.

(** The value recorded for a field [float] may refuse. *)
Definition lenient (r : pystr) (i : nat) : F :=
  match number r i with
  | Some v => v
  | None => zero
  end.

Definition timestamp (r : pystr) : option DT :=
  match number r 4 with
  | Some t => match fromtimestamp t with inr d => Some d | inl _ => None end
  | None => None
  end.

(** The record [r] parses to the bar [b], its volume included. *)
Definition full_bar (symbol r : pystr) (b : bar) : Prop :=
  timestamp r = Some (bar_datetime b)
  /\ bar_symbol b = symbol
  /\ number r 5 = Some (bar_open b)
  /\ number r 6 = Some (bar_high b)
  /\ number r 7 = Some (bar_low b)
  /\ number r 8 = Some (bar_close b)
  /\ number r 9 = Some (bar_volume b).

(** The record [r] parses to the bar [b] but for the volume, which is
    [0.0]; nothing is asked of position 9. *)
Definition volumeless_bar (symbol r : pystr) (b : bar) : Prop :=
  timestamp r = Some (bar_datetime b)
  /\ bar_symbol b = symbol
  /\ number r 5 = Some (bar_open b)
  /\ number r 6 = Some (bar_high b)
  /\ number r 7 = Some (bar_low b)
  /\ number r 8 = Some (bar_close b)
  /\ bar_volume b = zero.

(** The column of a bar that position [i] of a record fills. *)
Definition bar_field (b : bar) (i : nat) : F :=
  match i with
  | 5 => bar_open b
  | 6 => bar_high b
  | 7 => bar_low b
  | 8 => bar_close b
  | _ => bar_volume b
  end.

(** A field other than the volume: its number, or [0.0] with the flag
    cleared and the message logged when [float] refuses the token. *)
Definition refusal (r : pystr) (i : nat) : list event :=
  match number r i with
  | Some _ => []
  | None => [no_volume_data]
  end.

Definition accepted (r : pystr) (i : nat) : bool :=
  match number r i with
  | Some _ => true
  | None => false
  end.

Definition row_of (b : bar) : DT * list F :=
  (bar_datetime b,
   [bar_open b; bar_high b; bar_low b; bar_close b; bar_volume b]).

End BarParser.

Arguments row_of {F DT} b.

(** ** The client *)

Inductive Interval : Type :=
| in_1_minute | in_3_minute | in_5_minute | in_15_minute | in_30_minute
| in_45_minute | in_1_hour | in_2_hour | in_3_hour | in_4_hour
| in_daily | in_weekly | in_monthly.

(** [interval.value] *)
Definition Interval_value (i : Interval) : pystr :=
  match i with
  | in_1_minute => py "1"
  | in_3_minute => py "3"
  | in_5_minute => py "5"
  | in_15_minute => py "15"
  | in_30_minute => py "30"
  | in_45_minute => py "45"
  | in_1_hour => py "1H"
  | in_2_hour => py "2H"
  | in_3_hour => py "3H"
  | in_4_hour => py "4H"
  | in_daily => py "1D"
  | in_weekly => py "1W"
  | in_monthly => py "1M"
  end.

(** The outside world of one run: what the socket, the cache file, the
    sign-in endpoint and the random generator answer. [ws_send k] and
    [ws_recv k] are the outcomes of the [k]-th send and receive on a
    connection. *)
Record world : Type := mkWorld {
  ws_connect : option exn;
  ws_send : nat -> option exn;
  ws_recv : nat -> exn + pystr;
  path_exists : pystr -> bool;
  file_read : pystr -> exn + pystr;
  file_write : pystr -> pystr -> option exn;
  signin : pystr -> pystr -> exn + pystr;
  random_choice : nat -> nat
}.

(** The attributes [__init__] sets on [self]; the socket [self.ws] is in the
    state. *)
Record client : Type := mkClient {
  ws_debug : bool;
  token_cache_file : pystr;
  token : json;
  session : pystr;
  chart_session : pystr
}.

Definition set_ws (v : option socket) : M unit :=
  fun s => (mkState (trace s) v (rng s), Returned tt).

(** The truth value of an argument that is [None] or a string. *)
Definition truthy_arg (a : option pystr) : bool :=
  match a with
  | Some (_ :: _) => true
  | _ => false
  end.

Definition arg_text (a : option pystr) : pystr :=
  match a with Some t => t | None => [] end.

(** [v[key]] for a string [key]. *)
Definition subscript (v : json) (key : pystr) : M json :=
  match v with
  | JDict d =>
      match Json.assoc key d with
      | Some x => ret x
      | None => raise KeyError
      end
  | _ => raise TypeError
  end.

Definition except_Exception (e : exn) : bool := true.

Definition ascii_lowercase : pystr := py "abcdefghijklmnopqrstuvwxyz".

Section Client.

Variables (F DT : Type).
Variable zero : F.
Variable py_float : pystr -> option F.
Variable fromtimestamp : F -> exn + DT.

(** [json.loads] ([None]: it raises) and [os.path.expanduser]. *)
Variable json_loads : pystr -> option json.
Variable expanduser : pystr -> pystr.

Variable w : world.

(** [_load_token]; Python's [None] is [JNull]. *)
Definition load_token (path : pystr) : M json :=
  if path_exists w path then
    try_except
      (emit (FileRead path) ;;
       match file_read w path with
       | inl e => raise e
       | inr text =>
           match json_loads text with
           | None => raise (ValueError (py "JSONDecodeError"))
           | Some (JDict d) =>
               ret (match Json.assoc (py "token") d with
                    | Some v => v
                    | None => JNull
                    end)
           | Some _ => raise AttributeError
           end
       end)
      except_Exception
      (fun _ => ret JNull)
  else ret JNull.

(** [_save_token] *)
Definition save_token (path : pystr) (tok : json) : M unit :=
  let content := Json.dumps (py ", ") (py ": ") (JDict [(py "token", tok)]) in
  try_except
    (match file_write w path content with
     | Some e => raise e
     | None => emit (FileWrite path content)
     end)
    except_Exception
    (fun e => emit (Print (Fmt (py "Warning: Failed to save token - ") e))).

(** [__auth] *)
Definition auth (username password : option pystr) : M json :=
  if truthy_arg username && truthy_arg password then
    try_except
      (emit (HttpPost (arg_text username) (arg_text password)) ;;
       match signin w (arg_text username) (arg_text password) with
       | inl e => raise e
       | inr body =>
           match json_loads body with
           | None => raise (ValueError (py "JSONDecodeError"))
           | Some r =>
               u <- subscript r (py "user") ;;
               subscript u (py "auth_token")
           end
       end)
      except_Exception
      (fun e => emit (Log ERROR (Fmt (py "password-auth failed: %s") e)) ;;
                ret JNull)
  else ret JNull.

(** [_login_and_get_token] *)
Definition login_and_get_token (username password : option pystr) : M json :=
  tok <- auth username password ;;
  if Json.truthy tok then ret tok
  else raise (ValueError (py "Login failed, could not retrieve token")).

(** Twelve calls of [random.choice(letters)], joined. *)
Definition random_string : M pystr :=
  fun s =>
    (mkState (trace s) (ws s) (rng s + 12),
     Returned (map (fun i => nth (random_choice w (rng s + i) mod 26)
                                 ascii_lowercase 0%N)
                   (seq 0 12))).

(** [__generate_session] and [__generate_chart_session] *)
Definition generate_session : M pystr :=
  r <- random_string ;; ret (py "qs_" ++ r).

Definition generate_chart_session : M pystr :=
  r <- random_string ;; ret (py "cs_" ++ r).

(** [__init__] *)
Definition init (username password : option pystr) (cache_file : pystr)
  : M client :=
  let path := expanduser cache_file in
  cached <- load_token path ;;
  tok <- (if Json.truthy cached then ret cached
          else if truthy_arg username && truthy_arg password then
            t <- login_and_get_token username password ;;
            save_token path t ;;
            ret t
          else raise (ValueError
                 (py "Must provide either token or username/password"))) ;;
  set_ws None ;;
  qs <- generate_session ;;
  cs <- generate_chart_session ;;
  ret (mkClient false path tok qs cs).

(** [get_token] *)
Definition get_token (self : client) : json := token self.

(** [__create_connection] *)
Definition create_connection : M unit :=
  emit (Log DEBUG (Text (py "creating websocket connection"))) ;;
  match ws_connect w with
  | Some e => raise e
  | None => set_ws (Some (mkSocket 0 0)) ;; emit Connect
  end.

(** [self.ws.send(m)] *)
Definition ws_send_frame (m : pystr) : M unit :=
  fun s =>
    match ws s with
    | None => (s, Raised AttributeError)
    | Some c =>
        match ws_send w (sent c) with
        | Some e => (s, Raised e)
        | None =>
            (mkState (trace s ++ [Send m])
                     (Some (mkSocket (S (sent c)) (rcvd c))) (rng s),
             Returned tt)
        end
    end.

(** [self.ws.recv()] *)
Definition ws_recv_text : M pystr :=
  fun s =>
    match ws s with
    | None => (s, Raised AttributeError)
    | Some c =>
        let s' := mkState (trace s ++ [Recv])
                          (Some (mkSocket (sent c) (S (rcvd c)))) (rng s) in
        match ws_recv w (rcvd c) with
        | inl e => (s', Raised e)
        | inr text => (s', Returned text)
        end
    end.

(** [__send_message] *)
Definition send_message (self : client) (func : pystr) (args : list json)
  : M unit :=
  let m := create_message func args in
  (if ws_debug self then emit (Print (Text m)) else ret tt) ;;
  ws_send_frame m.

(** The fields [quote_set_fields] asks for. *)
Definition quote_fields : list pystr :=
  [ py "ch"; py "chp"; py "current_session"; py "description";
    py "local_description"; py "language"; py "exchange"; py "fractional";
    py "is_tradable"; py "lp"; py "lp_time"; py "minmov"; py "minmove2";
    py "original_name"; py "pricescale"; py "pro_name"; py "short_name";
    py "type"; py "update_mode"; py "volume"; py "currency_code";
    py "rchp"; py "rtc" ].

(** The descriptor [resolve_symbol] sends. *)
Definition symbol_descriptor (symbol : pystr) (extended_session : bool)
  : pystr :=
  pyq "={'symbol':'" ++ symbol ++ pyq "','adjustment':'splits','session':"
  ++ (if negb extended_session then pyq "'regular'" else pyq "'extended'")
  ++ py "}".

(** [get_hist] up to the receive loop: the symbol is formatted, the
    connection opened and the setup messages sent. *)
Definition get_hist_setup (self : client) (symbol exchange : pystr)
           (interval : Interval) (n_bars : Z) (fut_contract : contract_arg)
           (extended_session : bool) : M pystr :=
  symbol <- lift (format_symbol symbol exchange fut_contract) ;;
  let interval := Interval_value interval in
  create_connection ;;
  send_message self (py "set_auth_token") [token self] ;;
  send_message self (py "chart_create_session")
    [JStr (chart_session self); JStr []] ;;
  send_message self (py "quote_create_session") [JStr (session self)] ;;
  send_message self (py "quote_set_fields")
    (JStr (session self) :: map JStr quote_fields) ;;
  send_message self (py "quote_add_symbols")
    [JStr (session self); JStr symbol;
     JDict [(py "flags", JList [JStr (py "force_permission")])]] ;;
  send_message self (py "quote_fast_symbols")
    [JStr (session self); JStr symbol] ;;
  send_message self (py "resolve_symbol")
    [JStr (chart_session self); JStr (py "symbol_1");
     JStr (symbol_descriptor symbol extended_session)] ;;
  send_message self (py "create_series")
    [JStr (chart_session self); JStr (py "s1"); JStr (py "s1");
     JStr (py "symbol_1"); JStr interval; JInt n_bars] ;;
  send_message self (py "switch_timezone")
    [JStr (chart_session self); JStr (py "exchange")] ;;
  ret symbol.

Definition series_completed : pystr := py "series_completed".

(** The loop [while True] of [get_hist], [fuel] iterations of it at
    most. *)
Fixpoint recv_loop (fuel : nat) (raw_data : pystr) : M pystr :=
  match fuel with
  | O => out_of_fuel
  | S fuel' =>
      r <- try_except
             (result <- ws_recv_text ;;
              ret (Some (result, raw_data ++ result ++ [newline])))
             except_Exception
             (fun e => emit (Log ERROR (Exc e)) ;; ret None) ;;
      match r with
      | None => ret raw_data
      | Some (result, raw_data) =>
          if contains series_completed result then ret raw_data
          else recv_loop fuel' raw_data
      end
  end.

(** [get_hist] from the receive loop on. *)
Definition get_hist_stream (fuel : nat) (symbol : pystr)
  : M (option (list (bar F DT))) :=
  emit (Log DEBUG (Text (py "getting data for " ++ symbol ++ py "..."))) ;;
  raw_data <- recv_loop fuel [] ;;
  create_df zero py_float fromtimestamp raw_data symbol.

(** [get_hist] *)
Definition get_hist (fuel : nat) (self : client) (symbol exchange : pystr)
           (interval : Interval) (n_bars : Z) (fut_contract : contract_arg)
           (extended_session : bool) : M (option (list (bar F DT))) :=
  symbol <- get_hist_setup self symbol exchange interval n_bars
              fut_contract extended_session ;;
  get_hist_stream fuel symbol.

End Client.

(** ** What the properties of the fetch speak of *)

(** The events on the socket, without what is logged or printed. *)
Definition is_wire (ev : event) : bool :=
  match ev with
  | Connect | Send _ | Recv => true
  | _ => false
  end.

Definition wire (s : state) : list event := filter is_wire (trace s).

(** The setup messages of a fetch, name and parameters, in the order
    [get_hist] sends them. *)
Definition setup_messages (self : client) (symbol interval : pystr)
           (n_bars : Z) (extended_session : bool)
  : list (pystr * list json) :=
  [ (py "set_auth_token", [token self]);
    (py "chart_create_session", [JStr (chart_session self); JStr []]);
    (py "quote_create_session", [JStr (session self)]);
    (py "quote_set_fields", JStr (session self) :: map JStr quote_fields);
    (py "quote_add_symbols",
     [JStr (session self); JStr symbol;
      JDict [(py "flags", JList [JStr (py "force_permission")])]]);
    (py "quote_fast_symbols", [JStr (session self); JStr symbol]);
    (py "resolve_symbol",
     [JStr (chart_session self); JStr (py "symbol_1");
      JStr (symbol_descriptor symbol extended_session)]);
    (py "create_series",
     [JStr (chart_session self); JStr (py "s1"); JStr (py "s1");
      JStr (py "symbol_1"); JStr interval; JInt n_bars]);
    (py "switch_timezone", [JStr (chart_session self); JStr (py "exchange")])
  ].

Definition setup_frames (self : client) (symbol interval : pystr)
           (n_bars : Z) (extended_session : bool) : list pystr :=
  map (fun m => create_message (fst m) (snd m))
      (setup_messages self symbol interval n_bars extended_session).

(** The nine names of the handshake. *)
Definition setup_names : list pystr :=
  [ py "set_auth_token"; py "chart_create_session";
    py "quote_create_session"; py "quote_set_fields";
    py "quote_add_symbols"; py "quote_fast_symbols"; py "resolve_symbol";
    py "create_series"; py "switch_timezone" ].

(** The messages of a list sent one after the other, then [k]. *)
Fixpoint send_then {A} (w : world) (self : client)
         (msgs : list (pystr * list json)) (k : M A) : M A :=
  match msgs with
  | [] => k
  | m :: msgs' =>
      send_message w self (fst m) (snd m) ;; send_then w self msgs' k
  end.

(** The text accumulated from the first [n] receives of a loop that starts
    at receive [k0] of the connection: every text received, a newline after
    each. *)
Fixpoint accumulated (w : world) (k0 n : nat) : pystr :=
  match n with
  | O => []
  | S n' =>
      accumulated w k0 n'
      ++ match ws_recv w (k0 + n') with
         | inr text => text ++ [newline]
         | inl _ => []
         end
  end.

(** Receive [n] of the loop ends it: it fails, or the text accumulated with
    it holds the marker. *)
Definition stops (w : world) (k0 n : nat) : bool :=
  match ws_recv w (k0 + n) with
  | inl _ => true
  | inr _ => contains series_completed (accumulated w k0 (S n))
  end.

(** The state after [n] more receives on the socket [c]. *)
Definition received (s : state) (c : socket) (n : nat) : state :=
  mkState (trace s ++ repeat Recv n)
          (Some (mkSocket (sent c) (rcvd c + n))) (rng s).

(** The state when the loop has ended with receive [n]: the exception of a
    receive that failed is logged. *)
Definition stopped (w : world) (s : state) (c : socket) (n : nat) : state :=
  match ws_recv w (rcvd c + n) with
  | inl e => log_event (received s c (S n)) [Log ERROR (Exc e)]
  | inr _ => received s c (S n)
  end.

Definition getting_data (symbol : pystr) : event :=
  Log DEBUG (Text (py "getting data for " ++ symbol ++ py "...")).

(** A computation is silent when it leaves the socket alone. *)
Definition silent {A} (c : M A) : Prop :=
  forall s, wire (fst (c s)) = wire s.

(** ** A sample instance of the parameters

    Decimal literals read as rationals, timestamps kept as they are, and a
    reader of flat JSON objects of strings: enough to run the client on
    concrete streams. *)

Module Sample.

(** The digits at the start of [s], their value after [acc], and the
    rest. *)
Fixpoint digits (s : pystr) (acc : Z) (n : nat) : Z * nat * pystr :=
  match s with
  | c :: s' =>
      if is_digit c then digits s' (10 * acc + Z.of_N (c - 48)) (S n)
      else (acc, n, s)
  | [] => (acc, n, s)
  end.

(** [float(s)] on literals [d+] and [d+.d+], with a sign or none. *)
Definition unsigned_float (s : pystr) : option Q :=
  match digits s 0 0 with
  | (_, O, _) => None
  | (i, _, []) => Some (inject_Z i)
  | (i, _, c :: s') =>
      if (c =? 46)%N then
        match digits s' 0 0 with
        | (_, O, _) => None
        | (f, k, []) =>
            Some (Qmake (i * Z.pow 10 (Z.of_nat k) + f)
                        (Z.to_pos (Z.pow 10 (Z.of_nat k))))
        | _ => None
        end
      else None
  end.

Definition float (s : pystr) : option Q :=
  match s with
  | c :: s' =>
      if (c =? 45)%N then option_map Qopp (unsigned_float s')
      else unsigned_float s
  | [] => None
  end.

Definition fromtimestamp (t : Q) : exn + Q := inr t.

Definition skip_spaces (s : pystr) : pystr :=
  match s with
  | c :: s' => if (c =? 32)%N then s' else s
  | [] => s
  end.

(** A string literal without escapes at the start of [s], and the rest. *)
Fixpoint string_body (s : pystr) : option (pystr * pystr) :=
  match s with
  | [] => None
  | c :: s' =>
      if (c =? dquote)%N then Some ([], s')
      else if (c =? 92)%N then None
      else option_map (fun r => (c :: fst r, snd r)) (string_body s')
  end.

Definition string_lit (s : pystr) : option (pystr * pystr) :=
  match s with
  | c :: s' => if (c =? dquote)%N then string_body s' else None
  | [] => None
  end.

(** The members [key: string] of an object, up to its closing brace. *)
Fixpoint members (fuel : nat) (s : pystr) : option (list (pystr * json)) :=
  match fuel with
  | O => None
  | S fuel' =>
      match string_lit s with
      | None => None
      | Some (k, r) =>
          match r with
          | c :: r' =>
              if (c =? 58)%N then
                match string_lit (skip_spaces r') with
                | None => None
                | Some (v, r2) =>
                    match r2 with
                    | [c2] =>
                        if (c2 =? 125)%N then Some [(k, JStr v)] else None
                    | c2 :: r3 =>
                        if (c2 =? 44)%N then
                          option_map (cons (k, JStr v))
                                     (members fuel' (skip_spaces r3))
                        else None
                    | [] => None
                    end
                end
              else None
          | [] => None
          end
      end
  end.

Definition loads (s : pystr) : option json :=
  match s with
  | c :: s' =>
      if (c =? 123)%N then option_map JDict (members (length s') s')
      else None
  | [] => None
  end.

Definition expanduser (path : pystr) : pystr := path.

End Sample.

(** ** The message filter and the symbol search *)

Module Lazy.

(** The rest of a lazy group [(.+?)] after its first character, followed by
    [closing]: the shortest run of characters other than the newline that
    [closing] follows. *)
Fixpoint until (closing s : pystr) : option pystr :=
  if startswith closing s then Some []
  else
    match s with
    | [] => None
    | c :: s' =>
        if (c =? newline)%N then None
        else option_map (cons c) (until closing s')
    end.

(** A pattern [opening(.+?)closing] of literals, matched at the start of
    [s]: the lazy group. *)
Definition match_at (opening closing s : pystr) : option pystr :=
  if startswith opening s then
    match skipn (length opening) s with
    | [] => None
    | c :: s' =>
        if (c =? newline)%N then None
        else option_map (cons c) (until closing s')
    end
  else None.

(** [re.search] for such a pattern: the lazy group of the leftmost match. *)
Fixpoint search (opening closing text : pystr) : option pystr :=
  match match_at opening closing text with
  | Some g => Some g
  | None =>
      match text with
      | [] => None
      | _ :: rest => search opening closing rest
      end
  end.

End Lazy.

Definition filter_error : event :=
  Log ERROR (Text (py "error in filter_raw_message")).

(** [__filter_raw_message]: the groups of ['"m":"(.+?)",'] and of
    ['"p":(.+?"}"])}'], the second one with the literal that closes it
    inside the group; [None] after the logged error when one of the two
    searches finds nothing. *)
Definition filter_raw_message (text : pystr) : M (option (pystr * pystr)) :=
  try_except
    (match Lazy.search (pyq "'m':'") (pyq "',") text with
     | None => raise AttributeError
     | Some found =>
         match Lazy.search (pyq "'p':") (pyq "'}']}") text with
         | None => raise AttributeError
         | Some g => ret (Some (found, g ++ pyq "'}']"))
         end
     end)
    is_AttributeError
    (fun _ =>
       emit (Log ERROR (Text (py "error in filter_raw_message"))) ;;
       ret None).

(** [s.replace(old, new)] for an [old] that is not empty; [skip] counts the
    characters of an occurrence just found that are still to be passed. *)
Fixpoint replace_from (old new : pystr) (skip : nat) (s : pystr) : pystr :=
  match s with
  | [] => []
  | c :: s' =>
      match skip with
      | S k => replace_from old new k s'
      | O =>
          if startswith old s
          then new ++ replace_from old new (length old - 1) s'
          else c :: replace_from old new 0 s'
      end
  end.

Definition replace (old new s : pystr) : pystr := replace_from old new 0 s.

(** [__search_url.format(text, exchange)] *)
Definition search_url (text exchange : pystr) : pystr :=
  py "https://symbol-search.tradingview.com/symbol_search/?text=" ++ text
  ++ py "&hl=1&exchange=" ++ exchange
  ++ py "&lang=en&type=&domain=production".

Section SymbolSearch.

(** [requests.get(url).text], or the exception of the request, and
    [json.loads]. *)
Variable http_get : pystr -> exn + pystr.
Variable json_loads : pystr -> option json.

(** [search_symbol]; the empty list is [JList []]. *)
Definition search_symbol (text exchange : pystr) : M json :=
  let url := search_url text exchange in
  try_except
    (match http_get url with
     | inl e => raise e
     | inr body =>
         match json_loads
                 (replace (py "<em>") [] (replace (py "</em>") [] body)) with
         | None => raise (ValueError (py "JSONDecodeError"))
         | Some symbols_list => ret symbols_list
         end
     end)
    except_Exception
    (fun e => emit (Log ERROR (Exc e)) ;; ret (JList [])).

End SymbolSearch.

(** ** What the further properties speak of *)

Section Further.

Variables (F DT : Type).
Variable zero : F.
Variable py_float : pystr -> option F.
Variable fromtimestamp : F -> exn + DT.
Variable json_loads : pystr -> option json.
Variable w : world.

(** The loop [for xi in x] with the flag it ends with. *)
Fixpoint records_run (x : list pystr) (volume_data : bool)
         (data : list (DT * list F)) : M (bool * list (DT * list F)) :=
  match x with
  | [] => ret (volume_data, data)
  | xi :: x' =>
      r <- record_step zero py_float fromtimestamp xi volume_data ;;
      records_run x' (fst r) (data ++ [snd r])
  end.

(** [r["user"]["auth_token"]] on a decoded response, when both keys are
    there. *)
Definition auth_token_of (r : json) : option json :=
  match r with
  | JDict d =>
      match Json.assoc (py "user") d with
      | Some (JDict d') => Json.assoc (py "auth_token") d'
      | _ => None
      end
  | _ => None
  end.

(** The token the sign-in gives for the credentials, when the request
    succeeds and the response decodes to an object that holds one. *)
Definition signin_token (username password : pystr) : option json :=
  match signin w username password with
  | inl _ => None
  | inr body =>
      match json_loads body with
      | Some r => auth_token_of r
      | None => None
      end
  end.

(** The volume of a row: its last float. *)
Definition row_volume (row : DT * list F) : F := nth 4 (snd row) zero.

(** What [_save_token] writes for a token. *)
Definition token_file (tok : json) : pystr :=
  Json.dumps (py ", ") (py ": ") (JDict [(py "token", tok)]).

End Further.

(** [text] holds [g], not empty and on one line, between the literals
    [opening] and [closing]. *)
Definition between (opening closing text g : pystr) : Prop :=
  exists pre post,
    text = pre ++ opening ++ g ++ closing ++ post
    /\ g <> [] /\ ~ In newline g.

(** The exceptions and the messages of the construction. *)
Definition no_credentials : exn :=
  ValueError (py "Must provide either token or username/password").

Definition login_failed : exn :=
  ValueError (py "Login failed, could not retrieve token").

Definition auth_failed (e : exn) : event :=
  Log ERROR (Fmt (py "password-auth failed: %s") e).

Definition save_failed (e : exn) : event :=
  Print (Fmt (py "Warning: Failed to save token - ") e).

Definition connecting : event :=
  Log DEBUG (Text (py "creating websocket connection")).

(** A character that [json.dumps] writes as it is. *)
Definition plain (c : char) : Prop :=
  (32 <= c <= 126)%N /\ c <> 34%N /\ c <> 92%N.

(** ** Sample streams and a sample world *)

Definition sample_stream : pystr :=
  pyq "~m~5~m~{'m':'timescale_update','p':['cs_x',{'s1':{'s':[{'i':0,'v':[1600000000.0,1.0,2.0,0.5,1.5,100.0]},{'i':1,'v':[1600086400.0,1.5,2.5,1.0,2.0,200.0]},{'i':2,'v':[1600172800.0,2.0,3.0,1.5,2.5]}],'ns':{}}}]}".

Definition sample_state : state := mkState [] None 0.

Definition sample_bar (t o h l c v : Q) : bar Q Q :=
  mkBar t (py "NSE:NIFTY") o h l c v.

Definition sample_error_stream : pystr :=
  pyq "~m~62~m~{'m':'symbol_error','p':['cs_x','NSE:NOSUCH','invalid symbol']}".

(** The open of the second bar is [null]; the third record has a volume. *)
Definition sample_null_stream : pystr :=
  pyq "~m~5~m~{'m':'timescale_update','p':['cs_x',{'s1':{'s':[{'i':0,'v':[1600000000.0,1.0,2.0,0.5,1.5,100.0]},{'i':1,'v':[1600086400.0,null,2.5,1.0,2.0,200.0]},{'i':2,'v':[1600172800.0,2.0,3.0,1.5,2.5,300.0]}],'ns':{}}}]}".

(** The cache file holds a token, the connection opens, every frame is
    sent; the first receive brings [sample_stream], the second one
    fails. *)

Definition sample_world : world :=
  mkWorld None (fun _ => None)
    (fun k => match k with
              | 0 => inr sample_stream
              | _ => inl (LibraryError (py "WebSocketTimeoutException"))
              end)
    (fun _ => true)
    (fun _ => inr (pyq "{'token': 'abc'}"))
    (fun _ _ => None)
    (fun _ _ => inl (LibraryError (py "ConnectionError")))
    (fun k => k).

Definition sample_connected : state :=
  mkState [Connect] (Some (mkSocket 9 0)) 24.

Definition sample_client : client :=
  mkClient false (py "~/.tv_token.json") (JStr (py "abc"))
           (py "qs_abcdefghijkl") (py "cs_mnopqrstuvwx").

(** Further sample streams: a record of three numbers, and a timestamp
    that is [null]. *)
Definition sample_short_stream : pystr :=
  pyq "~m~5~m~{'m':'timescale_update','p':['cs_x',{'s1':{'s':[{'i':0,'v':[1600000000.0,1.0,2.0]}],'ns':{}}}]}".

Definition sample_bad_time_stream : pystr :=
  pyq "~m~5~m~{'m':'timescale_update','p':['cs_x',{'s1':{'s':[{'i':0,'v':[null,1.0,2.0,0.5,1.5,100.0]}],'ns':{}}}]}".

Definition sample_bars : list (bar Q Q) :=
  [ sample_bar 1600000000.0 1.0 2.0 0.5 1.5 100.0;
    sample_bar 1600086400.0 1.5 2.5 1.0 2.0 200.0;
    sample_bar 1600172800.0 2.0 3.0 1.5 2.5 0 ].

(** Further sample worlds: a cache file with an empty token; no cache file
    and a sign-in that fails; no cache file, a sign-in that gives a token
    and a cache file that cannot be written. *)
Definition sample_empty_token_world : world :=
  mkWorld None (fun _ => None) (fun _ => inl (LibraryError (py "closed")))
    (fun _ => true)
    (fun _ => inr (pyq "{'token': ''}"))
    (fun _ _ => None)
    (fun _ _ => inl (LibraryError (py "ConnectionError")))
    (fun k => k).

Definition sample_fresh_world : world :=
  mkWorld None (fun _ => None) (fun _ => inl (LibraryError (py "closed")))
    (fun _ => false)
    (fun _ => inl (LibraryError (py "FileNotFoundError")))
    (fun _ _ => None)
    (fun _ _ => inl (LibraryError (py "ConnectionError")))
    (fun k => k).

Definition sample_signin_body : pystr :=
  pyq "{'user': {'auth_token': 'tok'}}".

Definition sample_login_world : world :=
  mkWorld None (fun _ => None) (fun _ => inl (LibraryError (py "closed")))
    (fun _ => false)
    (fun _ => inl (LibraryError (py "FileNotFoundError")))
    (fun _ _ => Some (LibraryError (py "PermissionError")))
    (fun _ _ => inr sample_signin_body)
    (fun k => k).

(** A reader that knows the answer of the sample sign-in besides the flat
    objects. *)
Definition sample_loads (text : pystr) : option json :=
  if PyStr.eqb text sample_signin_body
  then Some (JDict [(py "user", JDict [(py "auth_token", JStr (py "tok"))])])
  else Sample.loads text.

(** * Properties *)

(** ** The monad *)

Lemma bind_returned {A B} (c : M A) (k : A -> M B) (s s' : state) (a : A) :
  c s = (s', Returned a) -> bind c k s = k a s'.
Proof. intros H. unfold bind. now rewrite H. Qed.

Lemma bind_raised {A B} (c : M A) (k : A -> M B) (s s' : state) (e : exn) :
  c s = (s', Raised e) -> bind c k s = (s', Raised e).
Proof. intros H. unfold bind. now rewrite H. Qed.

Lemma bind_out_of_fuel {A B} (c : M A) (k : A -> M B) (s s' : state) :
  c s = (s', OutOfFuel) -> bind c k s = (s', OutOfFuel).
Proof. intros H. unfold bind. now rewrite H. Qed.

Lemma log_event_nil (s : state) : log_event s [] = s.
Proof. destruct s. unfold log_event. cbn. now rewrite app_nil_r. Qed.

Lemma log_event_app (s : state) (a b : list event) :
  log_event (log_event s a) b = log_event s (a ++ b).
Proof. unfold log_event. cbn. now rewrite app_assoc. Qed.

Lemma emit_log (ev : event) (s : state) :
  emit ev s = (log_event s [ev], Returned tt).
Proof. reflexivity. Qed.

(** ** Strings *)

Lemma N_of_ascii_lt_256 (a : ascii) : (N_of_ascii a < 256)%N.
Proof.
  destruct a as [[] [] [] [] [] [] [] []]; vm_compute; reflexivity.
Qed.

Lemma unpy_py (s : string) : unpy (py s) = s.
Proof.
  unfold unpy, py. rewrite map_map.
  rewrite (map_ext _ (fun a => a)) by apply ascii_N_embedding.
  rewrite map_id. apply string_of_list_ascii_of_string.
Qed.

Lemma py_app (a b : string) : py (a ++ b)%string = py a ++ py b.
Proof.
  unfold py. induction a as [|c a IH]; simpl; [reflexivity|].
  now rewrite IH.
Qed.

Lemma eqb_eq (a b : pystr) : PyStr.eqb a b = true <-> a = b.
Proof.
  revert b. induction a as [|x a IH]; intros [|y b]; simpl;
    try (split; [discriminate | discriminate]); [tauto|].
  rewrite andb_true_iff, N.eqb_eq, IH. split.
  - intros [-> ->]; reflexivity.
  - intros H; injection H; auto.
Qed.

Lemma startswith_app (p s : pystr) : startswith p (p ++ s) = true.
Proof.
  induction p as [|x p IH]; simpl; [reflexivity|].
  now rewrite N.eqb_refl.
Qed.

Lemma startswith_iff (p s : pystr) :
  startswith p s = true <-> exists t, s = p ++ t.
Proof.
  revert s. induction p as [|x p IH]; intros s; simpl.
  - split; [intros _; now exists s | reflexivity].
  - destruct s as [|y s].
    + split; [discriminate | intros [t H]; discriminate].
    + rewrite andb_true_iff, N.eqb_eq, IH. split.
      * intros [-> [t ->]]. now exists t.
      * intros [t H]. injection H as -> ->. split; [reflexivity | now exists t].
Qed.

(** [p in s] is the substring relation. *)
Lemma contains_iff (p s : pystr) :
  contains p s = true <-> exists a b, s = a ++ p ++ b.
Proof.
  induction s as [|c s IH]; simpl.
  - rewrite orb_false_r, startswith_iff. split.
    + intros [t H]. now exists [], t.
    + intros [a [b H]]. destruct a; [now exists b|discriminate].
  - rewrite orb_true_iff, IH, startswith_iff. split.
    + intros [[t H] | [a [b H]]].
      * now exists [], t.
      * exists (c :: a), b. now rewrite H.
    + intros [[|x a] [b H]].
      * left. now exists b.
      * right. injection H as _ H. now exists a, b.
Qed.

Lemma has_char_iff (c : char) (s : pystr) :
  has_char c s = true <-> In c s.
Proof.
  unfold has_char. rewrite existsb_exists. split.
  - intros [x [Hin Heq]]. apply N.eqb_eq in Heq. now subst.
  - intros H. exists c. split; [assumption | apply N.eqb_refl].
Qed.

Lemma has_char_app (c : char) (a b : pystr) :
  has_char c (a ++ b) = has_char c a || has_char c b.
Proof. unfold has_char. apply existsb_app. Qed.

Lemma utf8_length_ascii (s : pystr) :
  is_ascii s -> utf8_length s = length s.
Proof.
  unfold utf8_length. induction 1 as [|c s Hc _ IH]; [reflexivity|].
  unfold list_sum in *. cbn [map fold_right length]. rewrite IH.
  unfold utf8_width.
  apply N.ltb_lt in Hc. now rewrite Hc.
Qed.

Lemma nat_of_str_of_nat (n : nat) : nat_of_str (str_of_nat n) = Some n.
Proof.
  unfold nat_of_str, str_of_nat.
  destruct (py _) eqn:E.
  - exfalso. apply (f_equal unpy) in E. rewrite unpy_py in E.
    apply (f_equal NilEmpty.uint_of_string) in E.
    rewrite NilEmpty.usu in E. injection E as E.
    pose proof (DecimalNat.Unsigned.of_to n) as Hn. rewrite E in Hn.
    simpl in Hn. subst n. discriminate E.
  - rewrite <- E, unpy_py, NilEmpty.usu. simpl.
    now rewrite DecimalNat.Unsigned.of_to.
Qed.

Lemma Z_of_str_of_Z (z : Z) : Z_of_str (str_of_Z z) = Some z.
Proof.
  unfold Z_of_str, str_of_Z. rewrite unpy_py, NilEmpty.isi. simpl.
  now rewrite DecimalZ.of_to.
Qed.

(** ** The JSON encoder *)

Section json_induction.

Variable P : json -> Prop.
Hypothesis HNull : P JNull.
Hypothesis HBool : forall b, P (JBool b).
Hypothesis HInt : forall z, P (JInt z).
Hypothesis HStr : forall s, P (JStr s).
Hypothesis HList : forall l, Forall P l -> P (JList l).
Hypothesis HDict : forall d, Forall (fun kv => P (snd kv)) d -> P (JDict d).

Fixpoint json_nested_ind (v : json) : P v :=
  match v with
  | JNull => HNull
  | JBool b => HBool b
  | JInt z => HInt z
  | JStr s => HStr s
  | JList l =>
      HList ((fix all (l : list json) : Forall P l :=
                match l with
                | [] => Forall_nil _
                | x :: t => Forall_cons x (json_nested_ind x) (all t)
                end) l)
  | JDict d =>
      HDict ((fix all (d : list (pystr * json))
                : Forall (fun kv => P (snd kv)) d :=
                match d with
                | [] => Forall_nil _
                | kv :: t => Forall_cons kv (json_nested_ind (snd kv)) (all t)
                end) d)
  end.

End json_induction.

Lemma clean_weaken (A B : Prop) (c : char) :
  (A -> B) -> clean A c -> clean B c.
Proof. unfold clean. tauto. Qed.

Lemma clean_literal (A : Prop) (c : char) :
  (33 <= c <= 126)%N -> clean A c.
Proof. unfold clean. intros H. split; [lia | intros ->; lia]. Qed.

Lemma hexdigit_range (d : N) :
  (d < 16)%N -> (33 <= Json.hexdigit d <= 126)%N.
Proof.
  intros H. unfold Json.hexdigit. destruct (N.ltb_spec d 10); lia.
Qed.

Ltac each_char :=
  repeat (apply Forall_cons; [ | ]); try apply Forall_nil.

Lemma u_escape_clean (A : Prop) (n : N) : Forall (clean A) (Json.u_escape n).
Proof.
  unfold Json.u_escape. cbn [py list_ascii_of_string map app].
  each_char; apply clean_literal;
    try (apply hexdigit_range; apply N.mod_lt; discriminate);
    vm_compute; split; discriminate.
Qed.

Lemma escape_char_clean (c : char) :
  Forall (clean (c = 32%N)) (Json.escape_char c).
Proof.
  unfold Json.escape_char.
  repeat match goal with
  | |- context [(c =? ?k)%N] =>
      destruct (N.eqb_spec c k);
      [ each_char; apply clean_literal; vm_compute; split; discriminate | ]
  end.
  destruct ((32 <=? c)%N && (c <=? 126)%N) eqn:H.
  - apply andb_true_iff in H. destruct H as [H1 H2].
    apply N.leb_le in H1, H2. each_char. split; [lia | auto].
  - destruct (c <? 65536)%N; [apply u_escape_clean |].
    apply Forall_app. split; apply u_escape_clean.
Qed.

Lemma encode_basestring_clean (s : pystr) :
  Forall (clean (In 32%N s)) (Json.encode_basestring_ascii s).
Proof.
  unfold Json.encode_basestring_ascii.
  apply Forall_app. split; [| apply Forall_app; split].
  - each_char. apply clean_literal. vm_compute. split; discriminate.
  - induction s as [|c s IH]; simpl; [constructor|].
    apply Forall_app. split.
    + eapply Forall_impl; [| apply escape_char_clean].
      intros a. apply clean_weaken. intros ->. now left.
    + eapply Forall_impl; [| apply IH].
      intros a. apply clean_weaken. now right.
  - each_char. apply clean_literal. vm_compute. split; discriminate.
Qed.

Lemma string_of_uint_digits (A : Prop) (d : Decimal.uint) :
  Forall (clean A) (py (NilEmpty.string_of_uint d)).
Proof.
  induction d; cbn [NilEmpty.string_of_uint py list_ascii_of_string map];
    [constructor | ..];
    (apply Forall_cons;
     [apply clean_literal; vm_compute; split; discriminate | exact IHd]).
Qed.

Lemma str_of_nat_clean (A : Prop) (n : nat) : Forall (clean A) (str_of_nat n).
Proof. apply string_of_uint_digits. Qed.

Lemma str_of_Z_clean (A : Prop) (z : Z) : Forall (clean A) (str_of_Z z).
Proof.
  unfold str_of_Z. destruct (Z.to_int z) as [d|d];
    cbn [NilEmpty.string_of_int py list_ascii_of_string map].
  - apply string_of_uint_digits.
  - apply Forall_cons;
      [apply clean_literal; vm_compute; split; discriminate
      | apply string_of_uint_digits].
Qed.

Lemma join_Forall (P : char -> Prop) (sep : pystr) (parts : list pystr) :
  Forall P sep -> Forall (Forall P) parts -> Forall P (join sep parts).
Proof.
  intros Hsep. induction 1 as [|p rest Hp Hrest IH]; [constructor|].
  cbn [join]. destruct rest as [|q rest]; [assumption|].
  apply Forall_app. split; [assumption|].
  apply Forall_app. split; assumption.
Qed.

(** The compact encoding holds printable ASCII characters only, and a space
    only out of a string of the value. *)
Lemma dumps_clean (v : json) :
  Forall (clean (exists s, In s (json_strings v) /\ In 32%N s))
         (Json.dumps (py ",") (py ":") v).
Proof.
  assert (Hlit : forall (A : Prop) (t : string),
             forallb (fun c => (33 <=? c) && (c <=? 126))%N (py t) = true ->
             Forall (clean A) (py t)).
  { intros A t H. rewrite forallb_forall in H. apply Forall_forall.
    intros c Hc. apply clean_literal. specialize (H c Hc).
    apply andb_true_iff in H. destruct H as [H1 H2].
    apply N.leb_le in H1, H2. lia. }
  induction v as [ | b | z | s | l IH | d IH ] using json_nested_ind;
    cbn [Json.dumps json_strings].
  - now apply Hlit.
  - destruct b; now apply Hlit.
  - apply str_of_Z_clean.
  - eapply Forall_impl; [| apply encode_basestring_clean].
    intros a. apply clean_weaken. intros H. exists s. split; [now left | assumption].
  - apply Forall_app. split; [now apply Hlit|].
    apply Forall_app. split; [| now apply Hlit].
    apply join_Forall; [now apply Hlit|].
    induction IH as [|x l Hx _ IHl]; [constructor|].
    cbn [map flat_map]. constructor.
    + eapply Forall_impl; [| apply Hx].
      intros a. apply clean_weaken. intros [s [Hs H32]].
      exists s. split; [apply in_or_app; now left | assumption].
    + eapply Forall_impl; [| apply IHl].
      intros a. apply Forall_impl. intros b. apply clean_weaken.
      intros [s [Hs H32]].
      exists s. split; [apply in_or_app; now right | assumption].
  - apply Forall_app. split; [now apply Hlit|].
    apply Forall_app. split; [| now apply Hlit].
    apply join_Forall; [now apply Hlit|].
    induction IH as [|[k x] d Hx _ IHd]; [constructor|].
    cbn [map flat_map fst snd] in *. constructor.
    + apply Forall_app. split; [| apply Forall_app; split].
      * eapply Forall_impl; [| apply encode_basestring_clean].
        intros a. apply clean_weaken. intros H.
        exists k. split; [now left | assumption].
      * now apply Hlit.
      * eapply Forall_impl; [| apply Hx].
        intros a. apply clean_weaken. intros [s [Hs H32]].
        exists s. split; [right; apply in_or_app; now left | assumption].
    + eapply Forall_impl; [| apply IHd].
      intros a. apply Forall_impl. intros b. apply clean_weaken.
      intros [s [Hs H32]].
      exists s. split; [right; apply in_or_app; now right | assumption].
Qed.

Lemma clean_is_ascii (A : Prop) (s : pystr) : Forall (clean A) s -> is_ascii s.
Proof.
  apply Forall_impl. intros c [H _]. lia.
Qed.

(** ** The frame codec *)

Lemma string_of_uint_is_digit (d : Decimal.uint) :
  forallb is_digit (py (NilEmpty.string_of_uint d)) = true.
Proof.
  induction d; cbn [NilEmpty.string_of_uint py list_ascii_of_string map forallb];
    [reflexivity | ..]; exact IHd.
Qed.

Lemma take_digits_app (d r : pystr) :
  forallb is_digit d = true ->
  match r with [] => True | c :: _ => is_digit c = false end ->
  take_digits (d ++ r) = (d, r).
Proof.
  intros Hd Hr. induction d as [|c d IH]; cbn [app take_digits].
  - destruct r as [|c r]; cbn [take_digits]; [reflexivity | now rewrite Hr].
  - cbn [forallb] in Hd. apply andb_true_iff in Hd. destruct Hd as [Hc Hd].
    now rewrite Hc, (IH Hd).
Qed.

Lemma read_header_prepend (st : pystr) :
  read_header (prepend_header st) = Some (length st, st).
Proof.
  unfold read_header, prepend_header.
  rewrite startswith_app.
  change (skipn 3 (py "~m~" ++ ?x)) with x.
  rewrite take_digits_app;
    [ | apply string_of_uint_is_digit | reflexivity ].
  rewrite startswith_app, nat_of_str_of_nat. reflexivity.
Qed.

(** Two frames, as the client writes them. *)
Example create_message_set_auth_token :
  create_message (py "set_auth_token") [JStr (py "abc" ++ [233; 128512]%N)]
  = pyq "~m~52~m~{'m':'set_auth_token','p':['abc\u00e9\ud83d\ude00']}".
Proof. vm_compute. reflexivity. Qed.

Example create_message_create_series :
  create_message (py "create_series")
    [JStr (py "cs_abcdefghijkl"); JStr (py "s1"); JStr (py "s1");
     JStr (py "symbol_1"); JStr (py "1D"); JInt 10]
  = pyq "~m~74~m~{'m':'create_series','p':['cs_abcdefghijkl','s1','s1','symbol_1','1D',10]}".
Proof. vm_compute. reflexivity. Qed.

(** C3: the frame of a message is the header [~m~<length>~m~] followed by
    the compact JSON payload, keys [m] then [p]; the payload holds printable
    ASCII characters only, with no white space but the spaces of the strings
    of the message, so the length the header declares, read back from the
    frame, is the number of bytes of the payload, whatever characters the
    name and the parameters hold. *)
Theorem create_message_frame (func : pystr) (param_list : list json) :
  let payload := construct_message func param_list in
  create_message func param_list
    = py "~m~" ++ str_of_nat (length payload) ++ py "~m~" ++ payload
  /\ payload
     = pyq "{'m':" ++ Json.dumps (py ",") (py ":") (JStr func)
       ++ pyq ",'p':" ++ Json.dumps (py ",") (py ":") (JList param_list)
       ++ py "}"
  /\ read_header (create_message func param_list)
     = Some (utf8_length payload, payload)
  /\ (forall c, In c payload -> (32 <= c <= 126)%N)
  /\ (In 32%N payload ->
      exists s, In s (func :: flat_map json_strings param_list) /\ In 32%N s).
Proof.
  intros payload.
  assert (Hclean := dumps_clean
            (JDict [(py "m", JStr func); (py "p", JList param_list)])).
  fold (construct_message func param_list) in Hclean. fold payload in Hclean.
  rewrite Forall_forall in Hclean.
  split; [reflexivity|]. split; [|split; [|split]].
  - unfold payload, construct_message.
    cbn [Json.dumps map join fst snd]. unfold Json.encode_basestring_ascii.
    cbn [py pyq list_ascii_of_string map flat_map Json.escape_char app].
    repeat (rewrite <- app_assoc; cbn [app]). reflexivity.
  - unfold create_message. fold payload. rewrite read_header_prepend.
    rewrite utf8_length_ascii; [reflexivity|].
    apply Forall_forall. intros c Hc. destruct (Hclean c Hc) as [H _]. lia.
  - intros c Hc. apply (Hclean c Hc).
  - intros H. destruct (Hclean _ H) as [_ Hs].
    destruct (Hs eq_refl) as [s [Hin H32]].
    cbn [json_strings flat_map fst snd app] in Hin.
    destruct Hin as [Hin | [Hin | [Hin | Hin]]].
    + subst s. vm_compute in H32. repeat destruct H32 as [H32 | H32];
        try discriminate; contradiction.
    + subst s. exists func. split; [now left | assumption].
    + subst s. vm_compute in H32. repeat destruct H32 as [H32 | H32];
        try discriminate; contradiction.
    + rewrite app_nil_r in Hin. exists s. split; [now right | assumption].
Qed.

(** ** Symbol formatting *)

Lemma format_symbol_has_colon (symbol exchange : pystr) (contract : contract_arg)
      (formatted : pystr) :
  format_symbol symbol exchange contract = Returned formatted ->
  has_char 58%N formatted = true.
Proof.
  unfold format_symbol. destruct (has_char 58%N symbol) eqn:E.
  - intros H. injection H as <-. exact E.
  - destruct contract; intros H; try discriminate; injection H as <-;
      rewrite !has_char_app; cbn; now rewrite orb_true_r.
Qed.

(** C6: a symbol that holds a [:] is returned as it is, whatever the
    exchange; what formatting returns holds a [:], so formatting a formatted
    symbol again, with any exchange, returns it unchanged. *)
Theorem format_symbol_qualified (symbol : pystr) :
  (has_char 58%N symbol = true ->
   forall exchange contract,
     format_symbol symbol exchange contract = Returned symbol)
  /\ (forall exchange contract formatted,
        format_symbol symbol exchange contract = Returned formatted ->
        forall exchange' contract',
          format_symbol formatted exchange' contract' = Returned formatted).
Proof.
  assert (H : forall s, has_char 58%N s = true ->
                        forall e c, format_symbol s e c = Returned s).
  { intros s Hs e c. unfold format_symbol. now rewrite Hs. }
  split; [apply H|].
  intros exchange contract formatted Hf exchange' contract'.
  apply H. eapply format_symbol_has_colon, Hf.
Qed.

(** C7: a symbol without [:] and an integer contract [n] format to the
    exchange, [:], the symbol, the decimal literal of [n] (the one [int]
    reads back as [n]) and [!]; [NIFTY] on
    [NSE] with contract 1 formats to [NSE:NIFTY1!]. *)
Theorem format_symbol_futures (symbol exchange : pystr) (n : Z) :
  has_char 58%N symbol = false ->
  format_symbol symbol exchange (CInt n)
    = Returned (exchange ++ py ":" ++ symbol ++ str_of_Z n ++ py "!")
  /\ Z_of_str (str_of_Z n) = Some n
  /\ format_symbol (py "NIFTY") (py "NSE") (CInt 1)
     = Returned (py "NSE:NIFTY1!").
Proof.
  intros H. unfold format_symbol at 1. rewrite H.
  split; [reflexivity|]. split; [apply Z_of_str_of_Z | reflexivity].
Qed.

Lemma format_symbol_futures_witness :
  has_char 58%N (py "NIFTY") = false
  /\ format_symbol (py "NIFTY") (py "NSE") (CInt 1)
     = Returned (py "NSE:NIFTY1!").
Proof.
  split; [reflexivity|].
  exact (proj2 (proj2
    (@format_symbol_futures (py "NIFTY") (py "NSE") 1 eq_refl))).
Defined.

(** C9: on a symbol that holds a [:] the contract is not looked at: any
    contract, an object that is no integer included, gives the symbol back
    with nothing appended, as no contract at all does, and nothing is
    raised. *)
Theorem format_symbol_ignores_contract
        (symbol exchange : pystr) (contract : contract_arg) :
  has_char 58%N symbol = true ->
  format_symbol symbol exchange contract = Returned symbol
  /\ format_symbol symbol exchange contract
     = format_symbol symbol exchange CNone
  /\ format_symbol symbol exchange COther = Returned symbol.
Proof.
  intros H. unfold format_symbol. rewrite H. repeat split.
Qed.

Lemma format_symbol_ignores_contract_witness :
  format_symbol (py "NSE:NIFTY") (py "MCX") (CInt 7)
    = Returned (py "NSE:NIFTY")
  /\ format_symbol (py "NSE:NIFTY") (py "MCX") COther
     = Returned (py "NSE:NIFTY").
Proof.
  pose proof (@format_symbol_ignores_contract
                (py "NSE:NIFTY") (py "MCX") (CInt 7) eq_refl) as H.
  split; [exact (proj1 H) | exact (proj2 (proj2 H))].
Defined.

(** ** The splits *)

Lemma split_from_not_nil (sep : pystr) (skip : nat) (s : pystr) :
  Re.split_from sep skip s <> [].
Proof.
  revert skip. induction s as [|c s IH]; intros skip; cbn [Re.split_from].
  - discriminate.
  - destruct skip as [|k]; [|apply IH].
    destruct (startswith sep (c :: s)); [discriminate|].
    specialize (IH 0). unfold Re.push.
    destruct (Re.split_from sep 0 s); [congruence | discriminate].
Qed.

Lemma join_push (sep : pystr) (c : char) (pieces : list pystr) :
  pieces <> [] -> join sep (Re.push c pieces) = c :: join sep pieces.
Proof.
  destruct pieces as [|p [|q ps]]; [congruence | reflexivity..].
Qed.

Lemma join_cons (sep p : pystr) (pieces : list pystr) :
  pieces <> [] -> join sep (p :: pieces) = p ++ sep ++ join sep pieces.
Proof. destruct pieces; [congruence | reflexivity]. Qed.

(** The pieces of a split, joined by the separator, are the string that
    was split. *)
Lemma join_split_from (sep : pystr) (s : pystr) :
  sep <> [] ->
  forall skip, join sep (Re.split_from sep skip s) = skipn skip s.
Proof.
  intros Hsep. induction s as [|c s IH]; intros skip; cbn [Re.split_from].
  - now destruct skip.
  - destruct skip as [|k]; [|apply IH].
    destruct (startswith sep (c :: s)) eqn:E.
    + rewrite join_cons by apply split_from_not_nil. rewrite IH.
      apply startswith_iff in E. destruct E as [t E].
      destruct sep as [|a sep]; [congruence|].
      injection E as -> ->. cbn [length app skipn Nat.sub].
      rewrite Nat.sub_0_r, skipn_app, skipn_all, Nat.sub_diag. reflexivity.
    + rewrite join_push by apply split_from_not_nil. now rewrite IH.
Qed.

Lemma join_split (sep s : pystr) :
  sep <> [] -> join sep (Re.split sep s) = s.
Proof. intros H. apply (join_split_from s H 0). Qed.

(** The tokens of a record are one more than its separators, and they are
    the record without its separators. *)
Lemma split_fields_tokens (xi : pystr) :
  length (Re.split_fields xi) = S (length (filter Re.is_delim xi))
  /\ concat (Re.split_fields xi) = filter (fun c => negb (Re.is_delim c)) xi.
Proof.
  induction xi as [|c xi [IH1 IH2]]; [now split|].
  cbn [Re.split_fields filter]. destruct (Re.is_delim c); cbn [negb].
  - cbn [length concat app]. now rewrite IH1, IH2.
  - destruct (Re.split_fields xi) as [|tok toks]; [discriminate|].
    cbn [Re.push length concat] in *. split; [assumption|].
    cbn [app]. now rewrite <- IH2.
Qed.

(** ** The search of the series block *)

Lemma lazy_until_close_sound (s g : pystr) :
  Re.lazy_until_close s = Some g ->
  (exists post, s = g ++ py "}]" ++ post) /\ ~ In newline g.
Proof.
  revert g. induction s as [|c s IH]; intros g; cbn [Re.lazy_until_close].
  - cbn. discriminate.
  - destruct (startswith (py "}]") (c :: s)) eqn:E.
    + intros H. injection H as <-. apply startswith_iff in E.
      destruct E as [t E]. split; [now exists t | intros []].
    + destruct (N.eqb_spec c newline) as [|Hc]; [discriminate|].
      destruct (Re.lazy_until_close s) as [g'|]; [|discriminate].
      cbn [option_map]. intros H. injection H as <-.
      destruct (IH g' eq_refl) as [[post Hs] Hn]. split.
      * exists post. now rewrite Hs.
      * intros [H | H]; [now apply Hc | now apply Hn].
Qed.

Lemma lazy_until_close_complete (g post : pystr) :
  ~ In newline g -> Re.lazy_until_close (g ++ py "}]" ++ post) <> None.
Proof.
  induction g as [|c g IH]; intros Hn.
  - cbn. discriminate.
  - cbn [app Re.lazy_until_close].
    destruct (startswith _ _); [discriminate|].
    destruct (N.eqb_spec c newline) as [Hc|Hc].
    + exfalso. apply Hn. now left.
    + specialize (IH (fun H => Hn (or_intror H))).
      destruct (Re.lazy_until_close _); [discriminate | congruence].
Qed.

Lemma match_series_at_sound (s g : pystr) :
  Re.match_series_at s = Some g ->
  (exists post, s = pyq "'s':[" ++ g ++ py "}]" ++ post)
  /\ g <> [] /\ ~ In newline g.
Proof.
  unfold Re.match_series_at.
  destruct (startswith _ s) eqn:E; [|discriminate].
  apply startswith_iff in E. destruct E as [t ->].
  change (skipn 5 (pyq "'s':[" ++ t)) with t.
  destruct t as [|c t]; [discriminate|].
  destruct (N.eqb_spec c newline) as [|Hc]; [discriminate|].
  destruct (Re.lazy_until_close t) as [g'|] eqn:El; [|discriminate].
  cbn [option_map]. intros H. injection H as <-.
  destruct (lazy_until_close_sound _ El) as [[post Ht] Hn].
  split; [|split].
  - exists post. now rewrite Ht.
  - discriminate.
  - intros [H | H]; [now apply Hc | now apply Hn].
Qed.

Lemma match_series_at_complete (g post : pystr) :
  g <> [] -> ~ In newline g ->
  Re.match_series_at (pyq "'s':[" ++ g ++ py "}]" ++ post) <> None.
Proof.
  intros Hg Hn. unfold Re.match_series_at. rewrite startswith_app.
  change (skipn 5 (pyq "'s':[" ++ ?t)) with t.
  destruct g as [|c g]; [congruence|]. cbn [app].
  destruct (N.eqb_spec c newline) as [Hc|Hc].
  - exfalso. apply Hn. now left.
  - pose proof (@lazy_until_close_complete g post
                  (fun H => Hn (or_intror H))) as Hl.
    destruct (Re.lazy_until_close _); [discriminate | congruence].
Qed.

(** The search finds a series block of the stream, and finds one whenever
    the stream holds one. *)
Lemma search_series_sound (raw_data g : pystr) :
  Re.search_series raw_data = Some g -> series_block raw_data g.
Proof.
  induction raw_data as [|c raw IH]; cbn [Re.search_series].
  - destruct (Re.match_series_at []) eqn:E; [|discriminate].
    intros H. injection H as <-. apply match_series_at_sound in E.
    destruct E as [[post E'] [Hg Hn]]. now exists [], post.
  - destruct (Re.match_series_at (c :: raw)) eqn:E.
    + intros H. injection H as <-. apply match_series_at_sound in E.
      destruct E as [[post E'] [Hg Hn]]. now exists [], post.
    + intros H. destruct (IH H) as [pre [post [E' [Hg Hn]]]].
      exists (c :: pre), post. now rewrite E'.
Qed.

Lemma search_series_complete (raw_data g : pystr) :
  series_block raw_data g -> Re.search_series raw_data <> None.
Proof.
  intros [pre [post [-> [Hg Hn]]]].
  induction pre as [|c pre IH].
  - cbn [app]. pose proof (match_series_at_complete post Hg Hn) as H.
    destruct (pyq "'s':[" ++ g ++ py "}]" ++ post) as [|x t] eqn:E;
      cbn [Re.search_series];
      destruct (Re.match_series_at _); congruence.
  - cbn [app Re.search_series].
    destruct (Re.match_series_at _); [discriminate | exact IH].
Qed.

Lemma search_series_None_iff (raw_data : pystr) :
  Re.search_series raw_data = None <-> forall g, ~ series_block raw_data g.
Proof.
  split.
  - intros H g Hg. now apply (search_series_complete Hg).
  - intros H. destruct (Re.search_series raw_data) as [g|] eqn:E;
      [|reflexivity].
    exfalso. apply (H g). now apply search_series_sound.
Qed.

(** A stream without the marker holds no series block. *)
Lemma no_marker_no_series_block (raw_data : pystr) :
  contains (pyq "'s':[") raw_data = false ->
  forall g, ~ series_block raw_data g.
Proof.
  intros H g [pre [post [E _]]].
  assert (C : contains (pyq "'s':[") raw_data = true).
  { apply contains_iff. exists pre, (g ++ py "}]" ++ post). exact E. }
  congruence.
Qed.

(** ** The bar parser *)

Section BarParserProperties.

Variables (F DT : Type).
Variable zero : F.
Variable py_float : pystr -> option F.
Variable fromtimestamp : F -> exn + DT.

Local Abbreviation create_df := (create_df zero py_float fromtimestamp).
Local Abbreviation field_step := (field_step zero py_float).
Local Abbreviation fields_loop := (fields_loop zero py_float).
Local Abbreviation record_step := (record_step zero py_float fromtimestamp).
Local Abbreviation records_loop :=
  (records_loop zero py_float fromtimestamp).
Local Abbreviation number := (number py_float).
Local Abbreviation lenient := (lenient zero py_float).
Local Abbreviation refusal := (refusal py_float).
Local Abbreviation accepted := (accepted py_float).
Local Abbreviation timestamp := (timestamp py_float fromtimestamp).
Local Abbreviation full_bar := (full_bar py_float fromtimestamp).
Local Abbreviation volumeless_bar :=
  (volumeless_bar zero py_float fromtimestamp).

Lemma number_token (r : pystr) (i : nat) (v : F) :
  number r i = Some v ->
  exists tok, nth_error (Re.split_fields r) i = Some tok
              /\ py_float tok = Some v.
Proof.
  unfold number, token_at.
  destruct (nth_error _ i) as [tok|]; [|discriminate].
  intros H. now exists tok.
Qed.

Lemma timestamp_number (r : pystr) (d : DT) :
  timestamp r = Some d ->
  exists t, number r 4 = Some t /\ fromtimestamp t = inr d.
Proof.
  unfold timestamp. destruct (number r 4) as [t|]; [|discriminate].
  destruct (fromtimestamp t) as [e|d'] eqn:E; [discriminate|].
  intros H. injection H as <-. now exists t.
Qed.

Lemma field_step_lenient (r : pystr) (i : nat) (vd : bool) (row : list F)
      (s : state) :
  i <> 9 -> i < length (Re.split_fields r) ->
  field_step (Re.split_fields r) i (vd, row) s
  = (log_event s (refusal r i),
     Returned (vd && accepted r i, row ++ [lenient r i])).
Proof.
  intros Hi Hlen. unfold field_step.
  apply Nat.eqb_neq in Hi. rewrite Hi, andb_false_r.
  unfold refusal, accepted, lenient, number, token_at.
  unfold try_except, bind, float_at.
  destruct (nth_error _ i) as [tok|] eqn:E.
  - destruct (py_float tok) as [v|]; cbn.
    + now rewrite log_event_nil, andb_true_r.
    + now rewrite andb_false_r.
  - apply nth_error_None in E. lia.
Qed.

Lemma field_step_skipped (xi : list pystr) (row : list F) (s : state) :
  field_step xi 9 (false, row) s = (s, Returned (false, row ++ [zero])).
Proof. reflexivity. Qed.

Lemma field_step_volume (r : pystr) (row : list F) (s : state) (v : F) :
  number r 9 = Some v ->
  field_step (Re.split_fields r) 9 (true, row) s
  = (s, Returned (true, row ++ [v])).
Proof.
  intros H. destruct (number_token _ _ H) as [tok [Ht Hv]].
  unfold field_step, try_except, bind, float_at. cbn [negb andb].
  now rewrite Ht, Hv.
Qed.

Lemma field_step_no_volume (r tok : pystr) (row : list F) (s : state) :
  token_at r 9 = Some tok -> py_float tok = None ->
  field_step (Re.split_fields r) 9 (true, row) s
  = (log_event s [no_volume_data], Returned (false, row ++ [zero])).
Proof.
  unfold token_at. intros Ht Hv.
  unfold field_step, try_except, bind, float_at. cbn [negb andb].
  now rewrite Ht, Hv.
Qed.

(** The four fields before the volume of a record that has them. *)
Lemma fields_loop_lenient (r : pystr) (vd : bool) (s : state)
      (k : bool * list F -> M (bool * list F)) :
  8 < length (Re.split_fields r) ->
  bind (field_step (Re.split_fields r) 5 (vd, []))
    (fun st5 => bind (field_step (Re.split_fields r) 6 st5)
    (fun st6 => bind (field_step (Re.split_fields r) 7 st6)
    (fun st7 => bind (field_step (Re.split_fields r) 8 st7) k))) s
  = k (vd && accepted r 5 && accepted r 6 && accepted r 7 && accepted r 8,
       [lenient r 5; lenient r 6; lenient r 7; lenient r 8])
      (log_event s (refusal r 5 ++ refusal r 6 ++ refusal r 7 ++ refusal r 8)).
Proof.
  intros Hlen.
  erewrite bind_returned by (apply field_step_lenient; [discriminate | lia]).
  erewrite bind_returned by (apply field_step_lenient; [discriminate | lia]).
  erewrite bind_returned by (apply field_step_lenient; [discriminate | lia]).
  erewrite bind_returned by (apply field_step_lenient; [discriminate | lia]).
  now rewrite !log_event_app, <- !app_assoc.
Qed.

Lemma record_step_unfold (r : pystr) (vd : bool) (s : state) (d : DT) :
  timestamp r = Some d ->
  record_step r vd s
  = bind (fields_loop (Re.split_fields r) (seq 5 5) (vd, []))
         (fun st => ret (fst st, (d, snd st))) s.
Proof.
  intros H. destruct (timestamp_number _ H) as [t [Ht Hd]].
  destruct (number_token _ _ Ht) as [tok [Htok Hv]].
  unfold record_step.
  erewrite bind_returned
    by (unfold float_at; rewrite Htok, Hv; reflexivity).
  now rewrite Hd.
Qed.

Lemma accepted_number (r : pystr) (i : nat) (v : F) :
  number r i = Some v ->
  accepted r i = true /\ lenient r i = v /\ refusal r i = [].
Proof.
  unfold accepted, lenient, refusal. now intros ->.
Qed.

Lemma number_length (r : pystr) (i : nat) (v : F) :
  number r i = Some v -> i < length (Re.split_fields r).
Proof.
  intros H. destruct (number_token _ _ H) as [tok [Ht _]].
  apply nth_error_Some. congruence.
Qed.

Ltac use_number H :=
  let Ha := fresh "Ha" in
  let Hl := fresh "Hl" in
  let Hr := fresh "Hr" in
  destruct (accepted_number _ _ H) as [Ha [Hl Hr]];
  rewrite ?Ha, ?Hl, ?Hr; clear Ha Hl Hr.

(** A record with its six numbers, before any refusal: the bar with its
    volume, and the flag stays set. *)
Lemma record_step_full (symbol r : pystr) (b : bar F DT) (s : state) :
  full_bar symbol r b ->
  record_step r true s = (s, Returned (true, row_of b)).
Proof.
  intros [Ht [_ [H5 [H6 [H7 [H8 H9]]]]]].
  rewrite (record_step_unfold _ _ _ Ht). cbn [seq fields_loop].
  pose proof (number_length _ _ H8) as Hlen.
  unfold bind at 1. rewrite fields_loop_lenient by exact Hlen.
  use_number H5. use_number H6. use_number H7. use_number H8.
  cbn [andb app]. rewrite log_event_nil.
  erewrite bind_returned by (apply field_step_volume; exact H9).
  reflexivity.
Qed.

(** A record with its five numbers whose token at position 9 [float]
    refuses: the volume is [0.0] and the flag is cleared. *)
Lemma record_step_no_volume (symbol r tok : pystr) (b : bar F DT) (s : state) :
  volumeless_bar symbol r b ->
  token_at r 9 = Some tok -> py_float tok = None ->
  record_step r true s
  = (log_event s [no_volume_data], Returned (false, row_of b)).
Proof.
  intros [Ht [_ [H5 [H6 [H7 [H8 H9]]]]]] Htok Hv.
  rewrite (record_step_unfold _ _ _ Ht). cbn [seq fields_loop].
  pose proof (number_length _ _ H8) as Hlen.
  unfold bind at 1. rewrite fields_loop_lenient by exact Hlen.
  use_number H5. use_number H6. use_number H7. use_number H8.
  cbn [andb app]. rewrite log_event_nil.
  erewrite bind_returned by (eapply field_step_no_volume; eassumption).
  unfold row_of. rewrite H9. reflexivity.
Qed.

(** A record with its five numbers once the flag is cleared: the volume is
    [0.0], whatever stands at position 9. *)
Lemma record_step_volumeless (symbol r : pystr) (b : bar F DT) (s : state) :
  volumeless_bar symbol r b ->
  record_step r false s = (s, Returned (false, row_of b)).
Proof.
  intros [Ht [_ [H5 [H6 [H7 [H8 H9]]]]]].
  rewrite (record_step_unfold _ _ _ Ht). cbn [seq fields_loop].
  pose proof (number_length _ _ H8) as Hlen.
  unfold bind at 1. rewrite fields_loop_lenient by exact Hlen.
  use_number H5. use_number H6. use_number H7. use_number H8.
  cbn [andb app]. rewrite log_event_nil.
  erewrite bind_returned by apply field_step_skipped.
  unfold row_of. rewrite H9. reflexivity.
Qed.

(** A record one of whose fields 5 to 8 [float] refuses: the refused fields
    are [0.0], the flag is cleared and the volume is [0.0], position 9 not
    looked at. *)
Lemma record_step_refused (r : pystr) (vd : bool) (d : DT) (s : state) :
  timestamp r = Some d ->
  8 < length (Re.split_fields r) ->
  accepted r 5 && accepted r 6 && accepted r 7 && accepted r 8 = false ->
  record_step r vd s
  = (log_event s (refusal r 5 ++ refusal r 6 ++ refusal r 7 ++ refusal r 8),
     Returned (false, (d, [lenient r 5; lenient r 6; lenient r 7;
                           lenient r 8; zero]))).
Proof.
  intros Ht Hlen Hacc.
  rewrite (record_step_unfold _ _ _ Ht). cbn [seq fields_loop].
  unfold bind at 1. rewrite fields_loop_lenient by exact Hlen.
  rewrite <- !andb_assoc in Hacc. rewrite <- !andb_assoc, Hacc, andb_false_r.
  erewrite bind_returned by apply field_step_skipped.
  reflexivity.
Qed.

(** C4: on a stream that holds no series block (the marker, a run of
    characters on one line that is not empty, the closing) the parser logs
    the error and returns [None]; it raises nothing and returns no data
    frame. *)
Theorem create_df_no_series_block (raw_data symbol : pystr) (s : state) :
  (forall g, ~ series_block raw_data g) ->
  create_df raw_data symbol s = (log_event s [no_data], Returned None).
Proof.
  intros H. apply search_series_None_iff in H.
  unfold create_df, try_except. rewrite H. reflexivity.
Qed.

Lemma records_loop_full (symbol : pystr) (pre : list pystr)
      (bars : list (bar F DT)) (rest : list pystr) (data : list (DT * list F))
      (s : state) :
  Forall2 (full_bar symbol) pre bars ->
  records_loop (pre ++ rest) true data s
  = records_loop rest true (data ++ map row_of bars) s.
Proof.
  intros H. revert data.
  induction H as [|r b pre bars Hr _ IH]; intros data.
  - cbn [app map]. now rewrite app_nil_r.
  - cbn [app map records_loop].
    erewrite bind_returned by (eapply record_step_full; exact Hr).
    cbn [fst snd]. rewrite IH, <- app_assoc. reflexivity.
Qed.

Lemma records_loop_volumeless (symbol : pystr) (post : list pystr)
      (bars : list (bar F DT)) (data : list (DT * list F)) (s : state) :
  Forall2 (volumeless_bar symbol) post bars ->
  records_loop post false data s = (s, Returned (data ++ map row_of bars)).
Proof.
  intros H. revert data.
  induction H as [|r b post bars Hr _ IH]; intros data.
  - cbn [app map records_loop]. now rewrite app_nil_r.
  - cbn [app map records_loop].
    erewrite bind_returned by (eapply record_step_volumeless; exact Hr).
    cbn [fst snd]. rewrite IH, <- app_assoc. reflexivity.
Qed.

Lemma to_bars_row_of (symbol : pystr) (bars : list (bar F DT)) :
  Forall (fun b => bar_symbol b = symbol) bars ->
  to_bars symbol (map row_of bars) = Some bars.
Proof.
  induction 1 as [|b bars Hb _ IH]; [reflexivity|].
  cbn [map to_bars]. rewrite IH. destruct b. cbn in *. now subst.
Qed.

Lemma full_bar_symbol (symbol : pystr) (rs : list pystr)
      (bars : list (bar F DT)) :
  Forall2 (full_bar symbol) rs bars ->
  Forall (fun b => bar_symbol b = symbol) bars.
Proof.
  induction 1 as [|r b rs bars Hb _ IH]; constructor; [apply Hb | exact IH].
Qed.

Lemma volumeless_bar_symbol (symbol : pystr) (rs : list pystr)
      (bars : list (bar F DT)) :
  Forall2 (volumeless_bar symbol) rs bars ->
  Forall (fun b => bar_symbol b = symbol) bars
  /\ Forall (fun b => bar_volume b = zero) bars.
Proof.
  induction 1 as [|r b rs bars Hb _ [IH1 IH2]]; split; constructor;
    try assumption; apply Hb.
Qed.

(** The parser on a stream whose records are [pre], then [r], then [post]:
    the rows of [pre], the row of [r], the rows of [post] with the flag
    cleared. *)
Lemma create_df_rows (raw_data symbol out : pystr) (pre : list pystr)
      (r : pystr) (post : list pystr) (bars_pre : list (bar F DT))
      (b : bar F DT) (bars_post : list (bar F DT)) (evs : list event)
      (s : state) :
  Re.search_series raw_data = Some out ->
  Re.split (pyq ",{'") out = pre ++ r :: post ->
  Forall2 (full_bar symbol) pre bars_pre ->
  record_step r true s = (log_event s evs, Returned (false, row_of b)) ->
  bar_symbol b = symbol ->
  Forall2 (volumeless_bar symbol) post bars_post ->
  create_df raw_data symbol s
  = (log_event s evs, Returned (Some (bars_pre ++ b :: bars_post))).
Proof.
  intros Hout Hsplit Hpre Hr Hb Hpost.
  unfold create_df, try_except. rewrite Hout, Hsplit.
  unfold bind at 1. rewrite (records_loop_full _ _ _ Hpre).
  cbn [records_loop app]. erewrite bind_returned by exact Hr. cbn [fst snd].
  rewrite (records_loop_volumeless _ _ Hpost).
  unfold bind, DataFrame.
  rewrite <- app_assoc. cbn [app].
  change (row_of b :: map row_of bars_post) with (map row_of (b :: bars_post)).
  rewrite <- map_app, to_bars_row_of; [reflexivity|].
  apply Forall_app. split; [eapply full_bar_symbol; eassumption|].
  constructor; [assumption|].
  eapply volumeless_bar_symbol; eassumption.
Qed.

(** C1: on a stream whose records before [r] have their six numbers, where
    [float] refuses the token at position 9 of [r] and the other numbers of
    [r] and of the records after it are there, the parser returns one bar a
    record, in order: the bars before [r] keep the volumes parsed from
    their records, the bar of [r] and every bar after it have volume [0.0],
    whatever stands at position 9 of the records after [r]; with two
    records before [r] and none after, three bars. *)
Theorem create_df_missing_volume (raw_data symbol out : pystr)
        (pre : list pystr) (r : pystr) (post : list pystr) (tok : pystr)
        (bars_pre : list (bar F DT)) (b : bar F DT)
        (bars_post : list (bar F DT)) (s : state) :
  Re.search_series raw_data = Some out ->
  Re.split (pyq ",{'") out = pre ++ r :: post ->
  Forall2 (full_bar symbol) pre bars_pre ->
  volumeless_bar symbol r b ->
  token_at r 9 = Some tok -> py_float tok = None ->
  Forall2 (volumeless_bar symbol) post bars_post ->
  create_df raw_data symbol s
  = (log_event s [no_volume_data],
     Returned (Some (bars_pre ++ b :: bars_post)))
  /\ length (bars_pre ++ b :: bars_post) = length (pre ++ r :: post)
  /\ Forall2 (fun r b => number r 9 = Some (bar_volume b)) pre bars_pre
  /\ Forall (fun b => bar_volume b = zero) (b :: bars_post).
Proof.
  intros Hout Hsplit Hpre Hr Htok Hv Hpost.
  split; [|split; [|split]].
  - eapply create_df_rows; try eassumption.
    + eapply record_step_no_volume; eassumption.
    + apply Hr.
  - rewrite !length_app. cbn [length].
    now rewrite (Forall2_length Hpre), (Forall2_length Hpost).
  - eapply Forall2_impl; [|exact Hpre]. intros r' b' H. apply H.
  - constructor; [apply Hr|].
    eapply volumeless_bar_symbol; eassumption.
Qed.

(** C10: when [float] refuses the token at one of the positions 5 to 8 of a
    record [r], that field is [0.0] in the bar of [r] (the other fields
    keep their numbers), the flag is cleared: the volume of that bar and of
    every bar after it is [0.0], whatever stands at position 9 of their
    records, and the bars before [r] keep their volumes. *)
Theorem create_df_refused_field (raw_data symbol out : pystr)
        (pre : list pystr) (r : pystr) (post : list pystr) (i : nat) (d : DT)
        (bars_pre : list (bar F DT)) (bars_post : list (bar F DT))
        (s : state) :
  Re.search_series raw_data = Some out ->
  Re.split (pyq ",{'") out = pre ++ r :: post ->
  Forall2 (full_bar symbol) pre bars_pre ->
  timestamp r = Some d ->
  8 < length (Re.split_fields r) ->
  5 <= i <= 8 -> number r i = None ->
  Forall2 (volumeless_bar symbol) post bars_post ->
  let b := mkBar d symbol (lenient r 5) (lenient r 6) (lenient r 7)
                 (lenient r 8) zero in
  create_df raw_data symbol s
  = (log_event s (refusal r 5 ++ refusal r 6 ++ refusal r 7 ++ refusal r 8),
     Returned (Some (bars_pre ++ b :: bars_post)))
  /\ bar_field b i = zero
  /\ bar_volume b = zero
  /\ Forall (fun b => bar_volume b = zero) bars_post
  /\ In no_volume_data
        (refusal r 5 ++ refusal r 6 ++ refusal r 7 ++ refusal r 8).
Proof.
  intros Hout Hsplit Hpre Ht Hlen Hi Hnum Hpost b.
  assert (Hacc : accepted r 5 && accepted r 6 && accepted r 7
                 && accepted r 8 = false).
  { assert (Hai : accepted r i = false) by (unfold accepted; now rewrite Hnum).
    assert (Hc : i = 5 \/ i = 6 \/ i = 7 \/ i = 8) by lia.
    destruct Hc as [-> | [-> | [-> | ->]]]; rewrite Hai;
      now rewrite ?andb_false_r. }
  split; [|split; [|split; [|split]]].
  - eapply create_df_rows; try eassumption; [|reflexivity].
    now apply record_step_refused.
  - assert (Hl : lenient r i = zero)
      by (unfold lenient; now rewrite Hnum).
    assert (Hc : i = 5 \/ i = 6 \/ i = 7 \/ i = 8) by lia.
    destruct Hc as [-> | [-> | [-> | ->]]]; exact Hl.
  - reflexivity.
  - eapply volumeless_bar_symbol; eassumption.
  - assert (Hri : refusal r i = [no_volume_data])
      by (unfold refusal; now rewrite Hnum).
    assert (Hc : i = 5 \/ i = 6 \/ i = 7 \/ i = 8) by lia.
    destruct Hc as [-> | [-> | [-> | ->]]]; rewrite Hri;
      repeat (apply in_or_app; first [left; now left | right]);
      try now left.
Qed.

End BarParserProperties.

Lemma create_df_missing_volume_witness :
  create_df 0%Q Sample.float Sample.fromtimestamp sample_stream
            (py "NSE:NIFTY") sample_state
  = (log_event sample_state [no_volume_data],
     Returned (Some [ sample_bar 1600000000.0 1.0 2.0 0.5 1.5 100.0;
                      sample_bar 1600086400.0 1.5 2.5 1.0 2.0 200.0;
                      sample_bar 1600172800.0 2.0 3.0 1.5 2.5 0 ])).
Proof.
  refine (proj1 (@create_df_missing_volume Q Q 0%Q Sample.float
                   Sample.fromtimestamp sample_stream (py "NSE:NIFTY")
                   _ [_; _] _ [] _ [_; _] _ [] sample_state _ _ _ _ _ _ _)).
  - vm_compute. reflexivity.
  - vm_compute. reflexivity.
  - repeat constructor.
  - repeat split.
  - vm_compute. reflexivity.
  - reflexivity.
  - constructor.
Defined.

Lemma create_df_no_series_block_witness :
  create_df 0%Q Sample.float Sample.fromtimestamp sample_error_stream
            (py "NSE:NOSUCH") sample_state
  = (log_event sample_state [no_data], Returned None).
Proof.
  apply (@create_df_no_series_block Q Q 0%Q Sample.float
           Sample.fromtimestamp sample_error_stream (py "NSE:NOSUCH")
           sample_state).
  apply no_marker_no_series_block. vm_compute. reflexivity.
Defined.

Lemma create_df_refused_field_witness :
  create_df 0%Q Sample.float Sample.fromtimestamp sample_null_stream
            (py "NSE:NIFTY") sample_state
  = (log_event sample_state [no_volume_data],
     Returned (Some [ sample_bar 1600000000.0 1.0 2.0 0.5 1.5 100.0;
                      sample_bar 1600086400.0 0 2.5 1.0 2.0 0;
                      sample_bar 1600172800.0 2.0 3.0 1.5 2.5 0 ])).
Proof.
  refine (proj1 (@create_df_refused_field Q Q 0%Q Sample.float
                   Sample.fromtimestamp sample_null_stream (py "NSE:NIFTY")
                   _ [_]
                   (pyq "i':1,'v':[1600086400.0,null,2.5,1.0,2.0,200.0]}")
                   [_] 5 1600086400.0%Q [_] [_] sample_state
                   _ _ _ _ _ _ _ _)).
  - vm_compute. reflexivity.
  - vm_compute. reflexivity.
  - repeat constructor.
  - vm_compute. reflexivity.
  - vm_compute. lia.
  - lia.
  - vm_compute. reflexivity.
  - repeat constructor.
Defined.

(** ** The receive loop *)

Lemma startswith_before (p x y : pystr) (sep : char) :
  ~ In sep p -> startswith p (x ++ sep :: y) = startswith p x.
Proof.
  revert x. induction p as [|a p IH]; intros x Hp; [reflexivity|].
  destruct x as [|c x]; cbn [app startswith].
  - destruct (N.eqb_spec a sep) as [->|]; [|reflexivity].
    exfalso. apply Hp. now left.
  - rewrite IH; [reflexivity|]. intros H. apply Hp. now right.
Qed.

(** A string without [sep] occurs in [x ++ sep :: y] only inside [x] or
    inside [y]. *)
Lemma contains_separated (p x y : pystr) (sep : char) :
  p <> [] -> ~ In sep p ->
  contains p (x ++ sep :: y) = contains p x || contains p y.
Proof.
  intros Hne Hp. induction x as [|c x IH].
  - cbn [app contains]. destruct p as [|a p]; [congruence|].
    cbn [startswith]. destruct (N.eqb_spec a sep) as [->|]; [|reflexivity].
    exfalso. apply Hp. now left.
  - change ((c :: x) ++ sep :: y) with (c :: (x ++ sep :: y)).
    cbn [contains]. rewrite IH.
    change (c :: (x ++ sep :: y)) with ((c :: x) ++ sep :: y).
    rewrite startswith_before by exact Hp. now rewrite orb_assoc.
Qed.

Lemma contains_nil (p : pystr) : p <> [] -> contains p [] = false.
Proof. destruct p; [congruence | reflexivity]. Qed.

Lemma series_completed_line :
  series_completed <> [] /\ ~ In newline series_completed.
Proof.
  split; [discriminate|].
  intros H. apply has_char_iff in H. vm_compute in H. discriminate.
Qed.

(** The marker is in a text followed by a newline when it is in the
    text. *)
Lemma contains_line (t : pystr) :
  contains series_completed (t ++ [newline]) = contains series_completed t.
Proof.
  destruct series_completed_line as [Hne Hnl].
  rewrite contains_separated by assumption.
  now rewrite (contains_nil Hne), orb_false_r.
Qed.

Section ReceiveLoop.

Variable w : world.

Lemma accumulated_shape (k0 n : nat) :
  accumulated w k0 n = [] \/ exists a, accumulated w k0 n = a ++ [newline].
Proof.
  induction n as [|n IH]; [now left|]. cbn [accumulated].
  destruct (ws_recv w (k0 + n)) as [e|t].
  - now rewrite app_nil_r.
  - right. exists (accumulated w k0 n ++ t). now rewrite app_assoc.
Qed.

(** The marker is in the accumulated text when it is in one of the texts
    received: it cannot stand across the newline between two of them. *)
Lemma contains_accumulated (raw t : pystr) :
  raw = [] \/ (exists a, raw = a ++ [newline]) ->
  contains series_completed (raw ++ t ++ [newline])
  = contains series_completed raw || contains series_completed t.
Proof.
  destruct series_completed_line as [Hne Hnl].
  intros [-> | [a ->]].
  - cbn [app]. rewrite contains_line, (contains_nil Hne). reflexivity.
  - rewrite <- app_assoc. cbn [app].
    rewrite !contains_separated by assumption.
    now rewrite (contains_nil Hne), !orb_false_r.
Qed.

Lemma stops_false (k0 n : nat) :
  stops w k0 n = false ->
  exists t, ws_recv w (k0 + n) = inr t
            /\ contains series_completed (accumulated w k0 (S n)) = false.
Proof.
  unfold stops. destruct (ws_recv w (k0 + n)) as [e|t] eqn:E; [discriminate|].
  intros H. exists t. split; [reflexivity | exact H].
Qed.

(** While no receive has ended the loop, the accumulated text does not hold
    the marker. *)
Lemma running_no_marker (k0 n : nat) :
  (forall i, i < n -> stops w k0 i = false) ->
  contains series_completed (accumulated w k0 n) = false.
Proof.
  intros H. destruct n as [|n].
  - apply contains_nil, series_completed_line.
  - destruct (stops_false k0 n (H n (Nat.lt_succ_diag_r n))) as [t [_ Hc]].
    exact Hc.
Qed.

Lemma received_received (s : state) (c : socket) (n m : nat) :
  received (received s c n) (mkSocket (sent c) (rcvd c + n)) m
  = received s c (n + m).
Proof.
  unfold received. cbn. rewrite <- app_assoc, <- repeat_app.
  now rewrite Nat.add_assoc.
Qed.

(** One turn of the loop, in its three cases. *)
Lemma recv_loop_fails (fuel : nat) (raw : pystr) (s : state) (c : socket)
      (e : exn) :
  ws s = Some c -> ws_recv w (rcvd c) = inl e ->
  recv_loop w (S fuel) raw s
  = (log_event (received s c 1) [Log ERROR (Exc e)], Returned raw).
Proof.
  intros Hws He. cbn [recv_loop].
  unfold bind at 1, try_except, bind at 1, ws_recv_text.
  rewrite Hws, He. unfold received. cbn. now rewrite Nat.add_1_r.
Qed.

Lemma recv_loop_marker (fuel : nat) (raw t : pystr) (s : state) (c : socket) :
  ws s = Some c -> ws_recv w (rcvd c) = inr t ->
  contains series_completed t = true ->
  recv_loop w (S fuel) raw s
  = (received s c 1, Returned (raw ++ t ++ [newline])).
Proof.
  intros Hws Ht Hc. cbn [recv_loop].
  unfold bind at 1, try_except, bind at 1, ws_recv_text.
  rewrite Hws, Ht. unfold ret. cbv beta iota. rewrite Hc.
  unfold received. cbn [repeat]. now rewrite Nat.add_1_r.
Qed.

Lemma recv_loop_continues (fuel : nat) (raw t : pystr) (s : state)
      (c : socket) :
  ws s = Some c -> ws_recv w (rcvd c) = inr t ->
  contains series_completed t = false ->
  recv_loop w (S fuel) raw s
  = recv_loop w fuel (raw ++ t ++ [newline]) (received s c 1).
Proof.
  intros Hws Ht Hc. cbn [recv_loop].
  unfold bind at 1, try_except, bind at 1, ws_recv_text.
  rewrite Hws, Ht. unfold ret. cbv beta iota. rewrite Hc.
  unfold received. cbn [repeat]. now rewrite Nat.add_1_r.
Qed.

(** The loop passes the receives that do not end it. *)
Lemma recv_loop_runs (k0 d : nat) :
  forall (j fuel : nat) (s : state) (c : socket),
    ws s = Some c -> rcvd c = k0 + j ->
    (forall i, i < j + d -> stops w k0 i = false) ->
    recv_loop w (d + fuel) (accumulated w k0 j) s
    = recv_loop w fuel (accumulated w k0 (j + d)) (received s c d).
Proof.
  induction d as [|d IH]; intros j fuel s c Hws Hk Hrun.
  - cbn [Nat.add]. rewrite Nat.add_0_r. f_equal.
    destruct s as [tr o g]. cbn in Hws. subst o. destruct c as [a b].
    unfold received. cbn. now rewrite app_nil_r, Nat.add_0_r.
  - destruct (stops_false k0 j (Hrun j ltac:(lia))) as [t [Ht Hacc]].
    assert (Hraw : contains series_completed (accumulated w k0 j) = false)
      by (apply running_no_marker; intros i Hi; apply Hrun; lia).
    cbn [accumulated] in Hacc. rewrite Ht in Hacc.
    rewrite contains_accumulated in Hacc by apply accumulated_shape.
    rewrite Hraw in Hacc. cbn [orb] in Hacc.
    change (S d + fuel) with (S (d + fuel)).
    rewrite (@recv_loop_continues _ _ t s c Hws) by congruence.
    replace (accumulated w k0 j ++ t ++ [newline])
      with (accumulated w k0 (S j)) by (cbn [accumulated]; now rewrite Ht).
    rewrite (IH (S j) fuel (received s c 1)
                (mkSocket (sent c) (rcvd c + 1))); try reflexivity.
    + rewrite received_received. f_equal. f_equal. lia.
    + cbn. lia.
    + intros i Hi. apply Hrun. lia.
Qed.

End ReceiveLoop.

Section Streaming.

Variables (F DT : Type).
Variable zero : F.
Variable py_float : pystr -> option F.
Variable fromtimestamp : F -> exn + DT.
Variable w : world.

Local Abbreviation create_df := (create_df zero py_float fromtimestamp).
Local Abbreviation get_hist_stream :=
  (get_hist_stream zero py_float fromtimestamp w).

Lemma received_ws (s : state) (c : socket) (n : nat) :
  ws (received s c n) = Some (mkSocket (sent c) (rcvd c + n)).
Proof. reflexivity. Qed.

(** The loop ends with the first receive that ends it. *)
Lemma recv_loop_stops (fuel n : nat) (s : state) (c : socket) :
  ws s = Some c ->
  n < fuel ->
  stops w (rcvd c) n = true ->
  (forall i, i < n -> stops w (rcvd c) i = false) ->
  recv_loop w fuel [] s
  = (stopped w s c n, Returned (accumulated w (rcvd c) (S n))).
Proof.
  intros Hws Hn Hstop Hrun.
  replace fuel with (n + S (fuel - S n)) by lia.
  change (@nil char) with (accumulated w (rcvd c) 0).
  rewrite (@recv_loop_runs w (rcvd c) n 0 _ s c Hws);
    [ | lia | exact Hrun ].
  cbn [Nat.add].
  pose proof (running_no_marker w (rcvd c) Hrun) as Hraw.
  unfold stops in Hstop. unfold stopped. cbn [accumulated] in *.
  destruct (ws_recv w (rcvd c + n)) as [e|t] eqn:E.
  - rewrite (@recv_loop_fails w _ _ _ _ e (received_ws s c n))
      by (cbn; exact E).
    rewrite received_received, app_nil_r, Nat.add_1_r. reflexivity.
  - rewrite contains_accumulated in Hstop by apply accumulated_shape.
    rewrite Hraw in Hstop. cbn [orb] in Hstop.
    rewrite (@recv_loop_marker w _ _ t _ _ (received_ws s c n))
      by (cbn; assumption).
    rewrite received_received, Nat.add_1_r. reflexivity.
Qed.

(** While no receive ends it the loop goes on. *)
Lemma recv_loop_goes_on (fuel : nat) (s : state) (c : socket) :
  ws s = Some c ->
  (forall i, i < fuel -> stops w (rcvd c) i = false) ->
  recv_loop w fuel [] s = (received s c fuel, OutOfFuel).
Proof.
  intros Hws Hrun.
  replace fuel with (fuel + 0) at 1 by lia.
  change (@nil char) with (accumulated w (rcvd c) 0).
  rewrite (@recv_loop_runs w (rcvd c) fuel 0 _ s c Hws);
    [ reflexivity | lia | exact Hrun ].
Qed.

(** Below a bound, a test holds nowhere or has a first place where it
    holds. *)
Lemma first_true (f : nat -> bool) (n : nat) :
  (forall i, i < n -> f i = false)
  \/ (exists i, i < n /\ f i = true /\ forall j, j < i -> f j = false).
Proof.
  induction n as [|n [IH | [i [Hi [Hf Hfirst]]]]].
  - left. intros i Hi. lia.
  - destruct (f n) eqn:E.
    + right. exists n. repeat split; [lia | assumption | assumption].
    + left. intros i Hi. destruct (Nat.eq_dec i n) as [->|]; [assumption|].
      apply IH. lia.
  - right. exists i. repeat split; [lia | assumption | assumption].
Qed.

(** C5: the loop ends with receive [n] exactly when [n] is the first
    receive that fails or with which the accumulated text holds the marker
    [series_completed], and it goes on as long as there is none: it ends
    at all when and only when there is such a receive; what it returns is
    the text accumulated until then, also when the receive failed, and the
    parser is run on it. *)
Theorem recv_loop_stops_exactly_when (fuel : nat) (symbol : pystr)
        (s : state) (c : socket) :
  ws s = Some c ->
  (forall n,
      n < fuel ->
      stops w (rcvd c) n = true ->
      (forall i, i < n -> stops w (rcvd c) i = false) ->
      recv_loop w fuel [] s
      = (stopped w s c n, Returned (accumulated w (rcvd c) (S n)))
      /\ get_hist_stream fuel symbol s
         = create_df (accumulated w (rcvd c) (S n)) symbol
                     (stopped w (log_event s [getting_data symbol]) c n)
      /\ (forall e, ws_recv w (rcvd c + n) = inl e ->
                    accumulated w (rcvd c) (S n) = accumulated w (rcvd c) n))
  /\ ((forall i, i < fuel -> stops w (rcvd c) i = false) ->
      recv_loop w fuel [] s = (received s c fuel, OutOfFuel)
      /\ get_hist_stream fuel symbol s
         = (received (log_event s [getting_data symbol]) c fuel, OutOfFuel))
  /\ ((exists turns, snd (recv_loop w turns [] s) <> OutOfFuel)
      <-> (exists n, stops w (rcvd c) n = true)).
Proof.
  intros Hws. split; [|split].
  - intros n Hn Hstop Hrun. split; [|split].
    + now apply recv_loop_stops.
    + unfold get_hist_stream.
      erewrite bind_returned by apply emit_log.
      erewrite bind_returned
        by (apply (@recv_loop_stops fuel n
                     (log_event s [getting_data symbol]) c); assumption).
      reflexivity.
    + intros e He. cbn [accumulated]. rewrite He. apply app_nil_r.
  - intros Hrun. split.
    + now apply recv_loop_goes_on.
    + unfold get_hist_stream.
      erewrite bind_returned by apply emit_log.
      erewrite bind_out_of_fuel
        by (apply (@recv_loop_goes_on fuel
                     (log_event s [getting_data symbol]) c); assumption).
      reflexivity.
  - split.
    + intros [turns Hturns].
      destruct (first_true (stops w (rcvd c)) turns)
        as [Hrun | [n [_ [Hn _]]]]; [|now exists n].
      exfalso. apply Hturns.
      now rewrite (@recv_loop_goes_on turns s c Hws Hrun).
    + intros [n Hn].
      destruct (first_true (stops w (rcvd c)) (S n))
        as [Hrun | [i [Hi [Hstop Hfirst]]]].
      * rewrite Hrun in Hn by lia. discriminate.
      * exists (S i).
        rewrite (@recv_loop_stops (S i) i s c Hws
                   (Nat.lt_succ_diag_r i) Hstop Hfirst).
        discriminate.
Qed.

End Streaming.

Lemma recv_loop_stops_exactly_when_witness :
  ws sample_connected = Some (mkSocket 9 0)
  /\ stops sample_world 0 0 = false
  /\ stops sample_world 0 1 = true
  /\ get_hist_stream 0%Q Sample.float Sample.fromtimestamp sample_world 3
                     (py "NSE:NIFTY") sample_connected
     = create_df 0%Q Sample.float Sample.fromtimestamp
                 (accumulated sample_world 0 2) (py "NSE:NIFTY")
                 (stopped sample_world
                    (log_event sample_connected
                               [getting_data (py "NSE:NIFTY")])
                    (mkSocket 9 0) 1)
  /\ accumulated sample_world 0 2 = sample_stream ++ [newline]
  /\ snd (get_hist_stream 0%Q Sample.float Sample.fromtimestamp sample_world
                          3 (py "NSE:NIFTY") sample_connected)
     = Returned (Some [ sample_bar 1600000000.0 1.0 2.0 0.5 1.5 100.0;
                        sample_bar 1600086400.0 1.5 2.5 1.0 2.0 200.0;
                        sample_bar 1600172800.0 2.0 3.0 1.5 2.5 0 ]).
Proof.
  split; [reflexivity|]. split; [vm_compute; reflexivity|].
  split; [reflexivity|]. split; [|split].
  - refine (proj1 (proj2 (proj1
             (@recv_loop_stops_exactly_when Q Q 0%Q Sample.float
                Sample.fromtimestamp sample_world 3 (py "NSE:NIFTY")
                sample_connected (mkSocket 9 0) eq_refl) 1 _ _ _))).
    + cbn. lia.
    + reflexivity.
    + intros i Hi. assert (i = 0) as -> by lia. vm_compute. reflexivity.
  - vm_compute. reflexivity.
  - vm_compute. reflexivity.
Defined.

(** ** The handshake *)

Lemma wire_log_event (s : state) (evs : list event) :
  wire (log_event s evs) = wire s ++ filter is_wire evs.
Proof. unfold wire, log_event. cbn. apply filter_app. Qed.

Lemma silent_ret {A} (a : A) : silent (ret a).
Proof. intros s. reflexivity. Qed.

Lemma silent_raise {A} (e : exn) : silent (@raise A e).
Proof. intros s. reflexivity. Qed.

Lemma silent_emit (ev : event) : is_wire ev = false -> silent (emit ev).
Proof.
  intros H s. rewrite emit_log. cbn [fst]. rewrite wire_log_event.
  cbn [filter]. rewrite H. apply app_nil_r.
Qed.

Lemma silent_bind {A B} (c : M A) (k : A -> M B) :
  silent c -> (forall a, silent (k a)) -> silent (bind c k).
Proof.
  intros Hc Hk s. unfold bind. specialize (Hc s).
  destruct (c s) as [s' [a|e|]]; cbn [fst] in *; [|assumption..].
  now rewrite Hk.
Qed.

Lemma silent_try_except {A} (c : M A) (caught : exn -> bool)
      (h : exn -> M A) :
  silent c -> (forall e, silent (h e)) -> silent (try_except c caught h).
Proof.
  intros Hc Hh s. unfold try_except. specialize (Hc s).
  destruct (c s) as [s' [a|e|]]; cbn [fst] in *; try assumption.
  destruct (caught e); cbn [fst]; [|assumption]. now rewrite Hh.
Qed.

Create HintDb silent.

#[local] Hint Resolve silent_ret silent_raise silent_emit silent_bind
  silent_try_except : silent.

Section Handshake.

Variables (F DT : Type).
Variable zero : F.
Variable py_float : pystr -> option F.
Variable fromtimestamp : F -> exn + DT.
Variable w : world.

Local Abbreviation create_df := (create_df zero py_float fromtimestamp).
Local Abbreviation get_hist_stream :=
  (get_hist_stream zero py_float fromtimestamp w).
Local Abbreviation get_hist := (get_hist zero py_float fromtimestamp w).

Lemma silent_float_at (xi : list pystr) (i : nat) :
  silent (float_at py_float xi i).
Proof.
  unfold float_at. destruct (nth_error xi i) as [tok|]; auto with silent.
  destruct (py_float tok); auto with silent.
Qed.

Lemma silent_field_step (xi : list pystr) (i : nat) (st : bool * list F) :
  silent (field_step zero py_float xi i st).
Proof.
  unfold field_step. destruct st as [vd row].
  destruct (negb vd && (i =? 9)); auto with silent.
  apply silent_try_except.
  - apply silent_bind; [apply silent_float_at | auto with silent].
  - intros e. apply silent_bind; auto with silent.
Qed.

Lemma silent_fields_loop (xi : list pystr) (idxs : list nat)
      (st : bool * list F) :
  silent (fields_loop zero py_float xi idxs st).
Proof.
  revert st. induction idxs as [|i idxs IH]; intros st; cbn [fields_loop].
  - auto with silent.
  - apply silent_bind; [apply silent_field_step | exact IH].
Qed.

Lemma silent_record_step (xi : pystr) (vd : bool) :
  silent (record_step zero py_float fromtimestamp xi vd).
Proof.
  unfold record_step. apply silent_bind; [apply silent_float_at|].
  intros t. destruct (fromtimestamp t); auto with silent.
  apply silent_bind; [apply silent_fields_loop | auto with silent].
Qed.

Lemma silent_records_loop (x : list pystr) (vd : bool)
      (data : list (DT * list F)) :
  silent (records_loop zero py_float fromtimestamp x vd data).
Proof.
  revert vd data. induction x as [|xi x IH]; intros vd data;
    cbn [records_loop].
  - auto with silent.
  - apply silent_bind; [apply silent_record_step | intros r; apply IH].
Qed.

(** The parser leaves the socket alone. *)
Lemma silent_create_df (raw_data symbol : pystr) :
  silent (create_df raw_data symbol).
Proof.
  unfold create_df. apply silent_try_except.
  - destruct (Re.search_series raw_data); auto with silent.
    apply silent_bind; [apply silent_records_loop|].
    intros data. apply silent_bind; [|auto with silent].
    unfold DataFrame. destruct (to_bars symbol data); auto with silent.
  - intros e. apply silent_bind; auto with silent.
Qed.

(** The loop only receives. *)
Lemma recv_loop_wire (fuel : nat) (raw : pystr) (s : state) :
  exists n, wire (fst (recv_loop w fuel raw s)) = wire s ++ repeat Recv n.
Proof.
  revert raw s. induction fuel as [|fuel IH]; intros raw s.
  - exists 0. cbn. now rewrite app_nil_r.
  - cbn [recv_loop].
    unfold bind at 1, try_except, bind at 1, ws_recv_text.
    destruct (ws s) as [c|] eqn:Hws.
    + destruct (ws_recv w (rcvd c)) as [e|t].
      * exists 1. cbn. unfold wire. cbn.
        rewrite !filter_app. cbn. now rewrite app_nil_r.
      * unfold ret. cbv beta iota.
        destruct (contains series_completed t).
        -- exists 1. unfold wire. cbn. now rewrite filter_app.
        -- match goal with
           | |- context [recv_loop w fuel ?r ?s1] =>
               destruct (IH r s1) as [n Hn]
           end.
           exists (S n). rewrite Hn. unfold wire. cbn.
           rewrite filter_app, <- app_assoc. reflexivity.
    + exists 0. cbn. unfold wire. cbn.
      rewrite filter_app. cbn. now rewrite !app_nil_r.
Qed.

Lemma get_hist_stream_wire (fuel : nat) (symbol : pystr) (s : state) :
  exists n,
    wire (fst (get_hist_stream fuel symbol s)) = wire s ++ repeat Recv n.
Proof.
  unfold get_hist_stream.
  erewrite bind_returned by apply emit_log.
  destruct (recv_loop_wire fuel [] (log_event s [getting_data symbol]))
    as [n Hn].
  rewrite wire_log_event in Hn. cbn [filter is_wire getting_data] in Hn.
  rewrite app_nil_r in Hn.
  exists n. unfold bind.
  destruct (recv_loop w fuel [] _) as [s' [raw|e|]]; cbn [fst] in *;
    try assumption.
  now rewrite silent_create_df.
Qed.

Local Abbreviation frames_of :=
  (map (fun m : pystr * list json => create_message (fst m) (snd m))).

(** One message: the frame goes out, or the send raises and nothing
    does. *)
Lemma send_message_cases (self : client) (func : pystr) (args : list json)
      (s : state) :
  (exists s' e,
      send_message w self func args s = (s', Raised e)
      /\ wire s' = wire s
      /\ forall c, ws s = Some c -> ws_send w (sent c) <> None)
  \/ (exists s' c,
         send_message w self func args s = (s', Returned tt)
         /\ ws s = Some c
         /\ wire s' = wire s ++ [Send (create_message func args)]
         /\ ws s' = Some (mkSocket (S (sent c)) (rcvd c))).
Proof.
  unfold send_message.
  set (m := create_message func args).
  assert (Hpre : exists s0,
             (if ws_debug self then emit (Print (Text m)) else ret tt) s
             = (s0, Returned tt)
             /\ wire s0 = wire s /\ ws s0 = ws s /\ rng s0 = rng s).
  { destruct (ws_debug self).
    - eexists. split; [apply emit_log|].
      rewrite wire_log_event. cbn. now rewrite app_nil_r.
    - exists s. repeat split. }
  destruct Hpre as [s0 [H0 [Hw [Hs Hr]]]].
  erewrite bind_returned by exact H0.
  unfold ws_send_frame. rewrite Hs.
  destruct (ws s) as [c|] eqn:Hws.
  - destruct (ws_send w (sent c)) as [e|] eqn:He.
    + left. exists s0, e. split; [reflexivity|]. split; [assumption|].
      intros c' Hc'. injection Hc' as <-. congruence.
    + right. eexists. exists c. split; [reflexivity|].
      split; [reflexivity|]. split; [|reflexivity].
      unfold wire in *. cbn. rewrite filter_app, Hw. reflexivity.
  - left. exists s0, AttributeError. split; [reflexivity|].
    split; [assumption | discriminate].
Qed.

(** The messages of a list: all the frames go out in order and the rest
    follows, or a send raises after the frames before it. *)
Lemma send_then_cases {A} (self : client) (msgs : list (pystr * list json))
      (k : M A) :
  forall s,
    (exists j s' e,
        j < length msgs
        /\ send_then w self msgs k s = (s', Raised e)
        /\ wire s' = wire s ++ map Send (firstn j (frames_of msgs))
        /\ forall c, ws s = Some c -> ws_send w (sent c + j) <> None)
    \/ (exists s1,
           send_then w self msgs k s = k s1
           /\ wire s1 = wire s ++ map Send (frames_of msgs)).
Proof.
  induction msgs as [|m msgs IH]; intros s.
  - right. exists s. split; [reflexivity|]. cbn. now rewrite app_nil_r.
  - cbn [send_then].
    destruct (send_message_cases self (fst m) (snd m) s)
      as [[s' [e [Hrun [Hw Hf]]]] | [s' [c [Hrun [Hws [Hw Hs']]]]]].
    + left. exists 0, s', e. split; [cbn; lia|].
      split; [now apply bind_raised|]. split.
      * cbn. now rewrite app_nil_r.
      * intros c Hc. rewrite Nat.add_0_r. now apply Hf.
    + erewrite bind_returned by exact Hrun.
      destruct (IH s') as [[j [s2 [e [Hj [Hrun2 [Hw2 Hf]]]]]] | [s1 [Hrun2 Hw2]]].
      * left. exists (S j), s2, e. split; [cbn; lia|].
        split; [assumption|]. split.
        -- rewrite Hw2, Hw, <- app_assoc. reflexivity.
        -- intros c' Hc'. rewrite Hws in Hc'. injection Hc' as <-.
           specialize (Hf _ Hs'). cbn in Hf.
           now rewrite Nat.add_succ_r.
      * right. exists s1. split; [assumption|].
        rewrite Hw2, Hw, <- app_assoc. reflexivity.
Qed.

Lemma get_hist_setup_unfold (self : client) (symbol exchange : pystr)
      (interval : Interval) (n_bars : Z) (fut_contract : contract_arg)
      (extended_session : bool) :
  get_hist_setup w self symbol exchange interval n_bars fut_contract
                 extended_session
  = bind (lift (format_symbol symbol exchange fut_contract))
      (fun sym =>
         bind (create_connection w)
           (fun _ =>
              send_then w self
                (setup_messages self sym (Interval_value interval) n_bars
                                extended_session)
                (ret sym))).
Proof. reflexivity. Qed.

Lemma create_connection_cases (s : state) :
  (exists e s', ws_connect w = Some e
                /\ create_connection w s = (s', Raised e)
                /\ wire s' = wire s)
  \/ (exists s', ws_connect w = None
                 /\ create_connection w s = (s', Returned tt)
                 /\ wire s' = wire s ++ [Connect]
                 /\ ws s' = Some (mkSocket 0 0)).
Proof.
  unfold create_connection.
  erewrite bind_returned by apply emit_log.
  destruct (ws_connect w) as [e|].
  - left. exists e. eexists. split; [reflexivity|]. split; [reflexivity|].
    rewrite wire_log_event. cbn. now rewrite app_nil_r.
  - right. eexists. split; [reflexivity|]. split; [reflexivity|].
    split; [|reflexivity].
    unfold wire. cbn. rewrite !filter_app. cbn. now rewrite app_nil_r.
Qed.

(** C2: in every fetch, what happens on the socket is the opening of the
    connection, then the frames of the nine setup messages in their order
    ([set_auth_token], [chart_create_session], [quote_create_session],
    [quote_set_fields], [quote_add_symbols], [quote_fast_symbols],
    [resolve_symbol], [create_series], [switch_timezone]), then receives
    only; a fetch that fails before (no valid contract, no connection, a
    send that raises) stops inside this sequence and receives nothing, and
    when the connection opens and the nine sends succeed the nine frames are
    all sent before the first receive. *)
Theorem get_hist_handshake (fuel : nat) (self : client)
        (symbol exchange : pystr) (interval : Interval) (n_bars : Z)
        (fut_contract : contract_arg) (extended_session : bool) (s : state) :
  let run := get_hist fuel self symbol exchange interval n_bars fut_contract
                      extended_session s in
  let frames sym :=
    setup_frames self sym (Interval_value interval) n_bars extended_session in
  (forall sym,
      map fst (setup_messages self sym (Interval_value interval) n_bars
                              extended_session) = setup_names
      /\ length (frames sym) = 9)
  /\ (exists evs,
         wire (fst run) = wire s ++ evs
         /\ (evs = []
             \/ (exists sym j e,
                    format_symbol symbol exchange fut_contract = Returned sym
                    /\ j < 9
                    /\ evs = Connect :: map Send (firstn j (frames sym))
                    /\ snd run = Raised e)
             \/ (exists sym n,
                    format_symbol symbol exchange fut_contract = Returned sym
                    /\ evs = Connect :: map Send (frames sym)
                             ++ repeat Recv n)))
  /\ (forall sym,
         format_symbol symbol exchange fut_contract = Returned sym ->
         ws_connect w = None ->
         (forall k, k < 9 -> ws_send w k = None) ->
         exists n,
           wire (fst run)
           = wire s ++ Connect :: map Send (frames sym) ++ repeat Recv n).
Proof.
  intros run frames.
  split; [intros sym; split; reflexivity|].
  assert (Hrun : run = bind (get_hist_setup w self symbol exchange interval
                               n_bars fut_contract extended_session)
                            (fun sym => get_hist_stream fuel sym) s)
    by reflexivity.
  rewrite get_hist_setup_unfold in Hrun.
  destruct (format_symbol symbol exchange fut_contract) as [sym|e|] eqn:Hf.
  - (* the symbol is formatted *)
    unfold bind at 2, lift in Hrun.
    destruct (create_connection_cases s)
      as [[e [s1 [Hc [Hcon Hw1]]]] | [s1 [Hc [Hcon [Hw1 Hs1]]]]].
    + (* no connection *)
      assert (Hr : run = (s1, Raised e)).
      { rewrite Hrun. apply bind_raised. now apply bind_raised. }
      split.
      * exists []. rewrite Hr, app_nil_r. cbn [fst]. split; [assumption|].
        now left.
      * intros sym' _ Hnone. congruence.
    + destruct (send_then_cases self
                  (setup_messages self sym (Interval_value interval) n_bars
                                  extended_session) (ret sym) s1)
        as [[j [s2 [e [Hj [Hsend [Hw2 Hfail]]]]]] | [s2 [Hsend Hw2]]].
      * (* a send raises *)
        assert (Hr : run = (s2, Raised e)).
        { rewrite Hrun. apply bind_raised.
          erewrite bind_returned by exact Hcon. exact Hsend. }
        split.
        -- exists (Connect :: map Send (firstn j (frames sym))).
           rewrite Hr. cbn [fst snd]. split.
           ++ rewrite Hw2, Hw1, <- app_assoc. reflexivity.
           ++ right. left. exists sym, j, e. repeat split; assumption.
        -- intros sym' Hsym _ Hok. exfalso.
           specialize (Hfail _ Hs1). cbn in Hfail. apply Hfail.
           apply Hok. exact Hj.
      * (* the nine frames are sent *)
        assert (Hr : run = get_hist_stream fuel sym s2).
        { rewrite Hrun.
          erewrite bind_returned; [reflexivity|].
          erewrite bind_returned by exact Hcon. exact Hsend. }
        destruct (get_hist_stream_wire fuel sym s2) as [n Hn].
        assert (Hw : wire (fst run)
                     = wire s ++ Connect :: map Send (frames sym)
                              ++ repeat Recv n).
        { rewrite Hr, Hn, Hw2, Hw1, <- !app_assoc. reflexivity. }
        split.
        -- eexists. split; [exact Hw|]. right. right. now exists sym, n.
        -- intros sym' Hsym _ _. injection Hsym as <-. now exists n.
  - (* no valid contract *)
    assert (Hr : run = (s, Raised e)) by (rewrite Hrun; reflexivity).
    split.
    + exists []. rewrite Hr, app_nil_r. split; [reflexivity | now left].
    + intros sym Hsym. discriminate.
  - assert (Hr : run = (s, OutOfFuel)) by (rewrite Hrun; reflexivity).
    split.
    + exists []. rewrite Hr, app_nil_r. split; [reflexivity | now left].
    + intros sym Hsym. discriminate.
Qed.

End Handshake.

Lemma get_hist_handshake_witness :
  format_symbol (py "NIFTY") (py "NSE") (CInt 1)
  = Returned (py "NSE:NIFTY1!")
  /\ map fst (setup_messages sample_client (py "NSE:NIFTY1!") (py "1D") 10
                             false) = setup_names
  /\ exists n,
      wire (fst (get_hist 0%Q Sample.float Sample.fromtimestamp sample_world
                          5 sample_client (py "NIFTY") (py "NSE") in_daily 10
                          (CInt 1) false sample_state))
      = wire sample_state
        ++ Connect
           :: map Send (setup_frames sample_client (py "NSE:NIFTY1!")
                                     (py "1D") 10 false)
           ++ repeat Recv n.
Proof.
  pose proof (@get_hist_handshake Q Q 0%Q Sample.float Sample.fromtimestamp
                sample_world 5 sample_client (py "NIFTY") (py "NSE")
                in_daily 10 (CInt 1) false sample_state) as H.
  cbv zeta in H. destruct H as [Hnames [_ Hok]].
  split; [reflexivity|]. split; [apply Hnames|].
  apply Hok; reflexivity.
Defined.

(** ** The token cache *)

Section TokenCache.

Variable json_loads : pystr -> option json.
Variable expanduser : pystr -> pystr.
Variable w : world.

Local Abbreviation load_token := (load_token json_loads w).
Local Abbreviation init := (init json_loads expanduser w).

(** [_load_token] returns, whatever the file is; it returns [None] when
    there is no file, when the file cannot be read and when its text is no
    JSON or no JSON object. *)
Lemma load_token_returns (path : pystr) (s : state) :
  exists s' v,
    load_token path s = (s', Returned v)
    /\ (trace s' = trace s \/ trace s' = trace s ++ [FileRead path])
    /\ ws s' = ws s /\ rng s' = rng s
    /\ (path_exists w path = false -> v = JNull)
    /\ (forall e, file_read w path = inl e -> v = JNull)
    /\ (forall text, file_read w path = inr text ->
                     json_loads text = None -> v = JNull)
    /\ (forall text x, file_read w path = inr text ->
                       json_loads text = Some x ->
                       (forall d, x <> JDict d) -> v = JNull).
Proof.
  unfold load_token.
  destruct (path_exists w path) eqn:Hex.
  - unfold try_except.
    erewrite bind_returned by apply emit_log.
    destruct (file_read w path) as [e|text] eqn:Hread.
    + do 2 eexists. split; [reflexivity|]. cbn.
      repeat split; try tauto; try discriminate.
    + destruct (json_loads text) as [x|] eqn:Hloads.
      * destruct x; do 2 eexists; (split; [reflexivity|]); cbn;
          (split; [tauto|]); (split; [reflexivity|]);
          (split; [reflexivity|]);
          (split; [discriminate|]); (split; [discriminate|]);
          (split; [intros t Ht; injection Ht as <-; congruence|]);
          intros t x Ht; injection Ht as <-; rewrite Hloads;
          intros Hx; injection Hx as <-; intros Hd;
          try reflexivity.
        exfalso. now apply (Hd d).
      * do 2 eexists. split; [reflexivity|]. cbn.
        repeat split; try tauto; try discriminate.
  - exists s, JNull. repeat split; try tauto.
Qed.

(** C8: when the cache file holds the JSON object with the token [abc], the
    client is built, with or without credentials, the cache file is read and
    nothing else is done (no request, no connection), and [get_token] gives
    [abc]; and [_load_token] raises in no case: without a file, on a read
    that fails and on a text that is no JSON object it returns [None], the
    absent token. *)
Theorem init_with_cached_token (username password : option pystr)
        (cache_file text : pystr) (s : state) :
  path_exists w (expanduser cache_file) = true ->
  file_read w (expanduser cache_file) = inr text ->
  json_loads text = Some (JDict [(py "token", JStr (py "abc"))]) ->
  (exists self,
      init username password cache_file s
      = (mkState (trace s ++ [FileRead (expanduser cache_file)]) None
                 (rng s + 12 + 12),
         Returned self)
      /\ token self = JStr (py "abc")
      /\ get_token self = JStr (py "abc"))
  /\ (forall path s0, exists s' v,
         load_token path s0 = (s', Returned v)
         /\ (path_exists w path = false -> v = JNull)
         /\ (forall e, file_read w path = inl e -> v = JNull)
         /\ (forall t, file_read w path = inr t ->
                       json_loads t = None -> v = JNull)
         /\ (forall t x, file_read w path = inr t ->
                         json_loads t = Some x ->
                         (forall d, x <> JDict d) -> v = JNull)).
Proof.
  intros Hex Hread Hloads. split.
  - eexists. split.
    + unfold init.
      erewrite bind_returned.
      2:{ unfold load_token. rewrite Hex. unfold try_except.
          erewrite bind_returned by apply emit_log.
          rewrite Hread, Hloads. reflexivity. }
      reflexivity.
    + split; reflexivity.
  - intros path s0.
    destruct (load_token_returns path s0)
      as [s' [v [H [_ [_ [_ [H1 [H2 [H3 H4]]]]]]]]].
    exists s', v. repeat split; assumption.
Qed.

End TokenCache.

Lemma init_with_cached_token_witness :
  Sample.loads (pyq "{'token': 'abc'}")
  = Some (JDict [(py "token", JStr (py "abc"))])
  /\ exists self,
      init Sample.loads Sample.expanduser sample_world None None
           (py "~/.tv_token.json") sample_state
      = (mkState [FileRead (py "~/.tv_token.json")] None 24, Returned self)
      /\ token self = JStr (py "abc")
      /\ get_token self = JStr (py "abc").
Proof.
  split; [vm_compute; reflexivity|].
  exact (proj1 (@init_with_cached_token Sample.loads Sample.expanduser
                  sample_world None None (py "~/.tv_token.json")
                  (pyq "{'token': 'abc'}") sample_state
                  eq_refl eq_refl eq_refl)).
Defined.

(** * Further properties *)

(** ** The monad, read backwards *)

Lemma bind_inv {A B} (c : M A) (k : A -> M B) (s s' : state) (b : B) :
  bind c k s = (s', Returned b) ->
  exists s1 a, c s = (s1, Returned a) /\ k a s1 = (s', Returned b).
Proof.
  unfold bind. destruct (c s) as [s1 [a|e|]]; try discriminate.
  intros H. now exists s1, a.
Qed.

Lemma bind_assoc {A B C} (c : M A) (k : A -> M B) (h : B -> M C) (s : state) :
  bind (bind c k) h s = bind c (fun a => bind (k a) h) s.
Proof. unfold bind. now destruct (c s) as [s1 [a|e|]]. Qed.

Lemma bind_ext {A B} (c : M A) (k k' : A -> M B) (s : state) :
  (forall a s1, k a s1 = k' a s1) -> bind c k s = bind c k' s.
Proof. intros H. unfold bind. destruct (c s) as [s1 [a|e|]]; auto. Qed.

Lemma bind_out_of_fuel_inv {A B} (c : M A) (k : A -> M B) (s s' : state) :
  bind c k s = (s', OutOfFuel) ->
  c s = (s', OutOfFuel)
  \/ exists s1 a, c s = (s1, Returned a) /\ k a s1 = (s', OutOfFuel).
Proof.
  unfold bind. destruct (c s) as [s1 [a|e|]]; try discriminate.
  - intros H. right. now exists s1, a.
  - intros H. left. now injection H as ->.
Qed.

(** ** Symbol formatting: when it raises *)

(** X1: formatting raises only on a symbol without [:] with a contract that
    is neither [None] nor an integer, and then it is the [ValueError] of an
    invalid contract; what it returns otherwise is the symbol itself when it
    holds a [:], and the exchange, [:], the symbol and a suffix that is empty
    without a contract when it holds none. *)
Theorem format_symbol_raises_iff (symbol exchange : pystr)
        (contract : contract_arg) :
  (forall e,
      format_symbol symbol exchange contract = Raised e
      <-> has_char 58%N symbol = false /\ contract = COther
          /\ e = ValueError (py "not a valid contract"))
  /\ format_symbol symbol exchange contract <> OutOfFuel
  /\ (forall formatted,
         format_symbol symbol exchange contract = Returned formatted ->
         (has_char 58%N symbol = true /\ formatted = symbol)
         \/ (has_char 58%N symbol = false
             /\ exists suffix,
                 formatted = exchange ++ py ":" ++ symbol ++ suffix
                 /\ (contract = CNone -> suffix = []))).
Proof.
  unfold format_symbol. destruct (has_char 58%N symbol) eqn:E.
  - split; [|split].
    + intros e. split; [discriminate | intros [H _]; discriminate].
    + discriminate.
    + intros f H. injection H as <-. now left.
  - split; [|split].
    + intros e. destruct contract; split; try discriminate;
        try (intros [_ [H _]]; discriminate).
      * intros H. injection H as <-. repeat split.
      * intros [_ [_ ->]]. reflexivity.
    + destruct contract; discriminate.
    + intros f H. right. split; [reflexivity|].
      destruct contract; try discriminate; injection H as <-.
      * exists []. now rewrite app_nil_r.
      * eexists. split; [reflexivity | discriminate].
      * eexists. split; [reflexivity | discriminate].
Qed.

(** ** The header on any string *)

Lemma utf8_width_spec (c : char) :
  1 <= utf8_width c /\ (utf8_width c = 1 <-> (c < 128)%N).
Proof.
  unfold utf8_width.
  destruct (N.ltb_spec c 128); [split; [lia | tauto]|].
  destruct (c <? 2048)%N; [split; [lia | split; [discriminate | lia]]|].
  destruct (c <? 65536)%N; split; try lia; split; try discriminate; lia.
Qed.

Lemma utf8_length_ge (s : pystr) : length s <= utf8_length s.
Proof.
  unfold utf8_length, list_sum. induction s as [|c s IH]; [reflexivity|].
  cbn [map fold_right length]. destruct (utf8_width_spec c). lia.
Qed.

(** X2: [__prepend_header] declares the number of characters of the string,
    which is read back from the frame; this number is never more than the
    number of bytes of the string, and it is that number exactly when every
    character of the string is an ASCII character. *)
Theorem prepend_header_length (st : pystr) :
  read_header (prepend_header st) = Some (length st, st)
  /\ length st <= utf8_length st
  /\ (length st = utf8_length st <-> is_ascii st).
Proof.
  split; [apply read_header_prepend|]. split; [apply utf8_length_ge|].
  split; [|intros H; symmetry; now apply utf8_length_ascii].
  induction st as [|c st IH]; [constructor|].
  unfold utf8_length, list_sum in *. cbn [map fold_right length].
  intros H. pose proof (utf8_length_ge st) as Hge.
  unfold utf8_length, list_sum in Hge.
  destruct (utf8_width_spec c) as [H1 H2].
  constructor; [apply H2; lia | apply IH; lia].
Qed.

(** ** The interval codes *)

(** X3: two intervals with the same code are the same interval. *)
Theorem Interval_value_injective (i j : Interval) :
  Interval_value i = Interval_value j -> i = j.
Proof.
  destruct i, j; intros H; try reflexivity; vm_compute in H; discriminate.
Qed.

Lemma Interval_value_injective_witness :
  Interval_value in_1_hour = py "1H" /\ in_1_hour = in_1_hour.
Proof.
  split; [reflexivity|].
  exact (@Interval_value_injective in_1_hour in_1_hour eq_refl).
Defined.

(** ** The session identifiers *)

Lemma escape_char_plain (c : char) : plain c -> Json.escape_char c = [c].
Proof.
  intros [[H1 H2] [H3 H4]]. unfold Json.escape_char.
  repeat match goal with
  | |- context [(c =? ?k)%N] =>
      destruct (N.eqb_spec c k); [exfalso; subst c; first [lia | congruence]|]
  end.
  apply N.leb_le in H1, H2. now rewrite H1, H2.
Qed.

(** A string of plain characters is written between two quotes as it is. *)
Lemma encode_basestring_plain (s : pystr) :
  Forall plain s -> Json.encode_basestring_ascii s = dquote :: s ++ [dquote].
Proof.
  intros H. unfold Json.encode_basestring_ascii. cbn [app]. f_equal. f_equal.
  induction H as [|c s Hc _ IH]; [reflexivity|].
  cbn [flat_map]. now rewrite escape_char_plain, IH.
Qed.

Lemma ascii_lowercase_letter (k : nat) :
  (97 <= nth (k mod 26) ascii_lowercase 0 <= 122)%N.
Proof.
  pose proof (Nat.mod_upper_bound k 26 ltac:(discriminate)) as H.
  generalize dependent (k mod 26). intros m Hm.
  do 26 (destruct m as [|m]; [vm_compute; split; discriminate|]).
  lia.
Qed.

(** X4: a session identifier is its prefix, [qs_] or [cs_], and twelve
    lower-case letters, for any answers of the random generator; twelve
    draws are used, and the identifier goes into a frame between two quotes
    as it is. *)
Theorem generate_session_shape (w : world) (s : state) :
  exists r,
    generate_session w s
    = (mkState (trace s) (ws s) (rng s + 12), Returned (py "qs_" ++ r))
    /\ generate_chart_session w s
       = (mkState (trace s) (ws s) (rng s + 12), Returned (py "cs_" ++ r))
    /\ length r = 12
    /\ Forall (fun c => (97 <= c <= 122)%N) r
    /\ Json.dumps (py ",") (py ":") (JStr (py "qs_" ++ r))
       = dquote :: (py "qs_" ++ r) ++ [dquote]
    /\ Json.dumps (py ",") (py ":") (JStr (py "cs_" ++ r))
       = dquote :: (py "cs_" ++ r) ++ [dquote].
Proof.
  eexists. split; [reflexivity|]. split; [reflexivity|].
  assert (Hr : Forall (fun c => (97 <= c <= 122)%N)
                 (map (fun i => nth (random_choice w (rng s + i) mod 26)
                                    ascii_lowercase 0%N) (seq 0 12))).
  { apply Forall_forall. intros c Hc. apply in_map_iff in Hc.
    destruct Hc as [i [<- _]]. apply ascii_lowercase_letter. }
  split; [now rewrite length_map, length_seq|]. split; [exact Hr|].
  assert (Hplain : forall prefix,
             Forall plain (py prefix) ->
             Forall plain
               (py prefix
                ++ map (fun i => nth (random_choice w (rng s + i) mod 26)
                                     ascii_lowercase 0%N) (seq 0 12))).
  { intros prefix Hp. apply Forall_app. split; [exact Hp|].
    eapply Forall_impl; [|exact Hr].
    intros c Hc. cbv beta in Hc. unfold plain. repeat split; lia. }
  split; cbn [Json.dumps]; apply encode_basestring_plain, Hplain;
    repeat constructor; try (vm_compute; discriminate); discriminate.
Qed.

(** ** The bar parser on any stream *)

Lemma try_except_inv {A} (c : M A) (caught : exn -> bool) (h : exn -> M A)
      (s s' : state) (a : A) :
  try_except c caught h s = (s', Returned a) ->
  c s = (s', Returned a)
  \/ exists s1 e, c s = (s1, Raised e) /\ caught e = true
                  /\ h e s1 = (s', Returned a).
Proof.
  unfold try_except. destruct (c s) as [s1 [x|e|]]; try discriminate.
  - intros H. now left.
  - destruct (caught e) eqn:E; [|discriminate].
    intros H. right. now exists s1, e.
Qed.

Section ParserFurther.

Variables (F DT : Type).
Variable zero : F.
Variable py_float : pystr -> option F.
Variable fromtimestamp : F -> exn + DT.

Local Abbreviation create_df := (create_df zero py_float fromtimestamp).
Local Abbreviation field_step := (field_step zero py_float).
Local Abbreviation fields_loop := (fields_loop zero py_float).
Local Abbreviation record_step := (record_step zero py_float fromtimestamp).
Local Abbreviation records_loop :=
  (records_loop zero py_float fromtimestamp).
Local Abbreviation records_run := (records_run zero py_float fromtimestamp).
Local Abbreviation number := (number py_float).
Local Abbreviation lenient := (lenient zero py_float).
Local Abbreviation refusal := (refusal py_float).
Local Abbreviation accepted := (accepted py_float).
Local Abbreviation timestamp := (timestamp py_float fromtimestamp).
Local Abbreviation full_bar := (full_bar py_float fromtimestamp).
Local Abbreviation row_volume := (row_volume zero).

(** One field appends one float; a cleared flag stays cleared, and the
    volume is then [0.0]. *)
Lemma field_step_shape (xi : list pystr) (i : nat) (vd vd' : bool)
      (row row' : list F) (s s' : state) :
  field_step xi i (vd, row) s = (s', Returned (vd', row')) ->
  exists v, row' = row ++ [v]
            /\ (vd = false -> vd' = false)
            /\ (vd = false -> i = 9 -> v = zero).
Proof.
  unfold field_step.
  destruct (negb vd && (i =? 9)) eqn:E.
  - intros H. injection H as _ <- <-. exists zero.
    split; [reflexivity|]. split; [auto | reflexivity].
  - unfold try_except, bind, float_at.
    destruct (nth_error xi i) as [tok|]; [|discriminate].
    destruct (py_float tok) as [v|]; cbn; intros H; injection H as _ <- <-.
    + exists v. split; [reflexivity|]. split; [auto|].
      intros -> ->. discriminate E.
    + exists zero. split; [reflexivity|]. split; reflexivity.
Qed.

(** A record that parses gives a row of five floats after its timestamp;
    with the flag cleared its volume is [0.0] and the flag stays cleared. *)
Lemma record_step_shape (r : pystr) (vd vd' : bool) (row : DT * list F)
      (s s' : state) :
  record_step r vd s = (s', Returned (vd', row)) ->
  timestamp r = Some (fst row)
  /\ length (snd row) = 5
  /\ (vd = false -> vd' = false /\ row_volume row = zero).
Proof.
  unfold record_step. intros H.
  apply bind_inv in H. destruct H as [s1 [t [Ht H]]].
  assert (Hnum : number r 4 = Some t).
  { unfold float_at in Ht. unfold number, token_at.
    destruct (nth_error (Re.split_fields r) 4) as [tok|]; [|discriminate].
    destruct (py_float tok); [|discriminate]. now injection Ht as _ <-. }
  destruct (fromtimestamp t) as [e|d] eqn:Hd; [discriminate|].
  apply bind_inv in H. destruct H as [s2 [[vd9 row9] [Hloop H]]].
  injection H as _ <- <-. cbn [fst snd].
  cbn [fields_loop seq] in Hloop.
  apply bind_inv in Hloop. destruct Hloop as [s5 [[v5 r5] [H5 Hloop]]].
  apply bind_inv in Hloop. destruct Hloop as [s6 [[v6 r6] [H6 Hloop]]].
  apply bind_inv in Hloop. destruct Hloop as [s7 [[v7 r7] [H7 Hloop]]].
  apply bind_inv in Hloop. destruct Hloop as [s8 [[v8 r8] [H8 Hloop]]].
  apply bind_inv in Hloop. destruct Hloop as [s9 [[v9 r9] [H9 Hloop]]].
  injection Hloop as _ <- <-.
  apply field_step_shape in H5, H6, H7, H8, H9.
  destruct H5 as [x5 [-> [F5 _]]]. destruct H6 as [x6 [-> [F6 _]]].
  destruct H7 as [x7 [-> [F7 _]]]. destruct H8 as [x8 [-> [F8 _]]].
  destruct H9 as [x9 [-> [F9 Z9]]].
  split; [|split].
  - unfold timestamp. now rewrite Hnum, Hd.
  - reflexivity.
  - intros ->. split; [apply F9, F8, F7, F6, F5; reflexivity|].
    unfold row_volume. cbn.
    apply Z9; [apply F8, F7, F6, F5; reflexivity | reflexivity].
Qed.

Lemma records_loop_run (x : list pystr) (vd : bool)
      (data : list (DT * list F)) (s : state) :
  records_loop x vd data s
  = bind (records_run x vd data) (fun p => ret (snd p)) s.
Proof.
  revert vd data s. induction x as [|xi x IH]; intros vd data s;
    cbn [records_loop records_run]; [reflexivity|].
  rewrite bind_assoc. apply bind_ext. intros a s1. apply IH.
Qed.

Lemma records_run_app (a b : list pystr) (vd : bool)
      (data : list (DT * list F)) (s : state) :
  records_run (a ++ b) vd data s
  = bind (records_run a vd data)
         (fun p => records_run b (fst p) (snd p)) s.
Proof.
  revert vd data s. induction a as [|xi a IH]; intros vd data s;
    cbn [app records_run]; [reflexivity|].
  rewrite bind_assoc. apply bind_ext. intros r s1. apply IH.
Qed.

(** The rows of a loop that returns: one a record, of five floats each,
    after the rows it started with; from a cleared flag, every volume is
    [0.0]. *)
Lemma records_run_shape (x : list pystr) :
  forall (vd vd' : bool) (data data' : list (DT * list F)) (s s' : state),
    records_run x vd data s = (s', Returned (vd', data')) ->
    exists rows,
      data' = data ++ rows
      /\ length rows = length x
      /\ Forall (fun row => length (snd row) = 5) rows
      /\ (vd = false ->
          vd' = false /\ Forall (fun row => row_volume row = zero) rows).
Proof.
  induction x as [|xi x IH]; intros vd vd' data data' s s' H;
    cbn [records_run] in H.
  - injection H as _ <- <-. exists []. rewrite app_nil_r.
    repeat split; auto.
  - apply bind_inv in H. destruct H as [s1 [[vd1 row] [Hr H]]].
    cbn [fst snd] in H. apply IH in H.
    destruct H as [rows [-> [Hlen [Hfive Hzero]]]].
    apply record_step_shape in Hr. destruct Hr as [_ [H5 Hz]].
    exists (row :: rows). rewrite <- app_assoc. split; [reflexivity|].
    split; [cbn; lia|]. split; [now constructor|].
    intros Hvd. destruct (Hz Hvd) as [-> Hrow].
    destruct (Hzero eq_refl) as [-> Hrows]. split; [reflexivity|].
    now constructor.
Qed.

(** Rows of five floats always make a frame: one bar a row, with the
    symbol, and the volume of the row. *)
Lemma to_bars_rows (symbol : pystr) (data : list (DT * list F)) :
  Forall (fun row => length (snd row) = 5) data ->
  exists df,
    to_bars symbol data = Some df
    /\ length df = length data
    /\ Forall (fun b => bar_symbol b = symbol) df
    /\ Forall2 (fun row b => bar_volume b = row_volume row) data df.
Proof.
  induction 1 as [|[d fs] data Hrow _ [df [Hdf [Hlen [Hsym Hvol]]]]].
  - exists []. repeat split; constructor.
  - cbn [snd] in Hrow.
    destruct fs as [|o [|h [|l [|c [|v [|]]]]]]; try discriminate.
    exists (mkBar d symbol o h l c v :: df). cbn [to_bars to_bar].
    rewrite Hdf. repeat split; try (constructor; auto). cbn. now rewrite Hlen.
Qed.

(** What a parse that returns a frame has gone through. *)
Lemma create_df_returns (raw_data symbol : pystr) (s s' : state)
      (df : list (bar F DT)) :
  create_df raw_data symbol s = (s', Returned (Some df)) ->
  exists out vd data,
    Re.search_series raw_data = Some out
    /\ records_run (Re.split (pyq ",{'") out) true [] s
       = (s', Returned (vd, data))
    /\ to_bars symbol data = Some df.
Proof.
  unfold create_df. intros H. apply try_except_inv in H.
  destruct H as [H | [s1 [e [_ [_ H]]]]].
  - destruct (Re.search_series raw_data) as [out|]; [|discriminate].
    apply bind_inv in H. destruct H as [s1 [data [Hloop H]]].
    apply bind_inv in H. destruct H as [s2 [df' [Hdf H]]].
    injection H as <- <-.
    rewrite records_loop_run in Hloop. apply bind_inv in Hloop.
    destruct Hloop as [s3 [[vd data'] [Hrun Hret]]].
    injection Hret as <- <-. cbn [snd] in Hdf.
    unfold DataFrame in Hdf.
    destruct (to_bars symbol data') as [df''|] eqn:Hb; [|discriminate].
    injection Hdf as <- <-. now exists out, vd, data'.
  - apply bind_inv in H. destruct H as [s2 [u [_ H]]]. discriminate.
Qed.

(** The rows of a loop that returns stand in the order of the records, each
    with the timestamp of its record. *)
Lemma records_run_timestamps (x : list pystr) :
  forall (vd vd' : bool) (data data' : list (DT * list F)) (s s' : state),
    records_run x vd data s = (s', Returned (vd', data')) ->
    exists rows,
      data' = data ++ rows
      /\ Forall2 (fun r row => timestamp r = Some (fst row)) x rows.
Proof.
  induction x as [|xi x IH]; intros vd vd' data data' s s' H;
    cbn [records_run] in H.
  - injection H as _ <- <-. exists []. rewrite app_nil_r.
    split; [reflexivity | constructor].
  - apply bind_inv in H. destruct H as [s1 [[vd1 row] [Hr H]]].
    cbn [fst snd] in H. apply IH in H. destruct H as [rows [-> Hrows]].
    apply record_step_shape in Hr. destruct Hr as [Hts _].
    exists (row :: rows). rewrite <- app_assoc.
    split; [reflexivity | now constructor].
Qed.

Lemma to_bars_datetimes (symbol : pystr) (data : list (DT * list F)) :
  forall df,
    to_bars symbol data = Some df ->
    Forall2 (fun row b => bar_datetime b = fst row) data df.
Proof.
  induction data as [|[d fs] data IH]; intros df H; cbn [to_bars] in H.
  - injection H as <-. constructor.
  - destruct (to_bar symbol (d, fs)) as [b|] eqn:Hb; [|discriminate].
    destruct (to_bars symbol data) as [bs|]; [|discriminate].
    injection H as <-. constructor; [|now apply IH].
    unfold to_bar in Hb.
    destruct fs as [|o [|h [|l [|c [|v [|]]]]]]; try discriminate.
    now injection Hb as <-.
Qed.

Lemma Forall2_compose {A B C} (R : A -> B -> Prop) (S : B -> C -> Prop)
      (T : A -> C -> Prop) (la : list A) (lb : list B) (lc : list C) :
  (forall a b c, R a b -> S b c -> T a c) ->
  Forall2 R la lb -> Forall2 S lb lc -> Forall2 T la lc.
Proof.
  intros H HR. revert lc.
  induction HR as [|a b la lb Hab _ IH]; intros lc HS;
    inversion HS; subst; constructor; eauto.
Qed.

(** X5: a frame the parser returns has one bar for each record of the
    series block, in particular at least one; the bars stand in the order
    of the records, each with the timestamp of its record, and every bar
    has the symbol that was passed. *)
Theorem create_df_frame (raw_data symbol : pystr) (s s' : state)
        (df : list (bar F DT)) :
  create_df raw_data symbol s = (s', Returned (Some df)) ->
  exists out,
    Re.search_series raw_data = Some out
    /\ length df = length (Re.split (pyq ",{'") out)
    /\ df <> []
    /\ Forall2 (fun r b => timestamp r = Some (bar_datetime b))
               (Re.split (pyq ",{'") out) df
    /\ Forall (fun b => bar_symbol b = symbol) df.
Proof.
  intros H. apply create_df_returns in H.
  destruct H as [out [vd [data [Hout [Hrun Hdf]]]]].
  pose proof (records_run_timestamps _ _ _ _ Hrun) as [rows' [Hd' Hts]].
  apply records_run_shape in Hrun.
  destruct Hrun as [rows [-> [Hlen [Hfive _]]]]. cbn [app] in Hdf, Hd'.
  subst rows'.
  destruct (to_bars_rows symbol Hfive) as [df' [Hdf' [Hl [Hsym _]]]].
  rewrite Hdf in Hdf'. injection Hdf' as <-.
  exists out. split; [assumption|]. split; [congruence|].
  split; [|split; [|assumption]].
  - intros ->. cbn in Hl.
    pose proof (@split_from_not_nil (pyq ",{'") 0 out) as Hne.
    unfold Re.split in Hlen. destruct (Re.split_from _ 0 out); [congruence|].
    cbn in Hlen. lia.
  - eapply Forall2_compose; [|exact Hts | exact (to_bars_datetimes _ _ Hdf)].
    intros r row b Hr Hb. cbv beta in *. now rewrite Hb.
Qed.

Lemma Forall2_nth_error_r {A B} (R : A -> B -> Prop) (l : list A)
      (l' : list B) :
  Forall2 R l l' ->
  forall j b, nth_error l' j = Some b ->
              exists a, nth_error l j = Some a /\ R a b.
Proof.
  induction 1 as [|a b l l' Hab _ IH]; intros j x Hj.
  - destruct j; discriminate.
  - destruct j as [|j]; cbn in *.
    + injection Hj as <-. now exists a.
    + now apply IH.
Qed.

Lemma refused_not_accepted (r : pystr) (i : nat) :
  5 <= i <= 8 -> number r i = None ->
  accepted r 5 && accepted r 6 && accepted r 7 && accepted r 8 = false.
Proof.
  intros Hi Hnum.
  assert (Hai : accepted r i = false) by (unfold accepted; now rewrite Hnum).
  assert (Hc : i = 5 \/ i = 6 \/ i = 7 \/ i = 8) by lia.
  destruct Hc as [-> | [-> | [-> | ->]]]; rewrite Hai;
    now rewrite ?andb_false_r.
Qed.

(** X6: the flag is never set again. In any frame the parser returns, when
    [float] refuses a token at one of the positions 5 to 8 of a record, the
    bar of that record and every bar after it have volume [0.0], whatever
    the other records are. *)
Theorem create_df_volume_forward_only (raw_data symbol out : pystr)
        (pre : list pystr) (r : pystr) (post : list pystr) (i : nat)
        (s s' : state) (df : list (bar F DT)) :
  Re.search_series raw_data = Some out ->
  Re.split (pyq ",{'") out = pre ++ r :: post ->
  8 < length (Re.split_fields r) ->
  5 <= i <= 8 -> number r i = None ->
  create_df raw_data symbol s = (s', Returned (Some df)) ->
  length df = length pre + S (length post)
  /\ forall j b, length pre <= j -> nth_error df j = Some b ->
                 bar_volume b = zero.
Proof.
  intros Hout Hsplit Hlen Hi Hnum H.
  apply create_df_returns in H.
  destruct H as [out' [vd [data [Hout' [Hrun Hdf]]]]].
  rewrite Hout in Hout'. injection Hout' as <-.
  rewrite Hsplit, records_run_app in Hrun.
  apply bind_inv in Hrun.
  destruct Hrun as [s1 [[vd1 rows_pre] [Hpre Hrun]]].
  cbn [fst snd records_run] in Hrun.
  apply bind_inv in Hrun. destruct Hrun as [s2 [[vd2 row] [Hr Hpost]]].
  cbn [fst snd] in Hpost.
  apply records_run_shape in Hpre.
  destruct Hpre as [rows [Hrows [Hlpre [Hfpre _]]]].
  cbn [app] in Hrows. subst rows_pre.
  pose proof (record_step_shape _ _ _ Hr) as [Hts [Hrow5 _]].
  rewrite (record_step_refused zero py_float fromtimestamp r vd1 s1 Hts Hlen
             (refused_not_accepted r Hi Hnum)) in Hr.
  injection Hr as _ Hvd Hrow. subst vd2.
  assert (Hzrow : row_volume row = zero) by (now rewrite <- Hrow).
  apply records_run_shape in Hpost.
  destruct Hpost as [rows_post [-> [Hlpost [Hfpost Hzero]]]].
  destruct (Hzero eq_refl) as [_ Hzpost].
  rewrite <- app_assoc in Hdf. cbn [app] in Hdf.
  assert (Hfive : Forall (fun row => length (snd row) = 5)
                         (rows ++ row :: rows_post)).
  { apply Forall_app. split; [assumption|]. now constructor. }
  destruct (to_bars_rows symbol Hfive) as [df' [Hdf' [Hl [_ Hvol]]]].
  rewrite Hdf in Hdf'. injection Hdf' as <-.
  split.
  - rewrite Hl, length_app. cbn [length]. lia.
  - intros j b Hj Hb.
    destruct (Forall2_nth_error_r Hvol _ Hb) as [row' [Hrow' ->]].
    rewrite nth_error_app2 in Hrow' by lia.
    apply nth_error_In in Hrow'. destruct Hrow' as [<- | Hin].
    + assumption.
    + rewrite Forall_forall in Hzpost. now apply Hzpost.
Qed.

(** A record that raises, after records with their six numbers, makes the
    parser raise as long as the exception is no [AttributeError]. *)
Lemma create_df_raises (raw_data symbol out : pystr) (pre : list pystr)
      (r : pystr) (post : list pystr) (bars_pre : list (bar F DT))
      (s s1 : state) (e : exn) :
  Re.search_series raw_data = Some out ->
  Re.split (pyq ",{'") out = pre ++ r :: post ->
  Forall2 (full_bar symbol) pre bars_pre ->
  record_step r true s = (s1, Raised e) ->
  is_AttributeError e = false ->
  create_df raw_data symbol s = (s1, Raised e).
Proof.
  intros Hout Hsplit Hpre Hr He.
  unfold create_df, try_except. rewrite Hout, Hsplit.
  unfold bind at 1.
  erewrite records_loop_full by exact Hpre.
  cbn [records_loop].
  erewrite bind_raised by exact Hr. now rewrite He.
Qed.

Lemma field_step_missing (xi : list pystr) (i : nat) (vd : bool)
      (row : list F) (s : state) :
  length xi <= i -> i <> 9 ->
  field_step xi i (vd, row) s = (s, Raised IndexError).
Proof.
  intros Hlen Hi. unfold field_step.
  apply Nat.eqb_neq in Hi. rewrite Hi, andb_false_r.
  unfold try_except, bind, float_at.
  apply nth_error_None in Hlen. now rewrite Hlen.
Qed.

(** A record of fewer than nine tokens raises [IndexError]: at its
    timestamp when it has less than five tokens, at the first field that is
    not there otherwise. *)
Lemma record_step_short (r : pystr) (vd : bool) (s : state) :
  length (Re.split_fields r) < 9 ->
  length (Re.split_fields r) <= 4 \/ (exists d, timestamp r = Some d) ->
  exists s1, record_step r vd s = (s1, Raised IndexError).
Proof.
  intros Hlen [Hfour | [d Hts]].
  - exists s. unfold record_step. apply bind_raised.
    unfold float_at. apply nth_error_None in Hfour. now rewrite Hfour.
  - rewrite (record_step_unfold _ _ _ _ _ _ Hts). cbn [fields_loop seq].
    destruct (timestamp_number _ _ _ Hts) as [t [Ht _]].
    pose proof (number_length _ _ _ Ht) as H4.
    assert (Hc : length (Re.split_fields r) = 5
                 \/ length (Re.split_fields r) = 6
                 \/ length (Re.split_fields r) = 7
                 \/ length (Re.split_fields r) = 8) by lia.
    destruct Hc as [Hc | [Hc | [Hc | Hc]]];
      (eexists; apply bind_raised;
       repeat (erewrite bind_returned
                 by (apply field_step_lenient; [discriminate | lia]));
       apply bind_raised; apply field_step_missing; [lia | discriminate]).
Qed.

(** X7: a record of fewer than nine tokens, with a timestamp when it has
    five tokens or more, makes the parser raise [IndexError], also after
    records that parse; the exception leaves the parser, no frame is
    returned and no absence of data is reported. *)
Theorem create_df_short_record (raw_data symbol out : pystr)
        (pre : list pystr) (r : pystr) (post : list pystr)
        (bars_pre : list (bar F DT)) (s : state) :
  Re.search_series raw_data = Some out ->
  Re.split (pyq ",{'") out = pre ++ r :: post ->
  Forall2 (full_bar symbol) pre bars_pre ->
  length (Re.split_fields r) < 9 ->
  length (Re.split_fields r) <= 4 \/ (exists d, timestamp r = Some d) ->
  snd (create_df raw_data symbol s) = Raised IndexError.
Proof.
  intros Hout Hsplit Hpre Hlen Hts.
  destruct (@record_step_short r true s Hlen Hts) as [s1 Hr].
  now rewrite (@create_df_raises raw_data symbol out pre r post bars_pre s s1
                 IndexError Hout Hsplit Hpre Hr eq_refl).
Qed.

(** X8: a timestamp is not forgiven. When [float] refuses the token at
    position 4 of a record the parser raises the [ValueError] of [float],
    and when the number is there and [fromtimestamp] raises, the parser
    raises that exception (unless it is an [AttributeError]); nothing is
    logged. *)
Theorem create_df_bad_timestamp (raw_data symbol out : pystr)
        (pre : list pystr) (r : pystr) (post : list pystr) (tok : pystr)
        (bars_pre : list (bar F DT)) (s : state) :
  Re.search_series raw_data = Some out ->
  Re.split (pyq ",{'") out = pre ++ r :: post ->
  Forall2 (full_bar symbol) pre bars_pre ->
  token_at r 4 = Some tok ->
  (py_float tok = None ->
   create_df raw_data symbol s = (s, Raised float_error))
  /\ (forall t e,
         py_float tok = Some t -> fromtimestamp t = inl e ->
         is_AttributeError e = false ->
         create_df raw_data symbol s = (s, Raised e)).
Proof.
  intros Hout Hsplit Hpre Htok. unfold token_at in Htok. split.
  - intros Hf.
    apply (@create_df_raises raw_data symbol out pre r post bars_pre s s
             float_error Hout Hsplit Hpre); [|reflexivity].
    unfold record_step. apply bind_raised.
    unfold float_at. now rewrite Htok, Hf.
  - intros t e Hf He Hattr.
    apply (@create_df_raises raw_data symbol out pre r post bars_pre s s e
             Hout Hsplit Hpre); [|assumption].
    unfold record_step.
    erewrite bind_returned
      by (unfold float_at; rewrite Htok, Hf; reflexivity).
    now rewrite He.
Qed.

Lemma bind_raised_inv {A B} (c : M A) (k : A -> M B) (s s' : state)
      (e : exn) :
  bind c k s = (s', Raised e) ->
  c s = (s', Raised e)
  \/ exists s1 a, c s = (s1, Returned a) /\ k a s1 = (s', Raised e).
Proof.
  unfold bind. destruct (c s) as [s1 [a|e'|]]; try discriminate.
  - intros H. right. now exists s1, a.
  - intros H. left. now injection H as -> ->.
Qed.

(** A field raises [IndexError] only: the [ValueError] of [float] is
    caught. *)
Lemma field_step_raises (xi : list pystr) (i : nat) (st : bool * list F)
      (s s' : state) (e : exn) :
  field_step xi i st s = (s', Raised e) -> e = IndexError.
Proof.
  unfold field_step. destruct st as [vd row].
  destruct (negb vd && (i =? 9)); [discriminate|].
  unfold try_except, bind, float_at.
  destruct (nth_error xi i) as [tok|].
  - destruct (py_float tok); cbn; discriminate.
  - cbn. intros H. now injection H as _ <-.
Qed.

Lemma fields_loop_raises (xi : list pystr) (idxs : list nat) :
  forall (st : bool * list F) (s s' : state) (e : exn),
    fields_loop xi idxs st s = (s', Raised e) -> e = IndexError.
Proof.
  induction idxs as [|i idxs IH]; intros st s s' e H; cbn [fields_loop] in H.
  - discriminate.
  - apply bind_raised_inv in H. destruct H as [H | [s1 [a [_ H]]]].
    + now apply field_step_raises in H.
    + now apply IH in H.
Qed.

(** What a record can raise: [IndexError], the [ValueError] of [float] on
    its timestamp, or what [fromtimestamp] raises. *)
Lemma record_step_raises (r : pystr) (vd : bool) (s s' : state) (e : exn) :
  record_step r vd s = (s', Raised e) ->
  e = IndexError \/ e = float_error \/ exists t, fromtimestamp t = inl e.
Proof.
  unfold record_step. intros H.
  apply bind_raised_inv in H. destruct H as [H | [s1 [t [_ H]]]].
  - unfold float_at in H.
    destruct (nth_error (Re.split_fields r) 4) as [tok|].
    + destruct (py_float tok); [discriminate|].
      right. left. now injection H as _ <-.
    + left. now injection H as _ <-.
  - destruct (fromtimestamp t) as [e'|d] eqn:Hd.
    + right. right. exists t. injection H as _ <-. exact Hd.
    + apply bind_raised_inv in H. destruct H as [H | [s2 [a [_ H]]]].
      * left. now apply fields_loop_raises in H.
      * discriminate.
Qed.

Lemma records_loop_raises (x : list pystr) :
  forall (vd : bool) (data : list (DT * list F)) (s s' : state) (e : exn),
    records_loop x vd data s = (s', Raised e) ->
    e = IndexError \/ e = float_error \/ exists t, fromtimestamp t = inl e.
Proof.
  induction x as [|xi x IH]; intros vd data s s' e H;
    cbn [records_loop] in H.
  - discriminate.
  - apply bind_raised_inv in H. destruct H as [H | [s1 [a [_ H]]]].
    + now apply record_step_raises in H.
    + now apply IH in H.
Qed.

(** The parser has no loop that could run out of fuel. *)
Lemma fields_loop_fuel (xi : list pystr) (idxs : list nat) :
  forall (st : bool * list F) (s s' : state),
    fields_loop xi idxs st s <> (s', OutOfFuel).
Proof.
  induction idxs as [|i idxs IH]; intros st s s' H; cbn [fields_loop] in H.
  - discriminate.
  - apply bind_out_of_fuel_inv in H. destruct H as [H | [s1 [a [_ H]]]].
    + unfold field_step in H. destruct st as [vd row].
      destruct (negb vd && (i =? 9)); [discriminate|].
      unfold try_except, bind, float_at in H.
      destruct (nth_error xi i) as [tok|]; [|discriminate].
      destruct (py_float tok); discriminate.
    + now apply IH in H.
Qed.

Lemma records_loop_fuel (x : list pystr) :
  forall (vd : bool) (data : list (DT * list F)) (s s' : state),
    records_loop x vd data s <> (s', OutOfFuel).
Proof.
  induction x as [|xi x IH]; intros vd data s s' H; cbn [records_loop] in H.
  - discriminate.
  - apply bind_out_of_fuel_inv in H. destruct H as [H | [s1 [a [_ H]]]].
    + unfold record_step in H.
      apply bind_out_of_fuel_inv in H. destruct H as [H | [s2 [t [_ H]]]].
      * unfold float_at in H.
        destruct (nth_error (Re.split_fields xi) 4) as [tok|];
          [|discriminate].
        destruct (py_float tok); discriminate.
      * destruct (fromtimestamp t) as [e'|d]; [discriminate|].
        apply bind_out_of_fuel_inv in H.
        destruct H as [H | [s3 [b [_ H]]]]; [|discriminate].
        now apply fields_loop_fuel in H.
    + now apply IH in H.
Qed.

(** X9: the absence of data is reported for no other stream. As long as
    [fromtimestamp] raises no [AttributeError], the parser logs its error
    and returns [None] exactly when the stream holds no series block; on a
    stream with a block, however malformed, it returns a frame or raises. *)
Theorem create_df_no_data_iff (raw_data symbol : pystr) (s : state) :
  (forall t e, fromtimestamp t = inl e -> is_AttributeError e = false) ->
  (snd (create_df raw_data symbol s) = Returned None
   <-> forall g, ~ series_block raw_data g)
  /\ (forall out,
         Re.search_series raw_data = Some out ->
         (exists df, snd (create_df raw_data symbol s) = Returned (Some df))
         \/ (exists e, snd (create_df raw_data symbol s) = Raised e
                       /\ is_AttributeError e = false)).
Proof.
  intros Hts.
  assert (Hblock : forall out,
             Re.search_series raw_data = Some out ->
             (exists df,
                 snd (create_df raw_data symbol s) = Returned (Some df))
             \/ (exists e, snd (create_df raw_data symbol s) = Raised e
                           /\ is_AttributeError e = false)).
  { intros out Hout. unfold create_df, try_except. rewrite Hout.
    match goal with
    | |- context [match ?c s with _ => _ end] =>
        destruct (c s) as [s1 [a|e|]] eqn:E
    end.
    - left. apply bind_inv in E. destruct E as [s2 [data [_ E]]].
      apply bind_inv in E. destruct E as [s3 [df [_ E]]].
      injection E as _ <-. now exists df.
    - right. exists e.
      assert (He : is_AttributeError e = false).
      { apply bind_raised_inv in E. destruct E as [E | [s2 [data [_ E]]]].
        - apply records_loop_raises in E.
          destruct E as [-> | [-> | [t Ht]]]; try reflexivity.
          now apply (Hts t).
        - apply bind_raised_inv in E. destruct E as [E | [s3 [df [_ E]]]].
          + unfold DataFrame in E.
            destruct (to_bars symbol data); [discriminate|].
            now injection E as _ <-.
          + discriminate. }
      rewrite He. split; reflexivity.
    - exfalso. apply bind_out_of_fuel_inv in E.
      destruct E as [E | [s2 [data [_ E]]]].
      + now apply records_loop_fuel in E.
      + apply bind_out_of_fuel_inv in E.
        destruct E as [E | [s3 [df [_ E]]]]; [|discriminate].
        unfold DataFrame in E. destruct (to_bars symbol data); discriminate. }
  split; [|exact Hblock]. split.
  - intros Hnone. apply search_series_None_iff.
    destruct (Re.search_series raw_data) as [out|] eqn:Hout; [|reflexivity].
    destruct (Hblock out eq_refl) as [[df Hdf] | [e [He _]]];
      rewrite Hnone in *; discriminate.
  - intros Hno. apply search_series_None_iff in Hno.
    unfold create_df, try_except. now rewrite Hno.
Qed.

End ParserFurther.

(** ** The series block and the lines of the buffer *)

Lemma lazy_until_close_line (x y : pystr) :
  Re.lazy_until_close (x ++ newline :: y) = Re.lazy_until_close x.
Proof.
  induction x as [|c x IH].
  - cbn [app Re.lazy_until_close]. cbn. reflexivity.
  - change ((c :: x) ++ newline :: y) with (c :: (x ++ newline :: y)).
    cbn [Re.lazy_until_close].
    change (c :: (x ++ newline :: y)) with ((c :: x) ++ newline :: y).
    rewrite startswith_before
      by (intros H; apply has_char_iff in H; vm_compute in H; discriminate).
    now rewrite IH.
Qed.

Lemma match_series_at_line (x y : pystr) :
  Re.match_series_at (x ++ newline :: y) = Re.match_series_at x.
Proof.
  unfold Re.match_series_at.
  rewrite startswith_before
    by (intros H; apply has_char_iff in H; vm_compute in H; discriminate).
  destruct (startswith (pyq "'s':[") x) eqn:E; [|reflexivity].
  apply startswith_iff in E. destruct E as [t ->].
  rewrite <- app_assoc.
  change (skipn 5 (pyq "'s':[" ++ ?u)) with u.
  destruct t as [|c t]; [reflexivity|]. cbn [app].
  now rewrite lazy_until_close_line.
Qed.

(** A series block lies on one line: the search in two texts with a newline
    between them is the search in the first one, then in the second one. *)
Lemma search_series_line (x y : pystr) :
  Re.search_series (x ++ newline :: y)
  = match Re.search_series x with
    | Some g => Some g
    | None => Re.search_series y
    end.
Proof.
  induction x as [|c x IH].
  - cbn [app]. cbn [Re.search_series].
    change (Re.match_series_at (newline :: y))
      with (Re.match_series_at ([] ++ newline :: y)).
    rewrite match_series_at_line. reflexivity.
  - change ((c :: x) ++ newline :: y) with (c :: (x ++ newline :: y)).
    cbn [Re.search_series].
    change (c :: (x ++ newline :: y)) with ((c :: x) ++ newline :: y).
    rewrite match_series_at_line, IH.
    now destruct (Re.match_series_at (c :: x)).
Qed.

Lemma search_series_nil : Re.search_series [] = None.
Proof. reflexivity. Qed.

(** X10: the parser takes the series block from one received text. The
    block found in the buffer after one more receive is the block found in
    the buffer before it, and when there was none, the block found in the
    text just received by itself: a block that lies across two received
    texts is never found. *)
Theorem search_series_accumulated (w : world) (k0 n : nat) :
  Re.search_series (accumulated w k0 (S n))
  = match Re.search_series (accumulated w k0 n) with
    | Some g => Some g
    | None =>
        match ws_recv w (k0 + n) with
        | inr text => Re.search_series text
        | inl _ => None
        end
    end.
Proof.
  cbn [accumulated].
  destruct (ws_recv w (k0 + n)) as [e|t].
  - rewrite app_nil_r. now destruct (Re.search_series _).
  - assert (Ht : Re.search_series (t ++ [newline]) = Re.search_series t).
    { rewrite search_series_line, search_series_nil.
      now destruct (Re.search_series t). }
    destruct (accumulated_shape w k0 n) as [-> | [a ->]].
    + cbn [app]. rewrite Ht, search_series_nil. reflexivity.
    + rewrite <- app_assoc. cbn [app].
      rewrite !search_series_line, search_series_nil.
      destruct (Re.search_series a); [reflexivity|].
      now destruct (Re.search_series t).
Qed.

(** ** The message filter *)

Lemma lazy_until_sound (closing s g : pystr) :
  Lazy.until closing s = Some g ->
  (exists post, s = g ++ closing ++ post) /\ ~ In newline g.
Proof.
  revert g. induction s as [|c s IH]; intros g; cbn [Lazy.until].
  - destruct (startswith closing []) eqn:E; [|discriminate].
    intros H. injection H as <-. apply startswith_iff in E.
    destruct E as [t E]. split; [now exists t | intros []].
  - destruct (startswith closing (c :: s)) eqn:E.
    + intros H. injection H as <-. apply startswith_iff in E.
      destruct E as [t E]. split; [now exists t | intros []].
    + destruct (N.eqb_spec c newline) as [|Hc]; [discriminate|].
      destruct (Lazy.until closing s) as [g'|]; [|discriminate].
      cbn [option_map]. intros H. injection H as <-.
      destruct (IH g' eq_refl) as [[post Hs] Hn]. split.
      * exists post. now rewrite Hs.
      * intros [H | H]; [now apply Hc | now apply Hn].
Qed.

Lemma lazy_until_complete (closing g post : pystr) :
  ~ In newline g -> Lazy.until closing (g ++ closing ++ post) <> None.
Proof.
  induction g as [|c g IH]; intros Hn.
  - cbn [app]. destruct (closing ++ post) eqn:E; cbn [Lazy.until];
      rewrite <- E, startswith_app; discriminate.
  - cbn [app Lazy.until].
    destruct (startswith _ _); [discriminate|].
    destruct (N.eqb_spec c newline) as [Hc|Hc].
    + exfalso. apply Hn. now left.
    + specialize (IH (fun H => Hn (or_intror H))).
      destruct (Lazy.until _ _); [discriminate | congruence].
Qed.

Lemma skipn_length_app {A} (a b : list A) : skipn (length a) (a ++ b) = b.
Proof. induction a; [reflexivity | assumption]. Qed.

Lemma lazy_match_at_sound (opening closing s g : pystr) :
  Lazy.match_at opening closing s = Some g ->
  (exists post, s = opening ++ g ++ closing ++ post)
  /\ g <> [] /\ ~ In newline g.
Proof.
  unfold Lazy.match_at.
  destruct (startswith opening s) eqn:E; [|discriminate].
  apply startswith_iff in E. destruct E as [t ->].
  rewrite skipn_length_app.
  destruct t as [|c t]; [discriminate|].
  destruct (N.eqb_spec c newline) as [|Hc]; [discriminate|].
  destruct (Lazy.until closing t) as [g'|] eqn:El; [|discriminate].
  cbn [option_map]. intros H. injection H as <-.
  destruct (lazy_until_sound _ _ El) as [[post Ht] Hn].
  split; [|split].
  - exists post. now rewrite Ht.
  - discriminate.
  - intros [H | H]; [now apply Hc | now apply Hn].
Qed.

Lemma lazy_match_at_complete (opening closing g post : pystr) :
  g <> [] -> ~ In newline g ->
  Lazy.match_at opening closing (opening ++ g ++ closing ++ post) <> None.
Proof.
  intros Hg Hn. unfold Lazy.match_at.
  rewrite startswith_app, skipn_length_app.
  destruct g as [|c g]; [congruence|]. cbn [app].
  destruct (N.eqb_spec c newline) as [Hc|Hc].
  - exfalso. apply Hn. now left.
  - pose proof (@lazy_until_complete closing g post
                  (fun H => Hn (or_intror H))) as Hl.
    destruct (Lazy.until _ _); [discriminate | congruence].
Qed.

Lemma lazy_search_sound (opening closing text g : pystr) :
  Lazy.search opening closing text = Some g -> between opening closing text g.
Proof.
  induction text as [|c text IH]; cbn [Lazy.search].
  - destruct (Lazy.match_at opening closing []) eqn:E; [|discriminate].
    intros H. injection H as <-. apply lazy_match_at_sound in E.
    destruct E as [[post E'] [Hg Hn]]. now exists [], post.
  - destruct (Lazy.match_at opening closing (c :: text)) eqn:E.
    + intros H. injection H as <-. apply lazy_match_at_sound in E.
      destruct E as [[post E'] [Hg Hn]]. now exists [], post.
    + intros H. destruct (IH H) as [pre [post [E' [Hg Hn]]]].
      exists (c :: pre), post. now rewrite E'.
Qed.

Lemma lazy_search_complete (opening closing text g : pystr) :
  between opening closing text g -> Lazy.search opening closing text <> None.
Proof.
  intros [pre [post [-> [Hg Hn]]]].
  induction pre as [|c pre IH].
  - cbn [app].
    pose proof (@lazy_match_at_complete opening closing g post Hg Hn) as H.
    destruct (opening ++ g ++ closing ++ post) as [|x t] eqn:E;
      cbn [Lazy.search];
      destruct (Lazy.match_at _ _ _); congruence.
  - cbn [app Lazy.search].
    destruct (Lazy.match_at _ _ _); [discriminate | exact IH].
Qed.

(** X11: [__filter_raw_message] never raises. It returns a name that
    stands in the text between ["m":"] and [",] and parameters that stand
    in it between ["p":] and [}], ending with ["}"]] (both on one line and
    not empty), and it logs its error and returns [None] exactly when the
    text holds no such name or no such parameters. *)
Theorem filter_raw_message_cases (text : pystr) (s : state) :
  (exists m g,
      filter_raw_message text s = (s, Returned (Some (m, g ++ pyq "'}']")))
      /\ between (pyq "'m':'") (pyq "',") text m
      /\ between (pyq "'p':") (pyq "'}']}") text g)
  \/ (filter_raw_message text s
      = (log_event s [filter_error], Returned None)
      /\ ((forall m, ~ between (pyq "'m':'") (pyq "',") text m)
          \/ (forall g, ~ between (pyq "'p':") (pyq "'}']}") text g))).
Proof.
  unfold filter_raw_message, try_except.
  destruct (Lazy.search (pyq "'m':'") (pyq "',") text) as [m|] eqn:Em.
  - destruct (Lazy.search (pyq "'p':") (pyq "'}']}") text) as [g|] eqn:Eg.
    + left. exists m, g. split; [reflexivity|].
      split; now apply lazy_search_sound.
    + right. split; [reflexivity|]. right. intros g Hg.
      now apply (lazy_search_complete Hg).
  - right. split; [reflexivity|]. left. intros m Hm.
    now apply (lazy_search_complete Hm).
Qed.

Lemma lazy_search_here (opening closing text g : pystr) :
  Lazy.match_at opening closing text = Some g ->
  Lazy.search opening closing text = Some g.
Proof. intros H. destruct text; cbn [Lazy.search]; now rewrite H. Qed.

Lemma construct_message_shape (func : pystr) (param_list : list json) :
  construct_message func param_list
  = pyq "{'m':" ++ Json.dumps (py ",") (py ":") (JStr func)
    ++ pyq ",'p':" ++ Json.dumps (py ",") (py ":") (JList param_list)
    ++ py "}".
Proof.
  unfold construct_message.
  cbn [Json.dumps map join fst snd]. unfold Json.encode_basestring_ascii.
  cbn [py pyq list_ascii_of_string map flat_map Json.escape_char app].
  repeat (rewrite <- app_assoc; cbn [app]). reflexivity.
Qed.

(** The first character of [opening] is nowhere in [pre]: the search
    passes [pre]. *)
Lemma lazy_search_skip (q : char) (opening closing pre rest : pystr) :
  ~ In q pre ->
  Lazy.search (q :: opening) closing (pre ++ rest)
  = Lazy.search (q :: opening) closing rest.
Proof.
  induction pre as [|c pre IH]; intros Hq; [reflexivity|].
  cbn [app Lazy.search]. unfold Lazy.match_at at 1. cbn [startswith].
  destruct (N.eqb_spec q c) as [->|]; [exfalso; apply Hq; now left|].
  cbn [andb]. apply IH. intros H. apply Hq. now right.
Qed.

(** Up to the first character of [closing], which [g] does not hold, the
    lazy group is [g]. *)
Lemma lazy_until_exact (q : char) (closing g post : pystr) :
  ~ In q g -> ~ In newline g ->
  Lazy.until (q :: closing) (g ++ q :: (closing ++ post)) = Some g.
Proof.
  induction g as [|c g IH]; intros Hq Hn.
  - cbn [app Lazy.until startswith]. rewrite N.eqb_refl. cbn [andb].
    now rewrite startswith_app.
  - cbn [app Lazy.until startswith].
    destruct (N.eqb_spec q c) as [->|]; [exfalso; apply Hq; now left|].
    cbn [andb].
    destruct (N.eqb_spec c newline) as [->|]; [exfalso; apply Hn; now left|].
    rewrite IH; [reflexivity | |]; intros H; [apply Hq | apply Hn];
      now right.
Qed.

(** X12: the name of a frame of the client is read back. On the frame that
    [__create_message] builds for a name of plain characters that is not
    empty, whatever the parameters, the first search of
    [__filter_raw_message] gives the name: what the filter returns is
    [None] or that name with the parameters it found. *)
Theorem filter_raw_message_name (func : pystr) (param_list : list json)
        (s : state) :
  func <> [] -> Forall plain func ->
  Lazy.search (pyq "'m':'") (pyq "',") (create_message func param_list)
  = Some func
  /\ forall s' m p,
      filter_raw_message (create_message func param_list) s
      = (s', Returned (Some (m, p))) ->
      m = func.
Proof.
  intros Hne Hplain.
  assert (Hs : Lazy.search (pyq "'m':'") (pyq "',")
                 (create_message func param_list) = Some func).
  { unfold create_message, prepend_header.
    set (n := length _).
    rewrite construct_message_shape.
    set (rest := Json.dumps _ _ (JList param_list)).
    change (Json.dumps (py ",") (py ":") (JStr func))
      with (Json.encode_basestring_ascii func).
    rewrite (encode_basestring_plain Hplain).
    replace (py "~m~" ++ str_of_nat n ++ py "~m~"
             ++ pyq "{'m':" ++ (dquote :: func ++ [dquote])
                ++ pyq ",'p':" ++ rest ++ py "}")
      with ((py "~m~" ++ str_of_nat n ++ py "~m~{")
            ++ pyq "'m':'" ++ func ++ pyq "',"
               ++ (pyq "'p':" ++ rest ++ py "}")).
    2:{ cbn [py pyq list_ascii_of_string map app].
        repeat (rewrite <- app_assoc; cbn [app]). reflexivity. }
    change (pyq "'m':'") with (dquote :: pyq "m':'").
    rewrite lazy_search_skip.
    - destruct func as [|c func]; [congruence|].
      change (dquote :: pyq "m':'") with (pyq "'m':'").
      apply lazy_search_here. unfold Lazy.match_at.
      rewrite startswith_app, skipn_length_app. cbn [app].
      inversion Hplain as [|? ? Hc Hf]; subst.
      destruct (N.eqb_spec c newline) as [->|];
        [destruct Hc as [[Hc _] _]; exfalso; exact (Hc eq_refl)|].
      change (pyq "',") with (dquote :: py ",").
      change (func ++ (dquote :: py ",") ++ ?u)
        with (func ++ dquote :: (py "," ++ u)).
      rewrite lazy_until_exact; [reflexivity | |].
      + intros H. rewrite Forall_forall in Hf.
        destruct (Hf _ H) as [_ [Hq _]]. exact (Hq eq_refl).
      + intros H. rewrite Forall_forall in Hf.
        destruct (Hf _ H) as [[Hlo _] _]. exact (Hlo eq_refl).
    - intros H. apply in_app_or in H. destruct H as [H | H].
      + vm_compute in H.
        repeat destruct H as [H | H]; try discriminate; contradiction.
      + apply in_app_or in H. destruct H as [H | H].
        * pose proof (str_of_nat_clean True n) as Hd.
          rewrite Forall_forall in Hd. destruct (Hd _ H) as [Hr _].
          pose proof (string_of_uint_is_digit (Nat.to_uint n)) as Hdig.
          rewrite forallb_forall in Hdig. specialize (Hdig _ H).
          vm_compute in Hdig. discriminate.
        * vm_compute in H.
        repeat destruct H as [H | H]; try discriminate; contradiction. }
  split; [exact Hs|].
  intros s' m p H. unfold filter_raw_message in H.
  apply try_except_inv in H. destruct H as [H | [s1 [e [_ [_ H]]]]].
  - rewrite Hs in H.
    destruct (Lazy.search (pyq "'p':") _ _); [|discriminate].
    now injection H as _ <- _.
  - apply bind_inv in H. destruct H as [s2 [u [_ H]]]. discriminate.
Qed.

(** ** The symbol search *)

Lemma replace_from_absent (q : char) (old new s : pystr) :
  ~ In q s -> replace_from (q :: old) new 0 s = s.
Proof.
  induction s as [|c s IH]; intros Hq; [reflexivity|].
  cbn [replace_from startswith].
  destruct (N.eqb_spec q c) as [->|]; [exfalso; apply Hq; now left|].
  cbn [andb]. rewrite IH; [reflexivity|]. intros H. apply Hq. now right.
Qed.

(** X13: [search_symbol] never raises. A request that fails and a text
    that does not decode give the empty list, with the exception logged;
    otherwise the result is what the text decodes to once the tags [</em>]
    and [<em>] are cut out of it, and a text without [<] is decoded as it
    is. *)
Theorem search_symbol_never_raises (http_get : pystr -> exn + pystr)
        (json_loads : pystr -> option json) (text exchange : pystr)
        (s : state) :
  let run := search_symbol http_get json_loads text exchange s in
  let cleaned body := replace (py "<em>") [] (replace (py "</em>") [] body) in
  (exists s' v, run = (s', Returned v))
  /\ (forall e,
         http_get (search_url text exchange) = inl e ->
         run = (log_event s [Log ERROR (Exc e)], Returned (JList [])))
  /\ (forall body,
         http_get (search_url text exchange) = inr body ->
         json_loads (cleaned body) = None ->
         exists e, run = (log_event s [Log ERROR (Exc e)], Returned (JList [])))
  /\ (forall body v,
         http_get (search_url text exchange) = inr body ->
         json_loads (cleaned body) = Some v ->
         run = (s, Returned v))
  /\ (forall body, ~ In 60%N body -> cleaned body = body).
Proof.
  intros run cleaned. unfold run, search_symbol, try_except.
  split; [|split; [|split; [|split]]].
  - destruct (http_get _) as [e|body]; [now eexists; eexists|].
    destruct (json_loads _); now eexists; eexists.
  - intros e ->. reflexivity.
  - intros body -> Hnone. fold (cleaned body). rewrite Hnone.
    eexists. reflexivity.
  - intros body v -> Hv. fold (cleaned body). rewrite Hv. reflexivity.
  - intros body Hb. unfold cleaned.
    assert (H1 : replace (py "</em>") [] body = body)
      by exact (@replace_from_absent 60%N (py "/em>") [] body Hb).
    rewrite H1. exact (@replace_from_absent 60%N (py "em>") [] body Hb).
Qed.

(** ** The construction of the client *)

Section Construction.

Variable json_loads : pystr -> option json.
Variable expanduser : pystr -> pystr.
Variable w : world.

Local Abbreviation load_token := (load_token json_loads w).
Local Abbreviation auth := (auth json_loads w).
Local Abbreviation login_and_get_token := (login_and_get_token json_loads w).
Local Abbreviation save_token := (save_token w).
Local Abbreviation init := (init json_loads expanduser w).
Local Abbreviation signin_token := (signin_token json_loads w).

(** X14: without a usable cached token (none, or one that is empty or
    null) and without both a username and a password that are not empty,
    the construction raises its [ValueError] at once: beyond the reading of
    the cache file nothing is done, no request and no write. *)
Theorem init_without_token_or_credentials (username password : option pystr)
        (cache_file : pystr) (s s1 : state) (v : json) :
  load_token (expanduser cache_file) s = (s1, Returned v) ->
  Json.truthy v = false ->
  truthy_arg username && truthy_arg password = false ->
  init username password cache_file s = (s1, Raised no_credentials)
  /\ (trace s1 = trace s
      \/ trace s1 = trace s ++ [FileRead (expanduser cache_file)]).
Proof.
  intros Hload Hv Hcred. split.
  - unfold init. erewrite bind_returned by exact Hload.
    apply bind_raised. now rewrite Hv, Hcred.
  - destruct (load_token_returns json_loads expanduser w
                (expanduser cache_file) s)
      as [s' [v' [H [Htr _]]]].
    rewrite Hload in H. now injection H as <- _.
Qed.

Lemma truthy_arg_Some (u : pystr) : u <> [] -> truthy_arg (Some u) = true.
Proof. destruct u; [congruence | reflexivity]. Qed.

(** [__auth] with credentials: the token of the response, or [None] after
    the logged exception. *)
Lemma auth_cases (u p : pystr) (s : state) :
  u <> [] -> p <> [] ->
  match signin_token u p with
  | Some tok => auth (Some u) (Some p) s
                = (log_event s [HttpPost u p], Returned tok)
  | None => exists e, auth (Some u) (Some p) s
                      = (log_event s [HttpPost u p; auth_failed e],
                         Returned JNull)
  end.
Proof.
  intros Hu Hp. unfold auth, signin_token.
  rewrite (truthy_arg_Some Hu), (truthy_arg_Some Hp). cbn [andb arg_text].
  unfold try_except. erewrite bind_returned by apply emit_log.
  assert (Hfail : forall (e : exn) (s0 : state),
             s0 = log_event s [HttpPost u p] ->
             (emit (auth_failed e) ;; ret JNull) s0
             = (log_event s [HttpPost u p; auth_failed e], Returned JNull)).
  { intros e s0 ->. erewrite bind_returned by apply emit_log.
    now rewrite log_event_app. }
  destruct (signin w u p) as [e|body].
  - exists e. now apply Hfail.
  - destruct (json_loads body) as [r|];
      [|eexists; now apply Hfail].
    unfold auth_token_of.
    destruct r as [ | | | | |d]; try (eexists; now apply Hfail).
    cbn [subscript].
    destruct (Json.assoc (py "user") d) as [x|];
      [|eexists; now apply Hfail].
    erewrite bind_returned by reflexivity.
    destruct x as [ | | | | |d']; try (eexists; now apply Hfail).
    cbn [subscript].
    destruct (Json.assoc (py "auth_token") d') as [tok|];
      [reflexivity | eexists; now apply Hfail].
Qed.

(** [_save_token] never raises: the file is written, or the warning is
    printed. *)
Lemma save_token_cases (path : pystr) (tok : json) (s : state) :
  save_token path tok s
  = (log_event s
       [match file_write w path (token_file tok) with
        | None => FileWrite path (token_file tok)
        | Some e => save_failed e
        end],
     Returned tt).
Proof.
  unfold save_token, try_except, token_file.
  now destruct (file_write w path _).
Qed.

(** X15: with credentials and no usable cached token, when the sign-in
    answers with an object that holds a token at [user], [auth_token], the
    client is built with this token after one request; the token is
    written to the cache file as the object [{"token": ...}], and when the
    write fails the warning is printed and the client is built all the
    same. *)
Theorem init_login (u p cache_file : pystr) (s s1 : state) (v tok : json) :
  load_token (expanduser cache_file) s = (s1, Returned v) ->
  Json.truthy v = false ->
  u <> [] -> p <> [] ->
  signin_token u p = Some tok ->
  Json.truthy tok = true ->
  exists self s2,
    init (Some u) (Some p) cache_file s = (s2, Returned self)
    /\ token self = tok
    /\ trace s2
       = trace s1
         ++ [HttpPost u p;
             match file_write w (expanduser cache_file) (token_file tok) with
             | None => FileWrite (expanduser cache_file) (token_file tok)
             | Some e => save_failed e
             end]
    /\ token_file tok
       = pyq "{'token': " ++ Json.dumps (py ", ") (py ": ") tok ++ py "}".
Proof.
  intros Hload Hv Hu Hp Htok Htruthy.
  pose proof (auth_cases (log_event s1 []) Hu Hp) as Hauth.
  rewrite Htok, log_event_nil in Hauth.
  do 2 eexists. split; [|split; [|split]].
  - unfold init. erewrite bind_returned by exact Hload.
    rewrite Hv, (truthy_arg_Some Hu), (truthy_arg_Some Hp). cbn [andb].
    erewrite bind_returned.
    2:{ erewrite bind_returned.
        2:{ unfold login_and_get_token.
            erewrite bind_returned by exact Hauth.
            rewrite Htruthy. reflexivity. }
        erewrite bind_returned by apply save_token_cases.
        reflexivity. }
    reflexivity.
  - reflexivity.
  - cbn. now rewrite <- app_assoc.
  - unfold token_file. cbn [Json.dumps map join fst snd].
    unfold Json.encode_basestring_ascii.
    cbn [py pyq list_ascii_of_string map flat_map Json.escape_char app].
    repeat (rewrite <- app_assoc; cbn [app]). reflexivity.
Qed.

(** X16: with credentials and no usable cached token, when the sign-in
    gives no token (the request fails, the answer does not decode or holds
    no token) or an empty one, the construction raises its [ValueError]
    after the one request; the exception of the sign-in is only logged, and
    nothing is written to the cache file. *)
Theorem init_login_fails (u p cache_file : pystr) (s s1 : state) (v : json) :
  load_token (expanduser cache_file) s = (s1, Returned v) ->
  Json.truthy v = false ->
  u <> [] -> p <> [] ->
  signin_token u p = None
  \/ (exists tok, signin_token u p = Some tok /\ Json.truthy tok = false) ->
  exists s2 evs,
    init (Some u) (Some p) cache_file s = (s2, Raised login_failed)
    /\ trace s2 = trace s1 ++ HttpPost u p :: evs
    /\ (evs = [] \/ exists e, evs = [auth_failed e]).
Proof.
  intros Hload Hv Hu Hp Hsign.
  pose proof (auth_cases (log_event s1 []) Hu Hp) as Hauth.
  rewrite log_event_nil in Hauth.
  assert (Hlogin : exists s2 evs,
             login_and_get_token (Some u) (Some p) s1
             = (s2, Raised login_failed)
             /\ trace s2 = trace s1 ++ HttpPost u p :: evs
             /\ (evs = [] \/ exists e, evs = [auth_failed e])).
  { unfold login_and_get_token.
    destruct Hsign as [Hnone | [tok [Htok Hfalse]]].
    - rewrite Hnone in Hauth. destruct Hauth as [e Hauth].
      do 2 eexists. split; [|split].
      + erewrite bind_returned by exact Hauth. reflexivity.
      + reflexivity.
      + right. now exists e.
    - rewrite Htok in Hauth.
      do 2 eexists. split; [|split].
      + erewrite bind_returned by exact Hauth. rewrite Hfalse. reflexivity.
      + reflexivity.
      + now left. }
  destruct Hlogin as [s2 [evs [Hrun [Htr Hevs]]]].
  exists s2, evs. split; [|split; assumption].
  unfold init. erewrite bind_returned by exact Hload.
  rewrite Hv, (truthy_arg_Some Hu), (truthy_arg_Some Hp). cbn [andb].
  apply bind_raised. apply bind_raised. exact Hrun.
Qed.

End Construction.

(** ** The fetch as a whole *)

Section FetchFurther.

Variables (F DT : Type).
Variable zero : F.
Variable py_float : pystr -> option F.
Variable fromtimestamp : F -> exn + DT.
Variable w : world.

Local Abbreviation create_df := (create_df zero py_float fromtimestamp).
Local Abbreviation get_hist_stream :=
  (get_hist_stream zero py_float fromtimestamp w).
Local Abbreviation get_hist := (get_hist zero py_float fromtimestamp w).
Local Abbreviation frames_of :=
  (map (fun m : pystr * list json => create_message (fst m) (snd m))).

Lemma send_message_pre (self : client) (m : pystr) (s : state) :
  exists s0,
    (if ws_debug self then emit (Print (Text m)) else ret tt) s
    = (s0, Returned tt)
    /\ wire s0 = wire s /\ ws s0 = ws s.
Proof.
  destruct (ws_debug self).
  - eexists. split; [apply emit_log|].
    rewrite wire_log_event. cbn. now rewrite app_nil_r.
  - exists s. repeat split.
Qed.

Lemma send_message_sends (self : client) (func : pystr) (args : list json)
      (s : state) (c : socket) :
  ws s = Some c -> ws_send w (sent c) = None ->
  exists s',
    send_message w self func args s = (s', Returned tt)
    /\ wire s' = wire s ++ [Send (create_message func args)]
    /\ ws s' = Some (mkSocket (S (sent c)) (rcvd c)).
Proof.
  intros Hws Hok. unfold send_message.
  destruct (send_message_pre self (create_message func args) s)
    as [s0 [H0 [Hw Hs]]].
  erewrite bind_returned by exact H0.
  unfold ws_send_frame. rewrite Hs, Hws, Hok.
  eexists. split; [reflexivity|]. split; [|reflexivity].
  unfold wire in *. cbn. now rewrite filter_app, Hw.
Qed.

Lemma send_message_fails (self : client) (func : pystr) (args : list json)
      (s : state) (c : socket) (e : exn) :
  ws s = Some c -> ws_send w (sent c) = Some e ->
  exists s',
    send_message w self func args s = (s', Raised e) /\ wire s' = wire s.
Proof.
  intros Hws He. unfold send_message.
  destruct (send_message_pre self (create_message func args) s)
    as [s0 [H0 [Hw Hs]]].
  erewrite bind_returned by exact H0.
  unfold ws_send_frame. rewrite Hs, Hws, He.
  now exists s0.
Qed.

(** Sends that all succeed: the frames go out in order, then the rest. *)
Lemma send_then_all {A} (self : client) (msgs : list (pystr * list json))
      (k : M A) :
  forall (s : state) (c : socket),
    ws s = Some c ->
    (forall i, i < length msgs -> ws_send w (sent c + i) = None) ->
    exists s1,
      send_then w self msgs k s = k s1
      /\ wire s1 = wire s ++ map Send (frames_of msgs)
      /\ ws s1 = Some (mkSocket (sent c + length msgs) (rcvd c)).
Proof.
  induction msgs as [|m msgs IH]; intros s c Hws Hok.
  - exists s. split; [reflexivity|]. cbn.
    rewrite app_nil_r, Nat.add_0_r. split; [reflexivity|].
    now destruct c.
  - cbn [send_then].
    destruct (@send_message_sends self (fst m) (snd m) s c Hws)
      as [s' [Hrun [Hw Hs']]].
    { rewrite <- (Nat.add_0_r (sent c)). apply Hok. cbn. lia. }
    erewrite bind_returned by exact Hrun.
    destruct (IH s' _ Hs') as [s1 [Hrun1 [Hw1 Hs1]]].
    { intros i Hi. cbn [sent].
      replace (S (sent c) + i) with (sent c + S i) by lia.
      apply Hok. cbn. lia. }
    exists s1. split; [assumption|]. split.
    + rewrite Hw1, Hw, <- app_assoc. reflexivity.
    + rewrite Hs1. cbn [sent rcvd length]. f_equal. f_equal. lia.
Qed.

(** The first send that fails: the frames before it have gone out, and its
    exception is raised. *)
Lemma send_then_first_failure {A} (self : client)
      (msgs : list (pystr * list json)) (k : M A) :
  forall (j : nat) (s : state) (c : socket) (e : exn),
    ws s = Some c ->
    j < length msgs ->
    (forall i, i < j -> ws_send w (sent c + i) = None) ->
    ws_send w (sent c + j) = Some e ->
    exists s',
      send_then w self msgs k s = (s', Raised e)
      /\ wire s' = wire s ++ map Send (firstn j (frames_of msgs)).
Proof.
  induction msgs as [|m msgs IH]; intros j s c e Hws Hj Hok He.
  - cbn in Hj. lia.
  - cbn [send_then]. destruct j as [|j].
    + rewrite Nat.add_0_r in He.
      destruct (@send_message_fails self (fst m) (snd m) s c e Hws He)
        as [s' [Hrun Hw]].
      exists s'. split; [now apply bind_raised|].
      cbn. now rewrite app_nil_r.
    + destruct (@send_message_sends self (fst m) (snd m) s c Hws)
        as [s' [Hrun [Hw Hs']]].
      { rewrite <- (Nat.add_0_r (sent c)). apply Hok. lia. }
      erewrite bind_returned by exact Hrun.
      destruct (IH j s' _ e Hs') as [s2 [Hrun2 Hw2]].
      * cbn in Hj. lia.
      * intros i Hi. cbn [sent].
        replace (S (sent c) + i) with (sent c + S i) by lia.
        apply Hok. lia.
      * cbn [sent]. now replace (S (sent c) + j) with (sent c + S j) by lia.
      * exists s2. split; [assumption|].
        rewrite Hw2, Hw, <- app_assoc. reflexivity.
Qed.

Lemma create_connection_opens (s : state) :
  ws_connect w = None ->
  create_connection w s
  = (mkState (trace s ++ [connecting; Connect]) (Some (mkSocket 0 0)) (rng s),
     Returned tt).
Proof.
  intros H. unfold create_connection.
  erewrite bind_returned by apply emit_log. rewrite H.
  cbn. unfold log_event, emit. cbn. now rewrite <- app_assoc.
Qed.

Lemma wire_stopped (s : state) (c : socket) (n : nat) :
  wire (stopped w s c n) = wire s ++ repeat Recv (S n).
Proof.
  assert (H : wire (received s c (S n)) = wire s ++ repeat Recv (S n)).
  { unfold wire, received. cbn [trace]. rewrite filter_app. f_equal.
    generalize (S n). intros m. induction m as [|m IH]; [reflexivity|].
    cbn. now rewrite IH. }
  unfold stopped. destruct (ws_recv w (rcvd c + n)); [|exact H].
  rewrite wire_log_event, H. cbn. now rewrite app_nil_r.
Qed.

(** X17: a fetch that goes through returns what the parser makes of the
    buffer, for the formatted symbol. When the symbol formats, the
    connection opens and the nine sends succeed, and receive [n] of the new
    connection is the first that ends the loop, the result of the fetch is
    the result of the parser on the texts of the receives 0 to [n], a
    newline after each, with the formatted symbol; on the socket there have
    been the opening, the nine frames and [n + 1] receives, whatever the
    socket was before. *)
Theorem get_hist_returns_parse (fuel n : nat) (self : client)
        (symbol exchange sym : pystr) (interval : Interval) (n_bars : Z)
        (fut_contract : contract_arg) (extended_session : bool) (s : state) :
  format_symbol symbol exchange fut_contract = Returned sym ->
  ws_connect w = None ->
  (forall k, k < 9 -> ws_send w k = None) ->
  n < fuel ->
  stops w 0 n = true ->
  (forall i, i < n -> stops w 0 i = false) ->
  exists s1,
    get_hist fuel self symbol exchange interval n_bars fut_contract
             extended_session s
    = create_df (accumulated w 0 (S n)) sym s1
    /\ wire s1
       = wire s
         ++ Connect
            :: map Send (setup_frames self sym (Interval_value interval)
                                      n_bars extended_session)
            ++ repeat Recv (S n)
    /\ ws s1 = Some (mkSocket 9 (S n)).
Proof.
  intros Hf Hc Hsend Hn Hstop Hfirst.
  unfold get_hist. rewrite get_hist_setup_unfold.
  destruct (@send_then_all pystr self
              (setup_messages self sym (Interval_value interval) n_bars
                              extended_session) (ret sym)
              (mkState (trace s ++ [connecting; Connect])
                       (Some (mkSocket 0 0)) (rng s))
              (mkSocket 0 0) eq_refl) as [s2 [Hrun [Hw2 Hs2]]].
  { intros i Hi. cbn [sent Nat.add]. apply Hsend. exact Hi. }
  cbn [sent rcvd length setup_messages Nat.add] in Hs2.
  erewrite bind_returned.
  2:{ rewrite Hf. unfold lift. erewrite bind_returned by reflexivity.
      erewrite bind_returned by (now apply create_connection_opens).
      rewrite Hrun. reflexivity. }
  unfold get_hist_stream.
  erewrite bind_returned by apply emit_log.
  erewrite bind_returned
    by (apply (@recv_loop_stops w fuel n
                 (log_event s2 [getting_data sym]) (mkSocket 9 0));
        assumption).
  eexists. split; [reflexivity|]. split.
  - rewrite wire_stopped, wire_log_event, Hw2. cbn [filter is_wire getting_data].
    rewrite app_nil_r. unfold wire at 1. cbn [trace].
    rewrite filter_app. cbn [filter is_wire connecting].
    unfold setup_frames. fold (wire s).
    rewrite <- !app_assoc. reflexivity.
  - unfold stopped. destruct (ws_recv w _); reflexivity.
Qed.

(** X18: what goes wrong before the loop leaves the fetch as it is. A
    contract that is no integer on a symbol without [:] raises before
    anything is done; a connection that does not open raises its exception
    and nothing is sent; the first send that fails raises its exception
    after the frames before it, and nothing is received. *)
Theorem get_hist_raises (fuel : nat) (self : client)
        (symbol exchange : pystr) (interval : Interval) (n_bars : Z)
        (fut_contract : contract_arg) (extended_session : bool) (s : state) :
  let run := get_hist fuel self symbol exchange interval n_bars fut_contract
                      extended_session s in
  (forall e, format_symbol symbol exchange fut_contract = Raised e ->
             run = (s, Raised e))
  /\ (forall sym e,
         format_symbol symbol exchange fut_contract = Returned sym ->
         ws_connect w = Some e ->
         run = (log_event s [connecting], Raised e))
  /\ (forall sym j e,
         format_symbol symbol exchange fut_contract = Returned sym ->
         ws_connect w = None ->
         j < 9 ->
         (forall i, i < j -> ws_send w i = None) ->
         ws_send w j = Some e ->
         snd run = Raised e
         /\ wire (fst run)
            = wire s
              ++ Connect
                 :: map Send
                      (firstn j (setup_frames self sym
                                   (Interval_value interval) n_bars
                                   extended_session))).
Proof.
  intros run. unfold run, get_hist. rewrite get_hist_setup_unfold.
  split; [|split].
  - intros e He. rewrite He. reflexivity.
  - intros sym e Hf Hc. rewrite Hf. apply bind_raised.
    unfold lift. erewrite bind_returned by reflexivity.
    apply bind_raised. unfold create_connection.
    erewrite bind_returned by apply emit_log. now rewrite Hc.
  - intros sym j e Hf Hc Hj Hok He.
    destruct (@send_then_first_failure pystr self
                (setup_messages self sym (Interval_value interval) n_bars
                                extended_session) (ret sym) j
                (mkState (trace s ++ [connecting; Connect])
                         (Some (mkSocket 0 0)) (rng s))
                (mkSocket 0 0) e eq_refl Hj Hok He) as [s2 [Hrun Hw2]].
    erewrite bind_raised.
    2:{ rewrite Hf. unfold lift. erewrite bind_returned by reflexivity.
        erewrite bind_returned by (now apply create_connection_opens).
        exact Hrun. }
    cbn [fst snd]. split; [reflexivity|].
    rewrite Hw2. unfold wire at 1. cbn [trace].
    rewrite filter_app. cbn [filter is_wire connecting].
    fold (wire s). unfold setup_frames. rewrite <- app_assoc. reflexivity.
Qed.

End FetchFurther.

(** ** The further properties on the samples *)

Lemma create_df_frame_witness :
  exists out,
    Re.search_series sample_stream = Some out
    /\ length sample_bars = length (Re.split (pyq ",{'") out)
    /\ sample_bars <> []
    /\ Forall2 (fun r b => timestamp Sample.float Sample.fromtimestamp r
                           = Some (bar_datetime b))
               (Re.split (pyq ",{'") out) sample_bars
    /\ Forall (fun b => bar_symbol b = py "NSE:NIFTY") sample_bars.
Proof.
  refine (@create_df_frame Q Q 0%Q Sample.float Sample.fromtimestamp
            sample_stream (py "NSE:NIFTY") sample_state
            (log_event sample_state [no_volume_data]) sample_bars _).
  vm_compute. reflexivity.
Defined.

Lemma create_df_volume_forward_only_witness :
  length [ sample_bar 1600000000.0 1.0 2.0 0.5 1.5 100.0;
           sample_bar 1600086400.0 0 2.5 1.0 2.0 0;
           sample_bar 1600172800.0 2.0 3.0 1.5 2.5 0 ] = 1 + 2
  /\ forall j b,
      1 <= j ->
      nth_error [ sample_bar 1600000000.0 1.0 2.0 0.5 1.5 100.0;
                  sample_bar 1600086400.0 0 2.5 1.0 2.0 0;
                  sample_bar 1600172800.0 2.0 3.0 1.5 2.5 0 ] j = Some b ->
      bar_volume b = 0%Q.
Proof.
  refine (@create_df_volume_forward_only Q Q 0%Q Sample.float
            Sample.fromtimestamp sample_null_stream (py "NSE:NIFTY")
            _ [_]
            (pyq "i':1,'v':[1600086400.0,null,2.5,1.0,2.0,200.0]}")
            [_] 5 sample_state (log_event sample_state [no_volume_data])
            _ _ _ _ _ _ _).
  - vm_compute. reflexivity.
  - vm_compute. reflexivity.
  - vm_compute. lia.
  - lia.
  - vm_compute. reflexivity.
  - vm_compute. reflexivity.
Defined.

Lemma create_df_short_record_witness :
  length (Re.split_fields (pyq "{'i':0,'v':[1600000000.0,1.0,2.0]")) = 8
  /\ snd (create_df 0%Q Sample.float Sample.fromtimestamp
                    sample_short_stream (py "NSE:NIFTY") sample_state)
     = Raised IndexError.
Proof.
  split; [vm_compute; reflexivity|].
  refine (@create_df_short_record Q Q 0%Q Sample.float Sample.fromtimestamp
            sample_short_stream (py "NSE:NIFTY") _ []
            (pyq "{'i':0,'v':[1600000000.0,1.0,2.0]") [] [] sample_state
            _ _ _ _ _).
  - vm_compute. reflexivity.
  - vm_compute. reflexivity.
  - constructor.
  - vm_compute. lia.
  - right. exists 1600000000.0%Q. vm_compute. reflexivity.
Defined.

Lemma create_df_bad_timestamp_witness :
  create_df 0%Q Sample.float Sample.fromtimestamp sample_bad_time_stream
            (py "NSE:NIFTY") sample_state
  = (sample_state, Raised float_error).
Proof.
  refine (proj1 (@create_df_bad_timestamp Q Q 0%Q Sample.float
                   Sample.fromtimestamp sample_bad_time_stream
                   (py "NSE:NIFTY") _ []
                   (pyq "{'i':0,'v':[null,1.0,2.0,0.5,1.5,100.0]") []
                   (py "null") [] sample_state _ _ _ _) _).
  - vm_compute. reflexivity.
  - vm_compute. reflexivity.
  - constructor.
  - vm_compute. reflexivity.
  - vm_compute. reflexivity.
Defined.

Lemma filter_raw_message_name_witness :
  Lazy.search (pyq "'m':'") (pyq "',")
    (create_message (py "resolve_symbol")
       [JStr (py "cs_abcdefghijkl"); JStr (py "symbol_1");
        JStr (symbol_descriptor (py "NSE:NIFTY1!") false)])
  = Some (py "resolve_symbol")
  /\ snd (filter_raw_message
            (create_message (py "resolve_symbol")
               [JStr (py "cs_abcdefghijkl"); JStr (py "symbol_1");
                JStr (symbol_descriptor (py "NSE:NIFTY1!") false)])
            sample_state)
     = Returned
         (Some (py "resolve_symbol",
                pyq "['cs_abcdefghijkl','symbol_1','={\'symbol\':\'NSE:NIFTY1!\',\'adjustment\':\'splits\',\'session\':\'regular\'}']")).
Proof.
  split; [|vm_compute; reflexivity].
  refine (proj1 (@filter_raw_message_name (py "resolve_symbol") _
                   sample_state _ _)).
  - discriminate.
  - repeat constructor; try (vm_compute; discriminate); discriminate.
Defined.

Lemma init_without_token_or_credentials_witness :
  init Sample.loads Sample.expanduser sample_empty_token_world None None
       (py "~/.tv_token.json") sample_state
  = (mkState [FileRead (py "~/.tv_token.json")] None 0,
     Raised no_credentials).
Proof.
  refine (proj1 (@init_without_token_or_credentials Sample.loads
                   Sample.expanduser sample_empty_token_world None None
                   (py "~/.tv_token.json") sample_state _ (JStr []) _ _ _)).
  - vm_compute. reflexivity.
  - reflexivity.
  - reflexivity.
Defined.

Lemma init_login_witness :
  exists self s2,
    init sample_loads Sample.expanduser sample_login_world
         (Some (py "user")) (Some (py "secret")) (py "~/.tv_token.json")
         sample_state
    = (s2, Returned self)
    /\ token self = JStr (py "tok")
    /\ trace s2
       = [HttpPost (py "user") (py "secret");
          save_failed (LibraryError (py "PermissionError"))].
Proof.
  destruct (@init_login sample_loads Sample.expanduser sample_login_world
              (py "user") (py "secret") (py "~/.tv_token.json")
              sample_state sample_state JNull (JStr (py "tok")))
    as [self [s2 [Hrun [Htok [Htr _]]]]];
    try reflexivity; try discriminate.
  exists self, s2. split; [exact Hrun|]. split; [exact Htok | exact Htr].
Defined.

Lemma init_login_fails_witness :
  exists s2 evs,
    init Sample.loads Sample.expanduser sample_fresh_world
         (Some (py "user")) (Some (py "secret")) (py "~/.tv_token.json")
         sample_state
    = (s2, Raised login_failed)
    /\ trace s2 = HttpPost (py "user") (py "secret") :: evs
    /\ (evs = [] \/ exists e, evs = [auth_failed e]).
Proof.
  refine (@init_login_fails Sample.loads Sample.expanduser
            sample_fresh_world (py "user") (py "secret")
            (py "~/.tv_token.json") sample_state sample_state JNull
            _ _ _ _ _).
  - reflexivity.
  - reflexivity.
  - discriminate.
  - discriminate.
  - left. reflexivity.
Defined.

Lemma get_hist_returns_parse_witness :
  exists s1,
    get_hist 0%Q Sample.float Sample.fromtimestamp sample_world 5
             sample_client (py "NIFTY") (py "NSE") in_daily 10 (CInt 1)
             false sample_state
    = create_df 0%Q Sample.float Sample.fromtimestamp
                (accumulated sample_world 0 2) (py "NSE:NIFTY1!") s1
    /\ wire s1
       = wire sample_state
         ++ Connect
            :: map Send (setup_frames sample_client (py "NSE:NIFTY1!")
                                      (py "1D") 10 false)
            ++ repeat Recv 2
    /\ ws s1 = Some (mkSocket 9 2).
Proof.
  refine (@get_hist_returns_parse Q Q 0%Q Sample.float Sample.fromtimestamp
            sample_world 5 1 sample_client (py "NIFTY") (py "NSE")
            (py "NSE:NIFTY1!") in_daily 10 (CInt 1) false sample_state
            _ _ _ _ _ _).
  - reflexivity.
  - reflexivity.
  - intros k Hk. reflexivity.
  - lia.
  - reflexivity.
  - intros i Hi. assert (i = 0) as -> by lia. vm_compute. reflexivity.
Defined.

Lemma create_df_no_data_iff_witness :
  (snd (create_df 0%Q Sample.float Sample.fromtimestamp
                  sample_bad_time_stream (py "NSE:NIFTY") sample_state)
   = Returned None
   <-> forall g, ~ series_block sample_bad_time_stream g)
  /\ (forall out,
         Re.search_series sample_bad_time_stream = Some out ->
         (exists df,
             snd (create_df 0%Q Sample.float Sample.fromtimestamp
                            sample_bad_time_stream (py "NSE:NIFTY")
                            sample_state)
             = Returned (Some df))
         \/ (exists e,
                snd (create_df 0%Q Sample.float Sample.fromtimestamp
                               sample_bad_time_stream (py "NSE:NIFTY")
                               sample_state)
                = Raised e
                /\ is_AttributeError e = false)).
Proof.
  apply (@create_df_no_data_iff Q Q 0%Q Sample.float Sample.fromtimestamp
           sample_bad_time_stream (py "NSE:NIFTY") sample_state).
  intros t e H. unfold Sample.fromtimestamp in H. discriminate.
Defined.
